(** * Wordle solver: feedback codec, scoring strategies and solver loop

    A shallow embedding of [wordle/feedback.py], [wordle/utils.py],
    [wordle/strategies.py], [wordle/solver.py] and [wordle/engine.py],
    followed by the properties established about them.

    Conventions of the embedding:
    - a Python [int] is a [Z]; a [bytes] word is the list of its byte
      values;
    - code that can raise returns an [outcome]: [Ok v] or [Raise e];
    - subscripting follows Python: a negative index counts from the end,
      an index outside [-len, len) raises [IndexError];
    - a [for] loop is [for_each] over the iterated list, threading the
      variables the body assigns;
    - the pattern-keyed [dict]s keep Python's insertion order ([odict]),
      since the scorers iterate over their values; the letter tables, which
      are only read and written by key, are [gmap]s;
    - [float] arithmetic is kept behind the interface [PyFloat]; what is
      stated about scores holds for every interface with the laws named
      in the statement, which are laws of IEEE doubles;
    - a method that assigns to attributes returns the object as the call
      leaves it, also when the call raises; the [while] loop of
      [play_game] runs on fuel. *)

From Stdlib Require Import ZArith List String Ascii Lia QArith Qreals.
From Stdlib Require Import Reals Lra.
From stdpp Require Import base gmap strings list fin_maps.

Local Open Scope Z_scope.

(** ** Exceptions and the error monad *)

Inductive exn : Type :=
  | IndexError
  | KeyError (msg : string)
  | ValueError (msg : string)
  | ZeroDivisionError.

Inductive outcome (A : Type) : Type :=
  | Ok (a : A)
  | Raise (e : exn).
Arguments Ok {A} a.
Arguments Raise {A} e.

#[global] Instance outcome_ret : MRet outcome := λ A a, Ok a.
#[global] Instance outcome_bind : MBind outcome := λ A B f m,
  match m with
  | Ok a => f a
  | Raise e => Raise e
  end.
#[global] Instance outcome_fmap : FMap outcome := λ A B f m,
  match m with
  | Ok a => Ok (f a)
  | Raise e => Raise e
  end.

(** [for x in xs: body], with [s] the variables the body updates. *)
Fixpoint for_each {S A : Type} (xs : list A) (body : A → S → outcome S) (s : S)
  : outcome S :=
  match xs with
  | [] => Ok s
  | x :: xs' => s' ← body x s; for_each xs' body s'
  end.

(** [range(n)]: empty when [n ≤ 0]. *)
Definition range (n : Z) : list Z := Z.of_nat <$> seq 0 (Z.to_nat n).

(** ** Python sequences *)

(** The position a subscript [i] denotes in a sequence of length [len]. *)
Definition py_index (len : nat) (i : Z) : outcome nat :=
  if (0 <=? i) && (i <? Z.of_nat len) then Ok (Z.to_nat i)
  else if (- Z.of_nat len <=? i) && (i <? 0) then Ok (Z.to_nat (i + Z.of_nat len))
  else Raise IndexError.

(** [l[i]] *)
Definition getitem {A : Type} (l : list A) (i : Z) : outcome A :=
  k ← py_index (length l) i;
  match l !! k with
  | Some x => Ok x
  | None => Raise IndexError
  end.

(** [l[i] = x] *)
Definition setitem {A : Type} (l : list A) (i : Z) (x : A) : outcome (list A) :=
  k ← py_index (length l) i;
  Ok (<[k := x]> l).

(** [[x] * n]: empty when [n ≤ 0]. *)
Definition list_mul {A : Type} (x : A) (n : Z) : list A := replicate (Z.to_nat n) x.

(** A word is a [bytes] object. *)
Definition word : Type := list Z.

(** The [bytes] literal [b"..."]. *)
Definition bytes_of_string (s : string) : word :=
  (λ c, Z.of_nat (nat_of_ascii c)) <$> list_ascii_of_string s.

(** ** Insertion-ordered dictionaries *)

Section odict.
Context {V : Type}.

Fixpoint dict_get (d : list (Z * V)) (k : Z) : option V :=
  match d with
  | [] => None
  | (k', v) :: d' => if k' =? k then Some v else dict_get d' k
  end.

(** [d[k] = v]: overwrite in place, or append a new key. *)
Fixpoint dict_set (d : list (Z * V)) (k : Z) (v : V) : list (Z * V) :=
  match d with
  | [] => [(k, v)]
  | (k', v') :: d' =>
      if k' =? k then (k', v) :: d' else (k', v') :: dict_set d' k v
  end.

(** [d.values()] *)
Definition dict_values (d : list (Z * V)) : list V := d.*2.
End odict.

(** ** wordle/utils.py *)

Definition DEFAULT_WORD_LENGTH : Z := 5.
Definition DEFAULT_MAX_TURNS : Z := 6.

Definition all_green_pattern (word_length : Z) : Z := 3 ^ word_length - 1.

Definition pattern_to_tiles (pattern : Z) (word_length : Z) : list Z :=
  let '(tiles, _) :=
    fold_left (λ '(tiles, pattern) _, (tiles ++ [pattern mod 3], pattern / 3))
              (range word_length) ([], pattern) in
  rev tiles.

Definition tiles_to_pattern (tiles : list Z) : Z :=
  fold_left (λ pattern t, pattern * 3 + t) tiles 0.

(** ** wordle/feedback.py *)

Definition _ORD_A : Z := 97.
#[global] Arguments _ORD_A : simpl never.

(** The four loops every function of the module runs per secret. *)

(** [for i in range(word_length): counts[secret[i] - a] += 1] *)
Definition count_letters (a : Z) (secret : word) (word_length : Z)
    (counts : list Z) : outcome (list Z) :=
  for_each (range word_length) (λ i counts,
    c ← getitem secret i;
    v ← getitem counts (c - a);
    setitem counts (c - a) (v + 1)) counts.

(** Pass 1: greens. *)
Definition mark_greens (a : Z) (guess secret : word) (word_length : Z)
    (st : list Z * list Z) : outcome (list Z * list Z) :=
  for_each (range word_length) (λ i '(result, counts),
    g ← getitem guess i;
    s ← getitem secret i;
    if g =? s then
      result ← setitem result i 2;
      v ← getitem counts (g - a);
      counts ← setitem counts (g - a) (v - 1);
      Ok (result, counts)
    else Ok (result, counts)) st.

(** Pass 2: yellows. *)
Definition mark_yellows (a : Z) (guess : word) (word_length : Z)
    (st : list Z * list Z) : outcome (list Z * list Z) :=
  for_each (range word_length) (λ i '(result, counts),
    r ← getitem result i;
    if r =? 0 then
      g ← getitem guess i;
      let idx := g - a in
      v ← getitem counts idx;
      if 0 <? v then
        result ← setitem result i 1;
        v ← getitem counts idx;
        counts ← setitem counts idx (v - 1);
        Ok (result, counts)
      else Ok (result, counts)
    else Ok (result, counts)) st.

(** [for v in result: pattern = pattern * 3 + v] *)
Definition encode (result : list Z) : Z :=
  fold_left (λ pattern v, pattern * 3 + v) result 0.

Definition compute_pattern (guess secret : word) (word_length : Z) : outcome Z :=
  let counts := list_mul 0 26 in
  let result := list_mul 0 word_length in
  counts ← count_letters _ORD_A secret word_length counts;
  '(result, counts) ← mark_greens _ORD_A guess secret word_length (result, counts);
  '(result, counts) ← mark_yellows _ORD_A guess word_length (result, counts);
  Ok (encode result).

Definition compute_pattern_batch (guess : word) (candidates : list word)
    (word_length : Z) : outcome (list Z) :=
  let a := _ORD_A in
  for_each candidates (λ secret patterns,
    let counts := list_mul 0 26 in
    let result := list_mul 0 word_length in
    counts ← count_letters a secret word_length counts;
    '(result, counts) ← mark_greens a guess secret word_length (result, counts);
    '(result, counts) ← mark_yellows a guess word_length (result, counts);
    let p := encode result in
    Ok (patterns ++ [p])) [].

Definition bucket_sizes (guess : word) (candidates : list word)
    (word_length : Z) : outcome (list (Z * Z)) :=
  let a := _ORD_A in
  for_each candidates (λ secret buckets,
    let counts := list_mul 0 26 in
    let result := list_mul 0 word_length in
    counts ← count_letters a secret word_length counts;
    '(result, counts) ← mark_greens a guess secret word_length (result, counts);
    '(result, counts) ← mark_yellows a guess word_length (result, counts);
    let p := encode result in
    Ok (dict_set buckets p (default 0 (dict_get buckets p) + 1))) [].

Definition bucket_by_pattern (guess : word) (candidates : list word)
    (word_length : Z) : outcome (list (Z * list word)) :=
  let a := _ORD_A in
  for_each candidates (λ secret buckets,
    let counts := list_mul 0 26 in
    let result := list_mul 0 word_length in
    counts ← count_letters a secret word_length counts;
    '(result, counts) ← mark_greens a guess secret word_length (result, counts);
    '(result, counts) ← mark_yellows a guess word_length (result, counts);
    let p := encode result in
    match dict_get buckets p with
    | Some bucket => Ok (dict_set buckets p (bucket ++ [secret]))
    | None => Ok (dict_set buckets p [secret])
    end) [].

Definition filter_candidates (candidates : list word) (guess : word)
    (pattern : Z) (word_length : Z) : outcome (list word) :=
  let a := _ORD_A in
  for_each candidates (λ secret result_list,
    let counts := list_mul 0 26 in
    let result := list_mul 0 word_length in
    counts ← count_letters a secret word_length counts;
    '(result, counts) ← mark_greens a guess secret word_length (result, counts);
    '(result, counts) ← mark_yellows a guess word_length (result, counts);
    let p := encode result in
    if p =? pattern then Ok (result_list ++ [secret]) else Ok result_list) [].

(** ** Python floats *)

(** The operations the scorers and the solver apply to [float]s.
    [f_lit q] is the float a decimal literal denotes, [f_of_Z] the
    conversion of an [int] operand.  The one law says that the quotient of
    two positive [int]s is a positive float. *)
Class PyFloat (F : Type) := {
  f_of_Z : Z → F;
  f_lit : Q → F;
  f_neg_inf : F;
  f_add : F → F → F;
  f_sub : F → F → F;
  f_mul : F → F → F;
  f_div : F → F → F;
  f_neg : F → F;
  f_log2 : F → F;
  f_gt : F → F → bool;
  f_eqb : F → F → bool;
  f_ratio_pos : ∀ c n : Z,
    0 < c → 0 < n → f_gt (f_div (f_of_Z c) (f_of_Z n)) (f_lit 0) = true
}.

(** [max(xs)] *)
Definition py_max (xs : list Z) : outcome Z :=
  match xs with
  | [] => Raise (ValueError "max() arg is an empty sequence")
  | x :: xs' => Ok (fold_left Z.max xs' x)
  end.

(** [sum(xs)] *)
Definition py_sum (xs : list Z) : Z := fold_left Z.add xs 0.

Section strategies.
Context {F : Type} `{PyFloat F}.

(** [x / n] for a float [x] and an [int] [n]. *)
Definition float_div_int (x : F) (n : Z) : outcome F :=
  if n =? 0 then Raise ZeroDivisionError else Ok (f_div x (f_of_Z n)).

(** [c / n] for two [int]s. *)
Definition int_truediv (c n : Z) : outcome F :=
  if n =? 0 then Raise ZeroDivisionError else Ok (f_div (f_of_Z c) (f_of_Z n)).

(** [math.log2(x)]: a domain error unless [x > 0]. *)
Definition math_log2 (x : F) : outcome F :=
  if f_gt x (f_lit 0) then Ok (f_log2 x)
  else Raise (ValueError "math domain error").

(** ** wordle/strategies.py *)

Definition StrategyFn : Type := word → list word → Z → Z → Z → outcome F.

(** The letter statistics of the candidates: the loop that
    [score_frequency] and [score_frequency_batch] both start with. *)
Definition letter_stats (candidates : list word) (word_length : Z)
  : outcome (list (gmap Z Z) * gmap Z Z) :=
  let pos_freq : list (gmap Z Z) := list_mul ∅ word_length in
  let presence_count : gmap Z Z := ∅ in
  for_each candidates (λ w '(pos_freq, presence_count),
    '(pos_freq, presence_count, _) ←
      for_each (range word_length) (λ i '(pos_freq, presence_count, seen),
        c ← getitem w i;
        d ← getitem pos_freq i;
        pos_freq ← setitem pos_freq i (<[c := default 0 (d !! c) + 1]> d);
        if bool_decide (c ∈ seen) then Ok (pos_freq, presence_count, seen)
        else Ok (pos_freq,
                 <[c := default 0 (presence_count !! c) + 1]> presence_count,
                 {[c]} ∪ seen))
      (pos_freq, presence_count, (∅ : gset Z));
    Ok (pos_freq, presence_count)) (pos_freq, presence_count).

(** The score of one guess against the statistics, before the candidate
    bonus. *)
Definition letter_score (guess : word) (word_length n : Z)
    (pos_freq : list (gmap Z Z)) (presence_count : gmap Z Z) : outcome F :=
  let w_pos := f_lit 1 in
  let w_presence := f_lit (1 # 2) in
  let w_dup := f_lit (3 # 10) in
  '(score, seen_in_guess) ←
    for_each (range word_length) (λ i '(score, seen_in_guess),
      c ← getitem guess i;
      d ← getitem pos_freq i;
      t ← float_div_int (f_mul w_pos (f_of_Z (default 0 (d !! c)))) n;
      let score := f_add score t in
      if bool_decide (c ∈ seen_in_guess) then Ok (score, seen_in_guess)
      else
        t ← float_div_int
              (f_mul w_presence (f_of_Z (default 0 (presence_count !! c)))) n;
        Ok (f_add score t, {[c]} ∪ seen_in_guess))
    (f_lit 0, (∅ : gset Z));
  let duplicates := word_length - Z.of_nat (size seen_in_guess) in
  Ok (f_sub score (f_mul w_dup (f_of_Z duplicates))).

Definition score_frequency (guess : word) (candidates : list word)
    (word_length turn max_turns : Z) : outcome F :=
  let n := Z.of_nat (length candidates) in
  if n =? 0 then Ok (f_lit 0)
  else
    '(pos_freq, presence_count) ← letter_stats candidates word_length;
    score ← letter_score guess word_length n pos_freq presence_count;
    if bool_decide (guess ∈ candidates) then Ok (f_add score (f_lit (1 # 10)))
    else Ok score.

Definition score_frequency_batch (pool candidates : list word)
    (word_length : Z) : outcome word :=
  let n := Z.of_nat (length candidates) in
  if n =? 0 then getitem pool 0
  else
    '(pos_freq, presence_count) ← letter_stats candidates word_length;
    let candidate_set : gset word := list_to_set candidates in
    let best_score := f_neg_inf in
    best_guess ← getitem pool 0;
    let best_is_candidate := false in
    '(_, best_guess, _) ←
      for_each pool (λ guess '(best_score, best_guess, best_is_candidate),
        score ← letter_score guess word_length n pos_freq presence_count;
        let score :=
          if bool_decide (guess ∈ candidate_set)
          then f_add score (f_lit (1 # 10)) else score in
        let g_is_candidate := bool_decide (guess ∈ candidate_set) in
        if f_gt score best_score
           || (f_eqb score best_score && g_is_candidate
               && negb best_is_candidate)
        then Ok (score, guess, g_is_candidate)
        else Ok (best_score, best_guess, best_is_candidate))
      (best_score, best_guess, best_is_candidate);
    Ok best_guess.

Definition score_entropy (guess : word) (candidates : list word)
    (word_length turn max_turns : Z) : outcome F :=
  let n := Z.of_nat (length candidates) in
  if n <=? 1 then Ok (f_lit 0)
  else
    buckets ← bucket_sizes guess candidates word_length;
    for_each (dict_values buckets) (λ count entropy,
      p ← int_truediv count n;
      l ← math_log2 p;
      Ok (f_sub entropy (f_mul p l))) (f_lit 0).

Definition score_expected_size (guess : word) (candidates : list word)
    (word_length turn max_turns : Z) : outcome F :=
  let n := Z.of_nat (length candidates) in
  if n <=? 1 then Ok (f_lit 0)
  else
    buckets ← bucket_sizes guess candidates word_length;
    let sum_sq := py_sum ((λ c, c * c) <$> dict_values buckets) in
    q ← int_truediv sum_sq n;
    Ok (f_neg q).

Definition score_minimax (guess : word) (candidates : list word)
    (word_length turn max_turns : Z) : outcome F :=
  match candidates with
  | [] => Ok (f_lit 0)
  | _ =>
      buckets ← bucket_sizes guess candidates word_length;
      m ← py_max (dict_values buckets);
      Ok (f_of_Z (- m))
  end.

Definition score_hybrid (guess : word) (candidates : list word)
    (word_length turn max_turns : Z) : outcome F :=
  let turns_left := max_turns - turn + 1 in
  base ← (if turns_left <=? 2
          then score_minimax guess candidates word_length 1 6
          else score_entropy guess candidates word_length 1 6);
  if bool_decide (guess ∈ candidates)
  then Ok (f_add base (f_lit (1 # 1000000)))
  else Ok base.

(** The registry, in registration order. *)
Definition STRATEGIES : list (string * StrategyFn) :=
  [ ("frequency", score_frequency);
    ("entropy", score_entropy);
    ("expected_size", score_expected_size);
    ("minimax", score_minimax);
    ("hybrid", score_hybrid) ]%string.

Fixpoint registry_get (reg : list (string * StrategyFn)) (name : string)
  : option StrategyFn :=
  match reg with
  | [] => None
  | (k, fn) :: reg' => if String.eqb k name then Some fn else registry_get reg' name
  end.

Definition get_strategy (name : string) : outcome StrategyFn :=
  match registry_get STRATEGIES name with
  | None =>
      Raise (KeyError ("Unknown strategy '" ++ name ++ "'. Available: "
        ++ "['frequency', 'entropy', 'expected_size', 'minimax', 'hybrid']"))
  | Some fn => Ok fn
  end.

Definition list_strategies : list string := STRATEGIES.*1.
End strategies.
(** ** Laws of float arithmetic

    What the statements about scores assume of the floats, beyond
    [PyFloat].  Every law is one that IEEE 754 doubles, as Python computes
    with them, satisfy; the integers that enter are bounded so that their
    conversion is exact. *)

(** Comparison.  [>] is irreflexive and transitive, and a float can be
    replaced by one that [==] it on either side of [>].  The four hold
    with NaN, infinities and signed zeros. *)
Class FloatOrder (F : Type) `{PyFloat F} : Prop := {
  f_gt_irrefl : ∀ x : F, f_gt x x = false;
  f_gt_trans : ∀ x y z : F,
    f_gt x y = true → f_gt y z = true → f_gt x z = true;
  f_gt_eqb_l : ∀ x y z : F,
    f_eqb x y = true → f_gt y z = true → f_gt x z = true;
  f_gt_eqb_r : ∀ x y z : F,
    f_eqb x y = true → f_gt z x = true → f_gt z y = true
}.

(** The arithmetic of the entropy loop.  [n / n] is [1.0], [log2(1.0)]
    is [0.0], [1.0 * 0.0] and [0.0 - 0.0] are [0.0].  For a proper
    fraction [p = c / n] the product [p * log2(p)] is negative and
    finite (it is at least [2 ** -53 * 1e-16] in size, far from
    underflow), and subtracting a negative finite float from one that is
    [0.0] or positive gives a positive float (rounding is monotone). *)
Class FloatEntropy (F : Type) `{PyFloat F} : Prop := {
  f_div_same : ∀ n : Z,
    0 < n < 2 ^ 53 → f_div (f_of_Z n) (f_of_Z n) = f_lit 1;
  f_log2_one : f_log2 (f_lit 1) = f_lit 0;
  f_mul_one_zero : f_mul (f_lit 1) (f_lit 0) = f_lit 0;
  f_sub_zero_zero : f_sub (f_lit 0) (f_lit 0) = f_lit 0;
  f_plogp_neg : ∀ c n : Z,
    0 < c → c < n → n < 2 ^ 53 →
    let t := f_mul (f_div (f_of_Z c) (f_of_Z n))
                   (f_log2 (f_div (f_of_Z c) (f_of_Z n))) in
    f_gt (f_lit 0) t = true ∧ f_gt t f_neg_inf = true;
  f_sub_neg_pos : ∀ e t : F,
    e = f_lit 0 ∨ f_gt e (f_lit 0) = true →
    f_gt (f_lit 0) t = true → f_gt t f_neg_inf = true →
    f_gt (f_sub e t) (f_lit 0) = true
}.

(** The negated quotient [-(a / n)] of two [int]s.  The quotient is
    correctly rounded and negation is exact, so [-(a / n)] is antitone
    in the numerator, [-(n / n)] is [-1] and [-(n * n / n)] is [-n];
    below [2 ** 26] the doubles next to [n] are closer to it than
    [1 / n], so a numerator below [n * n] gives a value above [-n]. *)
Class FloatQuotient (F : Type) `{PyFloat F} : Prop := {
  f_quot_mono : ∀ a b n : Z,
    0 < n → 0 ≤ a → a ≤ b → b < 2 ^ 53 → n < 2 ^ 53 →
    f_gt (f_neg (f_div (f_of_Z b) (f_of_Z n)))
         (f_neg (f_div (f_of_Z a) (f_of_Z n))) = false;
  f_quot_same : ∀ n : Z,
    0 < n < 2 ^ 53 → f_neg (f_div (f_of_Z n) (f_of_Z n)) = f_of_Z (- 1);
  f_quot_square : ∀ n : Z,
    0 < n < 2 ^ 26 →
    f_neg (f_div (f_of_Z (n * n)) (f_of_Z n)) = f_of_Z (- n);
  f_quot_below : ∀ c n : Z,
    0 < n < 2 ^ 26 → 0 ≤ c → c < n * n →
    f_gt (f_neg (f_div (f_of_Z c) (f_of_Z n))) (f_of_Z (- n)) = true
}.

(** ** wordle/solver.py *)

(** The process-wide first-guess cache, keyed by
    (strategy, word_length, solutions hash). *)
Abbreviation Cache := (gmap (string * Z * Z) word).

(** The error of an empty candidate set. *)
Definition inconsistent_state : exn :=
  ValueError "No candidates remaining â€” puzzle state is inconsistent.".

Section solver.
Context {F : Type} `{PyFloat F}.

(** [hash(tuple(solutions))]: a builtin, left abstract. *)
Variable py_hash : list word → Z.

Record Solver : Type := {
  word_length : Z;
  max_turns : Z;
  hard_mode : bool;
  strategy_name : string;
  _strategy_fn : StrategyFn (F := F);
  _initial_solutions : list word;
  _initial_guesses : list word;
  candidates : list word;
  guess_pool : list word;
  history : list (word * Z);
  _solutions_hash : Z
}.

(** Attribute assignments. *)
Definition set_candidates (self : Solver) (v : list word) : Solver :=
  {| word_length := word_length self; max_turns := max_turns self;
     hard_mode := hard_mode self; strategy_name := strategy_name self;
     _strategy_fn := _strategy_fn self;
     _initial_solutions := _initial_solutions self;
     _initial_guesses := _initial_guesses self;
     candidates := v; guess_pool := guess_pool self;
     history := history self; _solutions_hash := _solutions_hash self |}.

Definition set_guess_pool (self : Solver) (v : list word) : Solver :=
  {| word_length := word_length self; max_turns := max_turns self;
     hard_mode := hard_mode self; strategy_name := strategy_name self;
     _strategy_fn := _strategy_fn self;
     _initial_solutions := _initial_solutions self;
     _initial_guesses := _initial_guesses self;
     candidates := candidates self; guess_pool := v;
     history := history self; _solutions_hash := _solutions_hash self |}.

Definition set_history (self : Solver) (v : list (word * Z)) : Solver :=
  {| word_length := word_length self; max_turns := max_turns self;
     hard_mode := hard_mode self; strategy_name := strategy_name self;
     _strategy_fn := _strategy_fn self;
     _initial_solutions := _initial_solutions self;
     _initial_guesses := _initial_guesses self;
     candidates := candidates self; guess_pool := guess_pool self;
     history := v; _solutions_hash := _solutions_hash self |}.

(** [Solver.__init__] *)
Definition Solver_init (solutions guesses : list word) (strategy : string)
    (word_length max_turns : Z) (hard_mode : bool) : outcome Solver :=
  fn ← get_strategy strategy;
  Ok {| word_length := word_length; max_turns := max_turns;
        hard_mode := hard_mode; strategy_name := strategy;
        _strategy_fn := fn;
        _initial_solutions := solutions; _initial_guesses := guesses;
        candidates := solutions; guess_pool := guesses;
        history := []; _solutions_hash := py_hash solutions |}.

Definition reset (self : Solver) : Solver :=
  set_history
    (set_guess_pool (set_candidates self (_initial_solutions self))
                    (_initial_guesses self))
    [].

Definition _score_guess (self : Solver) (guess : word) (turn : Z) : outcome F :=
  _strategy_fn self guess (candidates self) (word_length self) turn
               (max_turns self).

Definition _score_pool (self : Solver) (pool : list word) (turn : Z)
  : outcome word :=
  let best_score := f_neg_inf in
  best_guess ← getitem pool 0;
  let best_is_candidate := false in
  let candidate_set : gset word := list_to_set (candidates self) in
  '(_, best_guess, _) ←
    for_each pool (λ g '(best_score, best_guess, best_is_candidate),
      score ← _score_guess self g turn;
      let g_is_candidate := bool_decide (g ∈ candidate_set) in
      if f_gt score best_score
         || (f_eqb score best_score && g_is_candidate
             && negb best_is_candidate)
      then Ok (score, g, g_is_candidate)
      else Ok (best_score, best_guess, best_is_candidate))
    (best_score, best_guess, best_is_candidate);
  Ok best_guess.

Definition _select_guess_pool (self : Solver) (turn : Z) : list word :=
  let n := Z.of_nat (length (candidates self)) in
  let full_pool_size := Z.of_nat (length (guess_pool self)) in
  if n <=? 2 then candidates self
  else if 300 <? n then candidates self
  else if bool_decide (strategy_name self ∈
            ["entropy"; "expected_size"; "hybrid"; "minimax"]%string)
          && (full_pool_size * n <=? 2000000)
  then guess_pool self
  else candidates self.

(** [best_guess] reads and writes the module-level cache, which is
    threaded through. *)
Definition best_guess (cache : Cache) (self : Solver) (turn : Z)
  : outcome word * Cache :=
  let n := Z.of_nat (length (candidates self)) in
  if n =? 0 then
    (Raise inconsistent_state, cache)
  else if n =? 1 then (getitem (candidates self) 0, cache)
  else if n =? 2 then (getitem (candidates self) 0, cache)
  else
    let first_turn :=
      (turn =? 1) && (n =? Z.of_nat (length (_initial_solutions self))) in
    let cache_key :=
      (strategy_name self, word_length self, _solutions_hash self) in
    match (if first_turn then cache !! cache_key else None) with
    | Some w => (Ok w, cache)
    | None =>
        let pool := _select_guess_pool self turn in
        let best :=
          if String.eqb (strategy_name self) "frequency"
          then score_frequency_batch pool (candidates self) (word_length self)
          else _score_pool self pool turn in
        match best with
        | Raise e => (Raise e, cache)
        | Ok best =>
            (Ok best, if first_turn then <[cache_key := best]> cache else cache)
        end
    end.

(** [update] returns the solver as the call leaves it, also when the
    call raises. *)
Definition update (self : Solver) (guess : word) (pattern : Z)
  : Solver * outcome unit :=
  let self := set_history self (history self ++ [(guess, pattern)]) in
  match filter_candidates (candidates self) guess pattern (word_length self) with
  | Raise e => (self, Raise e)
  | Ok cs =>
      let self := set_candidates self cs in
      if hard_mode self then
        match filter_candidates (guess_pool self) guess pattern
                                (word_length self) with
        | Raise e => (self, Raise e)
        | Ok gp => (set_guess_pool self gp, Ok ())
        end
      else (self, Ok ())
  end.

Definition remaining_candidates (self : Solver) : Z :=
  Z.of_nat (length (candidates self)).
End solver.

Arguments Solver F : clear implicits.
(** ** wordle/engine.py *)

(** [enumerate(l)] *)
Definition enumerate {A : Type} (l : list A) : list (Z * A) :=
  imap (λ i x, (Z.of_nat i, x)) l.

(** A [for] loop that assigns to attributes of an object: what the body
    has assigned stays assigned when it raises. *)
Fixpoint for_each_keep {S A : Type} (xs : list A)
    (body : A → S → S * outcome unit) (s : S) : S * outcome unit :=
  match xs with
  | [] => (s, Ok ())
  | x :: xs' =>
      match body x s with
      | (s', Ok _) => for_each_keep xs' body s'
      | (s', Raise e) => (s', Raise e)
      end
  end.

Module GuessResult.
Record t : Type := {
  guess : word;
  pattern : Z;
  is_correct : bool;
  turn : Z
}.
End GuessResult.

Module GameState.
Record t : Type := {
  secret : word;
  word_length : Z;
  max_turns : Z;
  guesses : list GuessResult.t;
  finished : bool;
  won : bool
}.

Definition turns_used (self : t) : Z := Z.of_nat (length (guesses self)).

Definition turns_remaining (self : t) : Z := max_turns self - turns_used self.

(** Attribute assignments and [guesses.append]. *)
Definition append_guess (self : t) (r : GuessResult.t) : t :=
  {| secret := secret self; word_length := word_length self;
     max_turns := max_turns self; guesses := guesses self ++ [r];
     finished := finished self; won := won self |}.

Definition set_finished (self : t) (v : bool) : t :=
  {| secret := secret self; word_length := word_length self;
     max_turns := max_turns self; guesses := guesses self;
     finished := v; won := won self |}.

Definition set_won (self : t) (v : bool) : t :=
  {| secret := secret self; word_length := word_length self;
     max_turns := max_turns self; guesses := guesses self;
     finished := finished self; won := v |}.
End GameState.

Module WordleEngine.
Record t : Type := {
  secret : word;
  word_length : Z;
  max_turns : Z;
  hard_mode : bool;
  valid_guesses : option (gset word);
  _win_pattern : Z;
  _state : GameState.t;
  _known_green : list (Z * Z);
  _known_yellow : list (Z * gset Z);
  _required_letters : list (Z * Z)
}.

(** Attribute assignments. *)
Definition set__state (self : t) (v : GameState.t) : t :=
  {| secret := secret self; word_length := word_length self;
     max_turns := max_turns self; hard_mode := hard_mode self;
     valid_guesses := valid_guesses self; _win_pattern := _win_pattern self;
     _state := v; _known_green := _known_green self;
     _known_yellow := _known_yellow self;
     _required_letters := _required_letters self |}.

Definition set__known_green (self : t) (v : list (Z * Z)) : t :=
  {| secret := secret self; word_length := word_length self;
     max_turns := max_turns self; hard_mode := hard_mode self;
     valid_guesses := valid_guesses self; _win_pattern := _win_pattern self;
     _state := _state self; _known_green := v;
     _known_yellow := _known_yellow self;
     _required_letters := _required_letters self |}.

Definition set__required_letters (self : t) (v : list (Z * Z)) : t :=
  {| secret := secret self; word_length := word_length self;
     max_turns := max_turns self; hard_mode := hard_mode self;
     valid_guesses := valid_guesses self; _win_pattern := _win_pattern self;
     _state := _state self; _known_green := _known_green self;
     _known_yellow := _known_yellow self;
     _required_letters := v |}.

Section engine.
Context {F : Type} `{PyFloat F}.

(** [repr] of a [bytes], [str] of an [int] and [chr], which only build
    the texts of the error messages: builtins, left abstract. *)
Variable py_repr : word → string.
Variable py_str : Z → string.
Variable py_chr : Z → string.

(** [WordleEngine.__init__]; [valid_guesses] is the optional list. *)
Definition __init__ (secret : word) (word_length max_turns : Z)
    (hard_mode : bool) (valid_guesses : option (list word)) : outcome t :=
  if bool_decide (Z.of_nat (length secret) ≠ word_length) then
    Raise (ValueError ("Secret '" ++ py_repr secret ++ "' length "
             ++ py_str (Z.of_nat (length secret)) ++ " != word_length "
             ++ py_str word_length))
  else
    Ok {| secret := secret; word_length := word_length;
          max_turns := max_turns; hard_mode := hard_mode;
          valid_guesses :=
            match valid_guesses with
            | Some (w :: ws) => Some (list_to_set (w :: ws))
            | _ => None
            end;
          _win_pattern := all_green_pattern word_length;
          _state := {| GameState.secret := secret;
                       GameState.word_length := word_length;
                       GameState.max_turns := max_turns;
                       GameState.guesses := [];
                       GameState.finished := false;
                       GameState.won := false |};
          _known_green := []; _known_yellow := [];
          _required_letters := [] |}.

Definition _validate_hard_mode (self : t) (word : word) : outcome unit :=
  for_each (_known_green self) (λ '(pos, letter) _,
    c ← getitem word pos;
    if bool_decide (c ≠ letter) then
      c' ← getitem word pos;
      Raise (ValueError ("Hard mode: position " ++ py_str pos ++ " must be '"
               ++ py_chr letter ++ "' but got '" ++ py_chr c' ++ "'"))
    else Ok ()) ();;
  let word_counts :=
    fold_left (λ word_counts b,
                 dict_set word_counts b (default 0 (dict_get word_counts b) + 1))
              word [] in
  for_each (_required_letters self) (λ '(letter, min_count) _,
    if default 0 (dict_get word_counts letter) <? min_count then
      Raise (ValueError ("Hard mode: guess must contain at least "
               ++ py_str min_count ++ " '" ++ py_chr letter ++ "'"))
    else Ok ()) ().

(** Returns the engine as the call leaves it, also when the call
    raises. *)
Definition _update_hard_mode_constraints (self : t) (word : word) (pattern : Z)
  : t * outcome unit :=
  let tiles := pattern_to_tiles pattern (word_length self) in
  let '((self, letter_counts), r) :=
    for_each_keep (enumerate tiles) (λ '(i, tile) '(self, letter_counts),
      match getitem word i with
      | Raise e => ((self, letter_counts), Raise e)
      | Ok c =>
          if tile =? 2 then
            ((set__known_green self (dict_set (_known_green self) i c),
              dict_set letter_counts c
                       (default 0 (dict_get letter_counts c) + 1)),
             Ok ())
          else if tile =? 1 then
            ((self,
              dict_set letter_counts c
                       (default 0 (dict_get letter_counts c) + 1)),
             Ok ())
          else ((self, letter_counts), Ok ())
      end) (self, []) in
  match r with
  | Raise e => (self, Raise e)
  | Ok _ =>
      (fold_left (λ self '(letter, count),
         set__required_letters self
           (dict_set (_required_letters self) letter
              (Z.max (default 0 (dict_get (_required_letters self) letter))
                     count)))
         letter_counts self,
       Ok ())
  end.

(** Returns the engine as the call leaves it, also when the call
    raises. *)
Definition guess (self : t) (word : word) : t * outcome GuessResult.t :=
  if GameState.finished (_state self) then
    (self, Raise (ValueError "Game is already finished."))
  else if bool_decide (Z.of_nat (length word) ≠ word_length self) then
    (self, Raise (ValueError ("Guess '" ++ py_repr word ++ "' length "
                    ++ py_str (Z.of_nat (length word)) ++ " != word_length "
                    ++ py_str (word_length self))))
  else if match valid_guesses self with
          | Some valid => bool_decide (word ∉ valid)
          | None => false
          end then
    (self, Raise (ValueError ("Guess '" ++ py_repr word
                    ++ "' is not in the valid guess list.")))
  else
    match (if hard_mode self
              && negb (bool_decide (GameState.guesses (_state self) = []))
           then _validate_hard_mode self word else Ok ()) with
    | Raise e => (self, Raise e)
    | Ok _ =>
        match compute_pattern word (secret self) (word_length self) with
        | Raise e => (self, Raise e)
        | Ok pattern =>
            let is_correct := pattern =? _win_pattern self in
            let turn := GameState.turns_used (_state self) + 1 in
            let result :=
              {| GuessResult.guess := word; GuessResult.pattern := pattern;
                 GuessResult.is_correct := is_correct;
                 GuessResult.turn := turn |} in
            let self :=
              set__state self (GameState.append_guess (_state self) result) in
            let self :=
              if is_correct then
                set__state self
                  (GameState.set_finished
                     (GameState.set_won (_state self) true) true)
              else if max_turns self <=? turn then
                set__state self (GameState.set_finished (_state self) true)
              else self in
            if hard_mode self then
              match _update_hard_mode_constraints self word pattern with
              | (self, Raise e) => (self, Raise e)
              | (self, Ok _) => (self, Ok result)
              end
            else (self, Ok result)
        end
    end.

Definition state (self : t) : GameState.t := _state self.

(** The [while] loop of [play_game], run for at most [fuel] iterations:
    [None] when the fuel runs out before the loop ends.  The engine, the
    solver and the first-guess cache are returned as the loop leaves
    them. *)
Fixpoint play_loop (fuel : nat) (cache : Cache) (self : t) (solver : Solver F)
  : option (t * Solver F * Cache * outcome unit) :=
  match fuel with
  | O => None
  | S fuel =>
      if GameState.finished (_state self) then
        Some (self, solver, cache, Ok ())
      else
        let turn := GameState.turns_used (_state self) + 1 in
        match best_guess cache solver turn with
        | (Raise e, cache) => Some (self, solver, cache, Raise e)
        | (Ok word, cache) =>
            match guess self word with
            | (self, Raise e) => Some (self, solver, cache, Raise e)
            | (self, Ok result) =>
                match update solver word (GuessResult.pattern result) with
                | (solver, Raise e) => Some (self, solver, cache, Raise e)
                | (solver, Ok _) => play_loop fuel cache self solver
                end
            end
        end
  end.

Definition play_game (fuel : nat) (cache : Cache) (self : t) (solver : Solver F)
  : option (t * Solver F * Cache * outcome GameState.t) :=
  let solver := reset solver in
  match play_loop fuel cache self solver with
  | None => None
  | Some (self, solver, cache, Raise e) => Some (self, solver, cache, Raise e)
  | Some (self, solver, cache, Ok _) =>
      Some (self, solver, cache, Ok (_state self))
  end.
End engine.
End WordleEngine.

(** ** Exact arithmetic as an instance of the float interface *)

(** The reals extended with the one special value the code refers to,
    [float("-inf")].  This is not the arithmetic of the code, whose
    floats round: it is an instance of the interface and of its laws, on
    which the statements made for every lawful interface are
    exercised. *)
Inductive xreal : Type :=
  | NegInf
  | Fin (r : R).

Definition xreal_lift2 (op : R → R → R) (a b : xreal) : xreal :=
  match a, b with
  | Fin x, Fin y => Fin (op x y)
  | _, _ => NegInf
  end.

Definition xreal_lift1 (op : R → R) (a : xreal) : xreal :=
  match a with
  | Fin x => Fin (op x)
  | NegInf => NegInf
  end.

Definition xreal_gt (a b : xreal) : bool :=
  match a, b with
  | Fin x, Fin y => if Rgt_dec x y then true else false
  | Fin _, NegInf => true
  | NegInf, _ => false
  end.

Definition xreal_eqb (a b : xreal) : bool :=
  match a, b with
  | Fin x, Fin y => if Req_dec_T x y then true else false
  | NegInf, NegInf => true
  | _, _ => false
  end.

Definition log2 (x : R) : R := (ln x / ln 2)%R.

#[global, refine] Instance xreal_float : PyFloat xreal := {|
  f_of_Z z := Fin (IZR z);
  f_lit q := Fin (Q2R q);
  f_neg_inf := NegInf;
  f_add := xreal_lift2 Rplus;
  f_sub := xreal_lift2 Rminus;
  f_mul := xreal_lift2 Rmult;
  f_div := xreal_lift2 Rdiv;
  f_neg := xreal_lift1 Ropp;
  f_log2 := xreal_lift1 log2;
  f_gt := xreal_gt;
  f_eqb := xreal_eqb;
  f_ratio_pos := _
|}.
Proof.
  intros c n Hc Hn. simpl. destruct (Rgt_dec _ _) as [|Hno]; [done|].
  exfalso. apply Hno. unfold Q2R. simpl.
  apply IZR_lt in Hc, Hn. apply Rlt_gt.
  replace (0 * / 1)%R with 0%R by lra.
  by apply Rdiv_lt_0_compat.
Defined.
(** * Vocabulary of the statements *)

#[global] Instance exn_eq_dec : EqDecision exn.
Proof. solve_decision. Defined.
#[global] Instance outcome_eq_dec {A : Type} `{EqDecision A} : EqDecision (outcome A).
Proof. solve_decision. Defined.

(** A well-formed word: exactly [L] lowercase ASCII letters. *)
Definition lowercase (c : Z) : Prop := 97 ≤ c ≤ 122.
Definition wf_word (L : Z) (w : word) : Prop :=
  Z.of_nat (length w) = L ∧ Forall lowercase w.

#[global] Instance lowercase_dec c : Decision (lowercase c).
Proof. unfold lowercase. apply _. Defined.
#[global] Instance wf_word_dec L w : Decision (wf_word L w).
Proof. unfold wf_word. apply _. Defined.

(** The tiles a fixture lists, against the pattern the code computes. *)
Definition yields (guess secret : string) (tiles : list Z) : Prop :=
  compute_pattern (bytes_of_string guess) (bytes_of_string secret)
                  DEFAULT_WORD_LENGTH = Ok (tiles_to_pattern tiles)
  ∧ pattern_to_tiles (tiles_to_pattern tiles) DEFAULT_WORD_LENGTH = tiles.

Definition scratch_ok (L : Z) (st : list Z * list Z) : Prop :=
  Z.of_nat (length st.1) = L ∧ length st.2 = 26%nat.

(** Every secret of the list gets a pattern. *)
Definition all_scored (guess : word) (L : Z) (S : list word) : Prop :=
  Forall (λ s, ∃ p, compute_pattern guess s L = Ok p) S.

(** The pattern of a secret that has one. *)
Definition pattern_of (guess : word) (L : Z) (secret : word) : Z :=
  match compute_pattern guess secret L with
  | Ok p => p
  | Raise _ => 0
  end.

(** Counting one more word under pattern [p]. *)
Definition tally (d : list (Z * Z)) (p : Z) : list (Z * Z) :=
  dict_set d p (default 0 (dict_get d p) + 1).

(** Filing one more word under pattern [p]. *)
Definition collect (d : list (Z * list word)) (p : Z) (s : word)
  : list (Z * list word) :=
  dict_set d p (default [] (dict_get d p) ++ [s]).


(** Closes a well-formedness side condition on concrete words. *)
Ltac solve_wf :=
  match goal with
  | |- ?P => apply (bool_decide_unpack P); vm_compute; exact I
  end.

Section solver_vocabulary.
Context {F : Type} `{PyFloat F}.

(** The first guess the cache holds for this solver, when the call is a
    first-turn call on the full candidate universe. *)
Definition memoized_first_guess (cache : Cache) (self : Solver F) (turn : Z)
  : option word :=
  if (turn =? 1)
     && (Z.of_nat (length (candidates self))
         =? Z.of_nat (length (_initial_solutions self)))
  then cache !! (strategy_name self, word_length self, _solutions_hash self)
  else None.

(** The solver after a sequence of [update] calls. *)
Definition run_updates (self : Solver F) (turns : list (word * Z)) : Solver F :=
  fold_left (λ s '(g, p), (update s g p).1) turns self.

(** The strategy function is the one registered under the strategy
    name, as [Solver.__init__] leaves it. *)
Definition strategy_registered (self : Solver F) : Prop :=
  get_strategy (strategy_name self) = Ok (_strategy_fn self).

(** A strategy function that returns a score on well-formed input. *)
Definition strategy_total (fn : StrategyFn (F := F)) : Prop :=
  ∀ L guess candidates turn max_turns,
    wf_word L guess → Forall (wf_word L) candidates →
    ∃ x, fn guess candidates L turn max_turns = Ok x.
End solver_vocabulary.

(** A small universe on which the statements are exercised. *)
Definition crane : word := bytes_of_string "crane".
Definition crate : word := bytes_of_string "crate".
Definition slate : word := bytes_of_string "slate".
Definition trace : word := bytes_of_string "trace".
Definition zzzzz : word := bytes_of_string "zzzzz".

(** A solver over three solutions and four permitted guesses, as
    [Solver.__init__] builds it. *)
Definition demo_solver (strategy : string) (fn : StrategyFn (F := xreal))
    (hard : bool) : Solver xreal :=
  {| word_length := 5; max_turns := 6; hard_mode := hard;
     strategy_name := strategy; _strategy_fn := fn;
     _initial_solutions := [crane; crate; slate];
     _initial_guesses := [crane; crate; slate; trace];
     candidates := [crane; crate; slate];
     guess_pool := [crane; crate; slate; trace];
     history := []; _solutions_hash := 0 |}.

(** All candidates fall into one bucket. *)
Definition same_pattern (g : word) (L : Z) (S : list word) : Prop :=
  ∀ s1 s2, s1 ∈ S → s2 ∈ S → compute_pattern g s1 L = compute_pattern g s2 L.

(** ** Further vocabulary *)

(** A tile value: grey, yellow or green. *)
Definition is_tile (t : Z) : Prop := 0 ≤ t ≤ 2.

(** The [n] base-3 digits of [p], least significant first. *)
Fixpoint digits_lsb (n : nat) (p : Z) : list Z :=
  match n with
  | O => []
  | S n' => p mod 3 :: digits_lsb n' (p / 3)
  end.

(** The tiles after the green pass: 2 where the letters agree. *)
Definition green_tiles (guess secret : word) : list Z :=
  zip_with (λ a b, if a =? b then 2 else 0) guess secret.

(** The candidates that show pattern [p] against the guess. *)
Definition with_pattern (guess : word) (L p : Z) (S : list word) : list word :=
  filter (λ s, compute_pattern guess s L = Ok p) S.

(** A bucket map reduced to the sizes of its buckets. *)
Definition bucket_lengths (buckets : list (Z * list word)) : list (Z * Z) :=
  (λ kb : Z * list word, (kb.1, Z.of_nat (length kb.2))) <$> buckets.

Section solver_vocabulary_extra.
Context {F : Type} `{PyFloat F}.

(** A solver as [Solver.__init__] builds it from two lists of
    well-formed words, the guesses containing the solutions. *)
Definition solver_ok (self : Solver F) : Prop :=
  Forall (wf_word (word_length self)) (candidates self)
  ∧ Forall (wf_word (word_length self)) (guess_pool self)
  ∧ candidates self ⊆ guess_pool self
  ∧ strategy_registered self.

(** The feedback of every turn is the pattern of the guess against
    [secret]. *)
Definition honest (secret : word) (L : Z) (turns : list (word * Z)) : Prop :=
  Forall (λ gp : word * Z, compute_pattern gp.1 secret L = Ok gp.2) turns.

(** The key under which [best_guess] memoizes the first guess. *)
Definition cache_key (self : Solver F) : string * Z * Z :=
  (strategy_name self, word_length self, _solutions_hash self).

(** A first-turn call on the full candidate universe. *)
Definition first_call (self : Solver F) (turn : Z) : Prop :=
  turn = 1 ∧ length (candidates self) = length (_initial_solutions self).
End solver_vocabulary_extra.

Section selection_vocabulary.
Context {F : Type} `{PyFloat F}.

(** One step of the selection loops of [_score_pool] and
    [score_frequency_batch]: score [g] and keep the better of [g] and the
    best so far. *)
Definition pick_best (sc : word → outcome F) (cand : word → bool)
    (g : word) (st : F * word * bool) : outcome (F * word * bool) :=
  let '(best_score, best_guess, best_is_candidate) := st in
  score ← sc g;
  if f_gt score best_score
     || (f_eqb score best_score && cand g && negb best_is_candidate)
  then Ok (score, g, cand g)
  else Ok (best_score, best_guess, best_is_candidate).

(** The state of a selection loop after the words [seen], whose scores
    are [s]: the initial state, or a word of [seen] that none outscores,
    flagged as a candidate when a candidate of [seen] scores the same. *)
Definition best_so_far (s : word → F) (cand : word → bool)
    (seen : list word) (st : F * word * bool) : Prop :=
  (seen = [] ∧ st.1.1 = f_neg_inf ∧ st.2 = false)
  ∨ (st.1.2 ∈ seen ∧ st.1.1 = s st.1.2 ∧ st.2 = cand st.1.2
     ∧ (∀ g, g ∈ seen → f_gt (s g) (s st.1.2) = false)
     ∧ (∀ g, g ∈ seen → f_eqb (s g) (s st.1.2) = true → cand g = true →
             st.2 = true)).

(** The score a scorer returns, [0.0] when it raises. *)
Definition score_of (r : outcome F) : F :=
  match r with
  | Ok x => x
  | Raise _ => f_lit 0
  end.
End selection_vocabulary.
(** ** Vocabulary of the game engine *)

Section engine_vocabulary.
Variable py_repr : word → string.
Variable py_str : Z → string.
Variable py_chr : Z → string.

(** The engine after a sequence of [guess] calls, accepted or rejected. *)
Definition run_guesses (self : WordleEngine.t) (words : list word)
  : WordleEngine.t :=
  fold_left (λ e w, (WordleEngine.guess py_repr py_str py_chr e w).1)
            words self.
End engine_vocabulary.

(** The game log of an engine. *)
Definition game_log (self : WordleEngine.t) : list GuessResult.t :=
  GameState.guesses (WordleEngine._state self).

(** The attributes [guess] never assigns. *)
Definition same_game (self self' : WordleEngine.t) : Prop :=
  WordleEngine.secret self' = WordleEngine.secret self
  ∧ WordleEngine.word_length self' = WordleEngine.word_length self
  ∧ WordleEngine.max_turns self' = WordleEngine.max_turns self
  ∧ WordleEngine.hard_mode self' = WordleEngine.hard_mode self
  ∧ WordleEngine.valid_guesses self' = WordleEngine.valid_guesses self
  ∧ WordleEngine._win_pattern self' = WordleEngine._win_pattern self
  ∧ WordleEngine._known_yellow self' = WordleEngine._known_yellow self
  ∧ GameState.secret (WordleEngine._state self')
    = GameState.secret (WordleEngine._state self)
  ∧ GameState.word_length (WordleEngine._state self')
    = GameState.word_length (WordleEngine._state self)
  ∧ GameState.max_turns (WordleEngine._state self')
    = GameState.max_turns (WordleEngine._state self).

(** The number of guesses a game can still take: none when it is
    finished, one at least when it is not. *)
Definition guesses_left (self : WordleEngine.t) : nat :=
  if GameState.finished (WordleEngine._state self) then 0%nat
  else Z.to_nat (Z.max 1 (WordleEngine.max_turns self
                          - GameState.turns_used (WordleEngine._state self))).

(** One iteration of the first loop of [_update_hard_mode_constraints]:
    a green tile is recorded at its position, a green or yellow tile is
    counted under its letter. *)
Definition constraint_step (w : word)
  : Z * Z → WordleEngine.t * list (Z * Z)
    → WordleEngine.t * list (Z * Z) * outcome unit :=
  λ '(i, tile) '(self, letter_counts),
    match getitem w i with
    | Raise e => ((self, letter_counts), Raise e)
    | Ok c =>
        if tile =? 2 then
          ((WordleEngine.set__known_green self
              (dict_set (WordleEngine._known_green self) i c),
            tally letter_counts c),
           Ok ())
        else if tile =? 1 then ((self, tally letter_counts c), Ok ())
        else ((self, letter_counts), Ok ())
    end.

(** One iteration of its second loop: the required count of a letter is
    raised to the count just seen. *)
Definition require_step : WordleEngine.t → Z * Z → WordleEngine.t :=
  λ self '(letter, count),
    WordleEngine.set__required_letters self
      (dict_set (WordleEngine._required_letters self) letter
         (Z.max (default 0 (dict_get (WordleEngine._required_letters self)
                                     letter))
                count)).

(** An entry of the game log as [guess] writes it at position [k]. *)
Definition logged (self : WordleEngine.t) (k : nat) (r : GuessResult.t) : Prop :=
  GuessResult.turn r = Z.of_nat k + 1
  ∧ Z.of_nat (length (GuessResult.guess r)) = WordleEngine.word_length self
  ∧ (∀ valid, WordleEngine.valid_guesses self = Some valid →
              GuessResult.guess r ∈ valid)
  ∧ compute_pattern (GuessResult.guess r) (WordleEngine.secret self)
                    (WordleEngine.word_length self)
    = Ok (GuessResult.pattern r)
  ∧ GuessResult.is_correct r
    = (GuessResult.pattern r =? WordleEngine._win_pattern self).

(** The state [__init__] sets up and [guess] keeps. *)
Definition engine_ok (self : WordleEngine.t) : Prop :=
  let st := WordleEngine._state self in
  Z.of_nat (length (WordleEngine.secret self)) = WordleEngine.word_length self
  ∧ WordleEngine._win_pattern self
    = all_green_pattern (WordleEngine.word_length self)
  ∧ (∀ k r, game_log self !! k = Some r → logged self k r)
  ∧ (∀ k r, game_log self !! k = Some r → GuessResult.is_correct r = true →
            S k = length (game_log self))
  ∧ (GameState.won st = true
     ↔ ∃ r, last (game_log self) = Some r ∧ GuessResult.is_correct r = true)
  ∧ (GameState.finished st = true
     ↔ GameState.won st = true
       ∨ (game_log self ≠ []
          ∧ WordleEngine.max_turns self ≤ GameState.turns_used st))
  ∧ GameState.turns_used st ≤ Z.max 1 (WordleEngine.max_turns self).

(** A stand-in for the message-formatting builtins. *)
Definition no_text {A : Type} (x : A) : string := EmptyString.

(** An engine on the secret [crane], as [__init__] builds it with the
    default word length and number of turns and no list of valid
    guesses. *)
Definition demo_engine (hard : bool) : WordleEngine.t :=
  {| WordleEngine.secret := crane;
     WordleEngine.word_length := DEFAULT_WORD_LENGTH;
     WordleEngine.max_turns := DEFAULT_MAX_TURNS;
     WordleEngine.hard_mode := hard;
     WordleEngine.valid_guesses := None;
     WordleEngine._win_pattern := all_green_pattern DEFAULT_WORD_LENGTH;
     WordleEngine._state :=
       {| GameState.secret := crane;
          GameState.word_length := DEFAULT_WORD_LENGTH;
          GameState.max_turns := DEFAULT_MAX_TURNS;
          GameState.guesses := [];
          GameState.finished := false;
          GameState.won := false |};
     WordleEngine._known_green := [];
     WordleEngine._known_yellow := [];
     WordleEngine._required_letters := [] |}.

Section play_vocabulary.
Context {F : Type} `{PyFloat F}.

(** A well-formed solver facing a soft-mode engine over the same word
    length: the secret is among the solver's candidates, every word the
    solver may propose is one the engine takes, and so far the engine
    has logged words of the solver's guess list only. *)
Definition fair_game (cache : Cache) (self : WordleEngine.t)
    (solver : Solver F) : Prop :=
  engine_ok self
  ∧ WordleEngine.hard_mode self = false
  ∧ word_length solver = WordleEngine.word_length self
  ∧ solver_ok solver
  ∧ WordleEngine.secret self ∈ candidates solver
  ∧ guess_pool solver ⊆ _initial_guesses solver
  ∧ (∀ valid, WordleEngine.valid_guesses self = Some valid →
              ∀ w, w ∈ _initial_guesses solver → w ∈ valid)
  ∧ (∀ w, memoized_first_guess cache solver
            (GameState.turns_used (WordleEngine._state self) + 1) = Some w →
          w ∈ guess_pool solver)
  ∧ Forall (λ r, GuessResult.guess r ∈ _initial_guesses solver)
           (game_log self).
End play_vocabulary.

(** The green constraints of a hard-mode game: every letter that a
    logged guess has in its right place is recorded in [_known_green],
    and every later logged guess has it there too. *)
Definition greens_ok (self : WordleEngine.t) : Prop :=
  (∀ (i j : nat) r c,
     game_log self !! i = Some r →
     GuessResult.guess r !! j = Some c → WordleEngine.secret self !! j = Some c →
     dict_get (WordleEngine._known_green self) (Z.of_nat j) = Some c)
  ∧ (∀ (i i' j : nat) r r' c,
       (i < i')%nat →
       game_log self !! i = Some r → game_log self !! i' = Some r' →
       GuessResult.guess r !! j = Some c →
       WordleEngine.secret self !! j = Some c →
       GuessResult.guess r' !! j = Some c).

(** How often the letter [c] occurs in a word. *)
Definition occurrences (w : list Z) (c : Z) : Z :=
  Z.of_nat (length (filter (λ b, b = c) w)).

(** How many green or yellow tiles the letter [c] got in a guess. *)
Definition hinted (tiles : list Z) (w : list Z) (c : Z) : Z :=
  Z.of_nat (length (filter (λ it : nat * Z,
                              (it.2 = 2 ∨ it.2 = 1) ∧ w !! it.1 = Some c)
                           (imap pair tiles))).

(** The required count of a letter, 0 when none is recorded. *)
Definition required (self : WordleEngine.t) (c : Z) : Z :=
  default 0 (dict_get (WordleEngine._required_letters self) c).

(** The count constraints of a hard-mode game: the required count of a
    letter is at least the number of hints any logged guess got for it,
    and every later logged guess has the letter at least that often. *)
Definition counts_ok (self : WordleEngine.t) : Prop :=
  (∀ c, 0 ≤ required self c)
  ∧ (∀ (i : nat) r c,
       game_log self !! i = Some r →
       hinted (pattern_to_tiles (GuessResult.pattern r)
                                (WordleEngine.word_length self))
              (GuessResult.guess r) c
       ≤ required self c)
  ∧ (∀ (i i' : nat) r r' c,
       (i < i')%nat →
       game_log self !! i = Some r → game_log self !! i' = Some r' →
       hinted (pattern_to_tiles (GuessResult.pattern r)
                                (WordleEngine.word_length self))
              (GuessResult.guess r) c
       ≤ occurrences (GuessResult.guess r') c).
(** * Properties of the feedback codec *)

(** ** Subscripting inside the bounds *)

Lemma py_index_in_range (len : nat) (i : Z) :
  0 ≤ i < Z.of_nat len → py_index len i = Ok (Z.to_nat i).
Proof.
  intros Hi. unfold py_index.
  replace (0 <=? i) with true by (symmetry; apply Z.leb_le; lia).
  replace (i <? Z.of_nat len) with true by (symmetry; apply Z.ltb_lt; lia).
  reflexivity.
Qed.

Lemma getitem_in_range {A : Type} (l : list A) (i : Z) :
  0 ≤ i < Z.of_nat (length l) →
  ∃ x, getitem l i = Ok x ∧ l !! Z.to_nat i = Some x.
Proof.
  intros Hi. unfold getitem. rewrite py_index_in_range by done. simpl.
  destruct (lookup_lt_is_Some_2 l (Z.to_nat i)) as [x Hx]; [lia|].
  exists x. by rewrite Hx.
Qed.

Lemma setitem_in_range {A : Type} (l : list A) (i : Z) (x : A) :
  0 ≤ i < Z.of_nat (length l) → setitem l i x = Ok (<[Z.to_nat i := x]> l).
Proof. intros Hi. unfold setitem. by rewrite py_index_in_range. Qed.

Lemma getitem_letter (L : Z) (w : word) (i : Z) :
  wf_word L w → 0 ≤ i < L → ∃ c, getitem w i = Ok c ∧ lowercase c.
Proof.
  intros [Hlen Hlow] Hi.
  destruct (getitem_in_range w i) as (c & Hc & Hlk); [lia|].
  exists c. split; [done|].
  rewrite Forall_forall in Hlow. apply Hlow.
  eapply list_elem_of_lookup_2; eauto.
Qed.

Lemma range_bounds (n i : Z) : i ∈ range n → 0 ≤ i < n.
Proof.
  unfold range. intros Hin. apply list_elem_of_fmap in Hin as (k & -> & Hk).
  apply elem_of_seq in Hk. lia.
Qed.

(** ** Loops that cannot raise *)

Lemma for_each_inv {S A : Type} (P : S → Prop) (Q : A → Prop)
    (body : A → S → outcome S) (xs : list A) (s : S) :
  (∀ x, x ∈ xs → Q x) →
  (∀ x s, Q x → P s → ∃ s', body x s = Ok s' ∧ P s') →
  P s →
  ∃ s', for_each xs body s = Ok s' ∧ P s'.
Proof.
  intros HQ Hstep. revert s. induction xs as [|x xs IH]; intros s Hs; simpl.
  - eauto.
  - destruct (Hstep x s) as (s1 & Hb & Hs1); [apply HQ; left|done|].
    rewrite Hb. simpl. apply IH; [|done].
    intros y Hy. apply HQ. by right.
Qed.

(** Adjusting a letter count keeps the table at 26 entries. *)
Lemma counts_adjust (counts : list Z) (c d : Z) :
  length counts = 26%nat → lowercase c →
  ∃ v, getitem counts (c - _ORD_A) = Ok v
     ∧ ∃ counts', setitem counts (c - _ORD_A) (v + d) = Ok counts'
                ∧ length counts' = 26%nat.
Proof.
  intros Hlen Hc. unfold lowercase, _ORD_A in *.
  destruct (getitem_in_range counts (c - 97)) as (v & Hv & _); [lia|].
  exists v. split; [done|].
  rewrite setitem_in_range by lia. eexists. split; [done|].
  by rewrite length_insert.
Qed.

(** The branch of a loop body that leaves the scratch buffers alone. *)
Ltac keep_state := simpl; eexists; split; [reflexivity|split; simpl; done].

Lemma count_letters_total (L : Z) (secret : word) (counts : list Z) :
  wf_word L secret → length counts = 26%nat →
  ∃ counts', count_letters _ORD_A secret L counts = Ok counts'
           ∧ length counts' = 26%nat.
Proof.
  intros Hs Hlen. unfold count_letters.
  apply (for_each_inv (λ c, length c = 26%nat) (λ i, 0 ≤ i < L));
    [apply range_bounds| |done].
  intros i cs Hi Hcs.
  destruct (getitem_letter L secret i) as (c & -> & Hc); [done..|]. simpl.
  destruct (counts_adjust cs c 1) as (v & -> & cs' & Hset & Hlen'); [done..|].
  simpl. rewrite Hset. eauto.
Qed.

Lemma mark_greens_total (L : Z) (guess secret : word) (st : list Z * list Z) :
  wf_word L guess → wf_word L secret → scratch_ok L st →
  ∃ st', mark_greens _ORD_A guess secret L st = Ok st' ∧ scratch_ok L st'.
Proof.
  intros Hg Hs Hst. unfold mark_greens.
  apply (for_each_inv (scratch_ok L) (λ i, 0 ≤ i < L));
    [apply range_bounds| |done].
  intros i [result counts] Hi [Hr Hc]. simpl in Hr, Hc.
  destruct (getitem_letter L guess i) as (g & -> & Hlg); [done..|]. simpl.
  destruct (getitem_letter L secret i) as (s & -> & Hls); [done..|]. simpl.
  destruct (g =? s); [|keep_state].
  rewrite (setitem_in_range result) by lia. simpl.
  destruct (counts_adjust counts g (-1)) as (v & -> & cs' & Hset & Hlen');
    [done..|].
  simpl. replace (v - 1) with (v + -1) by lia. rewrite Hset. simpl.
  eexists. split; [done|]. split; simpl; [by rewrite length_insert|done].
Qed.

Lemma mark_yellows_total (L : Z) (guess : word) (st : list Z * list Z) :
  wf_word L guess → scratch_ok L st →
  ∃ st', mark_yellows _ORD_A guess L st = Ok st' ∧ scratch_ok L st'.
Proof.
  intros Hg Hst. unfold mark_yellows.
  apply (for_each_inv (scratch_ok L) (λ i, 0 ≤ i < L));
    [apply range_bounds| |done].
  intros i [result counts] Hi [Hr Hc]. simpl in Hr, Hc.
  destruct (getitem_in_range result i) as (r & -> & _); [lia|]. simpl.
  destruct (r =? 0); [|keep_state].
  destruct (getitem_letter L guess i) as (g & -> & Hlg); [done..|]. simpl.
  destruct (counts_adjust counts g (-1)) as (v & Hget & cs' & Hset & Hlen');
    [done..|].
  rewrite Hget. simpl. destruct (0 <? v); [|keep_state].
  rewrite (setitem_in_range result) by lia. simpl.
  replace (v - 1) with (v + -1) by lia. rewrite Hset. simpl.
  eexists. split; [done|]. split; simpl; [by rewrite length_insert|done].
Qed.

(** On well-formed words the feedback computation returns a pattern. *)
Lemma compute_pattern_total (L : Z) (guess secret : word) :
  wf_word L guess → wf_word L secret →
  ∃ p, compute_pattern guess secret L = Ok p.
Proof.
  intros Hg Hs. unfold compute_pattern.
  destruct (count_letters_total L secret (list_mul 0 26)) as (cs & -> & Hcs);
    [done..|]. simpl.
  destruct (mark_greens_total L guess secret (list_mul 0 L, cs))
    as ([r1 c1] & -> & Hst1); [done..| |].
  { split; simpl; [|done]. unfold list_mul. rewrite length_replicate.
    destruct Hg as [Hlen _]. lia. }
  simpl.
  destruct (mark_yellows_total L guess (r1, c1)) as ([r2 c2] & -> & _);
    [done..|].
  simpl. eauto.
Qed.

(** ** The four list operations, through [compute_pattern] *)

Lemma all_scored_wf (guess : word) (L : Z) (S : list word) :
  wf_word L guess → Forall (wf_word L) S → all_scored guess L S.
Proof.
  intros Hg HS. eapply Forall_impl; [exact HS|].
  intros s Hs. by apply compute_pattern_total.
Qed.

Lemma pattern_of_Ok (guess secret : word) (L p : Z) :
  compute_pattern guess secret L = Ok p → pattern_of guess L secret = p.
Proof. unfold pattern_of. by intros ->. Qed.

(** The body shared by the four loops is the body of [compute_pattern]. *)
Lemma loop_body_compute_pattern {B : Type} (guess secret : word) (L : Z)
    (k : Z → outcome B) :
  (counts ← count_letters _ORD_A secret L (list_mul 0 26);
   '(result, counts) ← mark_greens _ORD_A guess secret L (list_mul 0 L, counts);
   '(result, counts) ← mark_yellows _ORD_A guess L (result, counts);
   k (encode result))
  = (p ← compute_pattern guess secret L; k p).
Proof.
  unfold compute_pattern.
  destruct (count_letters _ORD_A secret L (list_mul 0 26)) as [cs|]; [|done].
  simpl.
  destruct (mark_greens _ORD_A guess secret L (list_mul 0 L, cs))
    as [[r1 c1]|]; [|done].
  simpl. by destruct (mark_yellows _ORD_A guess L (r1, c1)) as [[r2 c2]|].
Qed.

Lemma for_each_ext {S A : Type} (body1 body2 : A → S → outcome S)
    (xs : list A) (s : S) :
  (∀ x s, body1 x s = body2 x s) →
  for_each xs body1 s = for_each xs body2 s.
Proof.
  intros Heq. revert s. induction xs as [|x xs IH]; intros s; simpl; [done|].
  rewrite Heq. destruct (body2 x s); simpl; [apply IH|done].
Qed.

(** A loop that scores each secret and folds the pattern into its state. *)
Lemma for_each_patterns {S : Type} (guess : word) (L : Z)
    (h : S → word → Z → S) (xs : list word) (s : S) :
  all_scored guess L xs →
  for_each xs (λ x s, p ← compute_pattern guess x L; Ok (h s x p)) s
  = Ok (fold_left (λ s x, h s x (pattern_of guess L x)) xs s).
Proof.
  intros Hxs. revert s. induction Hxs as [|x xs [p Hp] _ IH]; intros s; simpl.
  - done.
  - rewrite Hp. simpl. rewrite IH. by rewrite (pattern_of_Ok _ _ _ _ Hp).
Qed.

Lemma compute_pattern_batch_acc (guess : word) (L : Z) (S : list word)
    (acc : list Z) :
  for_each S (λ x ps, p ← compute_pattern guess x L; Ok (ps ++ [p])) acc
  = (ps ← mapM (λ s, compute_pattern guess s L) S; Ok (acc ++ ps)).
Proof.
  revert acc. induction S as [|s S IH]; intros acc; simpl.
  - by rewrite app_nil_r.
  - destruct (compute_pattern guess s L) as [p|e]; simpl; [|done].
    rewrite IH.
    destruct (mapM (λ s, compute_pattern guess s L) S) as [ps|e]; simpl;
      [|done].
    by rewrite <- app_assoc.
Qed.

(** The batch function agrees with the element-wise map on every input,
    including the inputs on which both raise. *)
Lemma compute_pattern_batch_mapM (guess : word) (S : list word) (L : Z) :
  compute_pattern_batch guess S L = mapM (λ s, compute_pattern guess s L) S.
Proof.
  unfold compute_pattern_batch.
  rewrite (for_each_ext _
    (λ x ps, p ← compute_pattern guess x L; Ok (ps ++ [p]))).
  - rewrite compute_pattern_batch_acc.
    by destruct (mapM (λ s, compute_pattern guess s L) S).
  - intros x ps.
    apply (loop_body_compute_pattern guess x L (λ p, Ok (ps ++ [p]))).
Qed.

Lemma mapM_all_scored (guess : word) (L : Z) (S : list word) :
  all_scored guess L S →
  ∃ ps, mapM (λ s, compute_pattern guess s L) S = Ok ps
      ∧ Forall2 (λ s p, compute_pattern guess s L = Ok p) S ps.
Proof.
  induction 1 as [|s S [p Hp] _ (ps & IH & Hall)]; simpl.
  - exists []. split; [done|constructor].
  - rewrite Hp, IH. simpl. exists (p :: ps). split; [done|by constructor].
Qed.

Lemma filter_candidates_fold (candidates : list word) (guess : word)
    (pattern L : Z) :
  all_scored guess L candidates →
  filter_candidates candidates guess pattern L
  = Ok (fold_left (λ acc s,
          if pattern_of guess L s =? pattern then acc ++ [s] else acc)
        candidates []).
Proof.
  intros Hall. unfold filter_candidates.
  rewrite (for_each_ext _ (λ x acc, p ← compute_pattern guess x L;
             Ok (if p =? pattern then acc ++ [x] else acc))).
  - by rewrite (for_each_patterns guess L
                  (λ acc x p, if p =? pattern then acc ++ [x] else acc)).
  - intros x acc.
    rewrite (loop_body_compute_pattern guess x L
               (λ p, if p =? pattern then Ok (acc ++ [x]) else Ok acc)).
    destruct (compute_pattern guess x L) as [p|]; simpl; [|done].
    by destruct (p =? pattern).
Qed.

Lemma filter_fold_acc (guess : word) (pattern L : Z) (S acc : list word) :
  all_scored guess L S →
  fold_left (λ acc s,
     if pattern_of guess L s =? pattern then acc ++ [s] else acc) S acc
  = acc ++ filter (λ s, compute_pattern guess s L = Ok pattern) S.
Proof.
  intros Hall. revert acc.
  induction Hall as [|s S [p Hp] _ IH]; intros acc; simpl.
  - by rewrite app_nil_r.
  - rewrite IH, (pattern_of_Ok _ _ _ _ Hp), filter_cons.
    destruct (Z.eqb_spec p pattern) as [->|Hne].
    + rewrite decide_True by done. by rewrite <- app_assoc.
    + rewrite decide_False by congruence. done.
Qed.

(** [filter_candidates] keeps, in order, the words whose pattern is the
    given one. *)
Lemma filter_candidates_filter (candidates : list word) (guess : word)
    (pattern L : Z) :
  all_scored guess L candidates →
  filter_candidates candidates guess pattern L
  = Ok (filter (λ s, compute_pattern guess s L = Ok pattern) candidates).
Proof.
  intros Hall. rewrite filter_candidates_fold by done.
  by rewrite filter_fold_acc.
Qed.

(** ** Dictionaries *)

Lemma fold_left_add_shift (xs : list Z) (a : Z) :
  fold_left Z.add xs a = a + py_sum xs.
Proof.
  unfold py_sum. revert a. induction xs as [|x xs IH]; intros a; simpl; [lia|].
  rewrite (IH (a + x)), (IH (0 + x)). lia.
Qed.

Lemma py_sum_cons (x : Z) (xs : list Z) : py_sum (x :: xs) = x + py_sum xs.
Proof. unfold py_sum at 1. simpl. apply fold_left_add_shift. Qed.

Section odict_facts.
Context {V : Type}.
Implicit Types (d : list (Z * V)) (k j : Z) (v : V).

Lemma dict_get_set d k v j :
  dict_get (dict_set d k v) j = if decide (k = j) then Some v else dict_get d j.
Proof.
  induction d as [|[k' v'] d IH]; simpl.
  - destruct (Z.eqb_spec k j); by case_decide.
  - destruct (Z.eqb_spec k' k) as [->|Hne]; simpl.
    + destruct (Z.eqb_spec k j); by case_decide.
    + destruct (Z.eqb_spec k' j) as [->|Hne'];
        [by rewrite decide_False by done|done].
Qed.

Lemma dict_get_set_eq d k v : dict_get (dict_set d k v) k = Some v.
Proof. rewrite dict_get_set. by rewrite decide_True. Qed.

Lemma dict_get_set_ne d k v j :
  k ≠ j → dict_get (dict_set d k v) j = dict_get d j.
Proof. intros Hne. rewrite dict_get_set. by rewrite decide_False. Qed.

Lemma dict_get_Some_elem d k v : dict_get d k = Some v → (k, v) ∈ d.
Proof.
  induction d as [|[k' v'] d IH]; simpl; [done|].
  destruct (Z.eqb_spec k' k) as [->|Hne].
  - intros [= ->]. left.
  - intros Hd. right. by apply IH.
Qed.

Lemma dict_get_None_keys d k : dict_get d k = None ↔ k ∉ d.*1.
Proof.
  induction d as [|[k' v'] d IH]; simpl.
  - split; [intros _; apply not_elem_of_nil|done].
  - rewrite not_elem_of_cons. destruct (Z.eqb_spec k' k) as [->|Hne].
    + split; [done|]. by intros [? _].
    + rewrite IH. split; [by intros ?; split|by intros [_ ?]].
Qed.

Lemma dict_set_keys_NoDup d k v : NoDup d.*1 → NoDup (dict_set d k v).*1.
Proof.
  induction d as [|[k' v'] d IH]; simpl; intros Hnd.
  - apply NoDup_singleton.
  - destruct (Z.eqb_spec k' k) as [->|Hne]; simpl; [done|].
    apply NoDup_cons in Hnd as [Hnin Hnd]. apply NoDup_cons. split; [|auto].
    rewrite <- dict_get_None_keys in *.
    by rewrite dict_get_set_ne.
Qed.

Lemma dict_elem_get d k v : NoDup d.*1 → (k, v) ∈ d → dict_get d k = Some v.
Proof.
  induction d as [|[k' v'] d IH]; simpl; intros Hnd Hin.
  - by apply elem_of_nil in Hin.
  - apply NoDup_cons in Hnd as [Hnin Hnd].
    apply elem_of_cons in Hin as [[= -> ->]|Hin].
    + by rewrite Z.eqb_refl.
    + destruct (Z.eqb_spec k' k) as [->|Hne]; [|auto].
      exfalso. apply Hnin. apply list_elem_of_fmap. by exists (k, v).
Qed.
End odict_facts.

Lemma dict_set_sum (d : list (Z * Z)) (p v : Z) :
  py_sum (dict_values (dict_set d p v))
  = py_sum (dict_values d) - default 0 (dict_get d p) + v.
Proof.
  unfold dict_values. induction d as [|[k w] d IH]; cbn [dict_set dict_get].
  - unfold py_sum. simpl. lia.
  - destruct (Z.eqb_spec k p) as [->|Hne]; rewrite !fmap_cons, !py_sum_cons.
    + simpl. lia.
    + rewrite IH. simpl. lia.
Qed.

Lemma tally_sum (d : list (Z * Z)) (p : Z) :
  py_sum (dict_values (tally d p)) = py_sum (dict_values d) + 1.
Proof. unfold tally. rewrite dict_set_sum. lia. Qed.

Lemma bucket_sizes_fold (guess : word) (candidates : list word) (L : Z) :
  all_scored guess L candidates →
  bucket_sizes guess candidates L
  = Ok (fold_left (λ d s, tally d (pattern_of guess L s)) candidates []).
Proof.
  intros Hall. unfold bucket_sizes.
  rewrite (for_each_ext _ (λ x d, p ← compute_pattern guess x L;
             Ok (tally d p))).
  - by rewrite (for_each_patterns guess L (λ d x p, tally d p)).
  - intros x d.
    apply (loop_body_compute_pattern guess x L (λ p, Ok (tally d p))).
Qed.

Lemma tally_fold_sum (guess : word) (L : Z) (S : list word) (d : list (Z * Z)) :
  py_sum (dict_values (fold_left (λ d s, tally d (pattern_of guess L s)) S d))
  = py_sum (dict_values d) + Z.of_nat (length S).
Proof.
  revert d. induction S as [|s S IH]; intros d; simpl fold_left.
  - simpl. lia.
  - rewrite IH, tally_sum. simpl length. lia.
Qed.

Lemma bucket_by_pattern_fold (guess : word) (candidates : list word) (L : Z) :
  all_scored guess L candidates →
  bucket_by_pattern guess candidates L
  = Ok (fold_left (λ d s, collect d (pattern_of guess L s) s) candidates []).
Proof.
  intros Hall. unfold bucket_by_pattern.
  rewrite (for_each_ext _ (λ x d, p ← compute_pattern guess x L;
             Ok (collect d p x))).
  - by rewrite (for_each_patterns guess L (λ d x p, collect d p x)).
  - intros x d.
    rewrite (loop_body_compute_pattern guess x L
      (λ p, match dict_get d p with
            | Some bucket => Ok (dict_set d p (bucket ++ [x]))
            | None => Ok (dict_set d p [x])
            end)).
    destruct (compute_pattern guess x L) as [p|]; simpl; [|done].
    unfold collect. by destruct (dict_get d p).
Qed.

(** What a bucket holds once the words of [S] are filed into [d]. *)
Lemma collect_fold_get (guess : word) (L : Z) (S : list word)
    (d : list (Z * list word)) (j : Z) :
  all_scored guess L S →
  dict_get (fold_left (λ d s, collect d (pattern_of guess L s) s) S d) j
  = match filter (λ s, compute_pattern guess s L = Ok j) S with
    | [] => dict_get d j
    | l => Some (default [] (dict_get d j) ++ l)
    end.
Proof.
  intros Hall. revert d.
  induction Hall as [|s S [p Hp] _ IH]; intros d; simpl fold_left; [done|].
  rewrite IH, (pattern_of_Ok _ _ _ _ Hp), filter_cons. unfold collect.
  rewrite dict_get_set. destruct (decide (p = j)) as [->|Hne].
  - rewrite decide_True by done. simpl.
    destruct (filter _ S) as [|x l]; [done|]. by rewrite <- app_assoc.
  - by rewrite decide_False by congruence.
Qed.

Lemma collect_fold_keys_NoDup (guess : word) (L : Z) (S : list word)
    (d : list (Z * list word)) :
  NoDup d.*1 →
  NoDup (fold_left (λ d s, collect d (pattern_of guess L s) s) S d).*1.
Proof.
  revert d. induction S as [|s S IH]; intros d Hd; simpl fold_left; [done|].
  apply IH. by apply dict_set_keys_NoDup.
Qed.

(** * The scorers return on well-formed input *)

Lemma tally_fold_pos (guess : word) (L : Z) (S : list word) (d : list (Z * Z)) :
  Forall (λ kv, 0 < kv.2) d →
  Forall (λ kv, 0 < kv.2) (fold_left (λ d s, tally d (pattern_of guess L s)) S d).
Proof.
  revert d. induction S as [|s S IH]; intros d Hd; simpl fold_left; [done|].
  apply IH. unfold tally.
  assert (Hv : 0 < default 0 (dict_get d (pattern_of guess L s)) + 1).
  { destruct (dict_get d (pattern_of guess L s)) as [v|] eqn:Hget; simpl; [|lia].
    apply dict_get_Some_elem in Hget. rewrite Forall_forall in Hd.
    specialize (Hd _ Hget). simpl in Hd. lia. }
  revert Hv. generalize (default 0 (dict_get d (pattern_of guess L s)) + 1).
  generalize (pattern_of guess L s). intros k v Hv.
  induction Hd as [|[k' v'] d Hkv Hd IHd]; simpl.
  - by repeat constructor.
  - destruct (k' =? k); constructor; auto.
Qed.

Lemma tally_fold_nonempty (guess : word) (L : Z) (S : list word)
    (d : list (Z * Z)) :
  d ≠ [] ∨ S ≠ [] →
  fold_left (λ d s, tally d (pattern_of guess L s)) S d ≠ [].
Proof.
  revert d. induction S as [|s S IH]; intros d Hd; simpl fold_left.
  - by destruct Hd.
  - apply IH. left. unfold tally.
    destruct d as [|[k v] d]; simpl; [done|]. by destruct (k =? _).
Qed.

(** What [bucket_sizes] returns on well-formed input: positive counts, not
    all missing, summing to the number of candidates. *)
Lemma bucket_sizes_wf (guess : word) (candidates : list word) (L : Z) :
  wf_word L guess → Forall (wf_word L) candidates →
  ∃ buckets, bucket_sizes guess candidates L = Ok buckets
    ∧ Forall (λ kv, 0 < kv.2) buckets
    ∧ (candidates ≠ [] → buckets ≠ [])
    ∧ py_sum (dict_values buckets) = Z.of_nat (length candidates).
Proof.
  intros Hg HS. eexists. split; [|split; [|split]].
  - apply bucket_sizes_fold. by apply all_scored_wf.
  - apply tally_fold_pos. constructor.
  - intros Hne. apply tally_fold_nonempty. by right.
  - by rewrite tally_fold_sum.
Qed.

Lemma getitem_first {A : Type} (l : list A) :
  l ≠ [] → ∃ x, getitem l 0 = Ok x ∧ x ∈ l.
Proof. destruct l as [|x l]; [done|]. intros _. exists x. split; [done|left]. Qed.

Section strategy_totality.
Context {F : Type} `{PyFloat F}.

Lemma letter_stats_total (candidates : list word) (L : Z) :
  Forall (wf_word L) candidates →
  ∃ pos_freq presence_count,
    letter_stats candidates L = Ok (pos_freq, presence_count)
    ∧ length pos_freq = Z.to_nat L.
Proof.
  intros HS. unfold letter_stats.
  destruct (for_each_inv
    (λ st : list (gmap Z Z) * gmap Z Z, length st.1 = Z.to_nat L)
    (wf_word L)
    (λ w '(pos_freq, presence_count),
      '(pos_freq, presence_count, _) ←
        for_each (range L) (λ i '(pos_freq, presence_count, seen),
          c ← getitem w i;
          d ← getitem pos_freq i;
          pos_freq ← setitem pos_freq i (<[c := default 0 (d !! c) + 1]> d);
          if bool_decide (c ∈ seen) then Ok (pos_freq, presence_count, seen)
          else Ok (pos_freq,
                   <[c := default 0 (presence_count !! c) + 1]> presence_count,
                   {[c]} ∪ seen))
        (pos_freq, presence_count, (∅ : gset Z));
      Ok (pos_freq, presence_count))
    candidates (list_mul ∅ L, ∅)) as ([pf pc] & Hrun & Hlen).
  - by apply Forall_forall.
  - intros w [pf pc] Hw Hpf. simpl in Hpf.
    destruct (for_each_inv
      (λ st : list (gmap Z Z) * gmap Z Z * gset Z,
         length st.1.1 = Z.to_nat L)
      (λ i, 0 ≤ i < L)
      (λ i '(pos_freq, presence_count, seen),
          c ← getitem w i;
          d ← getitem pos_freq i;
          pos_freq ← setitem pos_freq i (<[c := default 0 (d !! c) + 1]> d);
          if bool_decide (c ∈ seen) then Ok (pos_freq, presence_count, seen)
          else Ok (pos_freq,
                   <[c := default 0 (presence_count !! c) + 1]> presence_count,
                   {[c]} ∪ seen))
      (range L) (pf, pc, ∅)) as ([[pf' pc'] seen'] & Hinner & Hlen');
      [apply range_bounds| |done|].
    + intros i [[pf1 pc1] seen1] Hi Hpf1. simpl in Hpf1.
      destruct (getitem_letter L w i) as (c & -> & _); [done..|]. simpl.
      destruct (getitem_in_range pf1 i) as (d & -> & _); [lia|]. simpl.
      rewrite setitem_in_range by lia. simpl.
      destruct (bool_decide (c ∈ seen1)); eexists; (split; [done|]);
        simpl; by rewrite length_insert.
    + rewrite Hinner. simpl. eauto.
  - simpl. unfold list_mul. by rewrite length_replicate.
  - exists pf, pc. by split.
Qed.

Lemma letter_score_total (guess : word) (L n : Z)
    (pos_freq : list (gmap Z Z)) (presence_count : gmap Z Z) :
  wf_word L guess → length pos_freq = Z.to_nat L → n ≠ 0 →
  ∃ x, letter_score guess L n pos_freq presence_count = Ok x.
Proof.
  intros Hg Hpf Hn. unfold letter_score.
  assert (Hdiv : ∀ x, float_div_int x n = Ok (f_div x (f_of_Z n))).
  { intros x. unfold float_div_int.
    by destruct (Z.eqb_spec n 0). }
  cbv zeta.
  match goal with
  | |- ∃ x, (for_each _ ?body ?st0 ≫= _) = _ =>
      destruct (for_each_inv (λ _ : F * gset Z, True) (λ i, 0 ≤ i < L)
                  body (range L) st0) as ([score seen] & Hrun & _)
  end;
    [apply range_bounds| |done|].
  - intros i [score seen] Hi _.
    destruct (getitem_letter L guess i) as (c & -> & _); [done..|]. simpl.
    destruct (getitem_in_range pos_freq i) as (d & -> & _); [lia|]. simpl.
    rewrite !Hdiv. simpl.
    destruct (bool_decide (c ∈ seen)); by eexists.
  - rewrite Hrun. simpl. eauto.
Qed.

(** The batch scorer returns a word of the pool. *)
Lemma score_frequency_batch_total (pool candidates : list word) (L : Z) :
  pool ≠ [] → Forall (wf_word L) pool → Forall (wf_word L) candidates →
  ∃ w, score_frequency_batch pool candidates L = Ok w ∧ w ∈ pool.
Proof.
  intros Hne Hpool Hcands. unfold score_frequency_batch.
  destruct (getitem_first pool Hne) as (w0 & Hfirst & Hw0).
  destruct (Z.eqb_spec (Z.of_nat (length candidates)) 0) as [|Hn]; [eauto|].
  destruct (letter_stats_total candidates L) as (pf & pc & -> & Hpf); [done|].
  cbv zeta. simpl. rewrite Hfirst. simpl.
  match goal with
  | |- ∃ w, (for_each _ ?body ?st0 ≫= _) = _ ∧ _ =>
      destruct (for_each_inv
        (λ st : F * word * bool, st.1.2 ∈ pool)
        (λ g, g ∈ pool ∧ wf_word L g) body pool st0)
        as ([[bs bg] bc] & Hrun & Hin)
  end.
  - intros g Hg. split; [done|].
    rewrite Forall_forall in Hpool. by apply Hpool.
  - intros g [[bs bg] bc] [Hg Hwf] Hbg. simpl in Hbg.
    destruct (letter_score_total g L (Z.of_nat (length candidates)) pf pc)
      as [x ->]; [done..|]. simpl.
    match goal with |- context [if ?b then Ok _ else Ok _] => destruct b end;
      by eexists.
  - done.
  - rewrite Hrun. simpl. eauto.
Qed.

Lemma score_frequency_total : strategy_total score_frequency.
Proof.
  intros L guess candidates turn max_turns Hg HS. unfold score_frequency.
  destruct (Z.eqb_spec (Z.of_nat (length candidates)) 0) as [|Hn];
    [by eexists|].
  destruct (letter_stats_total candidates L) as (pf & pc & -> & Hpf); [done|].
  simpl.
  destruct (letter_score_total guess L (Z.of_nat (length candidates)) pf pc)
    as [x ->]; [done..|]. simpl.
  destruct (bool_decide _); by eexists.
Qed.

Lemma int_truediv_nonzero (c n : Z) :
  n ≠ 0 → int_truediv c n = Ok (f_div (f_of_Z c) (f_of_Z n)).
Proof. intros Hn. unfold int_truediv. by destruct (Z.eqb_spec n 0). Qed.

Lemma math_log2_ratio (c n : Z) :
  0 < c → 0 < n →
  math_log2 (f_div (f_of_Z c) (f_of_Z n))
  = Ok (f_log2 (f_div (f_of_Z c) (f_of_Z n))).
Proof. intros Hc Hn. unfold math_log2. by rewrite f_ratio_pos. Qed.

Lemma entropy_loop_total (n : Z) (counts : list Z) (acc : F) :
  0 < n → Forall (λ c, 0 < c) counts →
  ∃ x, for_each counts (λ count entropy,
         p ← int_truediv count n;
         l ← math_log2 p;
         Ok (f_sub entropy (f_mul p l))) acc = Ok x.
Proof.
  intros Hn Hcounts. revert acc.
  induction Hcounts as [|c counts Hc _ IH]; intros acc; cbn [for_each];
    [by eexists|].
  rewrite int_truediv_nonzero by lia. cbn [mbind outcome_bind].
  rewrite math_log2_ratio by done. cbn [mbind outcome_bind]. apply IH.
Qed.

Lemma score_entropy_total : strategy_total score_entropy.
Proof.
  intros L guess candidates turn max_turns Hg HS. unfold score_entropy.
  destruct (Z.leb_spec (Z.of_nat (length candidates)) 1) as [|Hn];
    [by eexists|].
  destruct (bucket_sizes_wf guess candidates L) as (b & -> & Hpos & _);
    [done..|].
  simpl. apply entropy_loop_total; [lia|].
  unfold dict_values. by apply Forall_fmap.
Qed.

Lemma score_expected_size_total : strategy_total score_expected_size.
Proof.
  intros L guess candidates turn max_turns Hg HS. unfold score_expected_size.
  destruct (Z.leb_spec (Z.of_nat (length candidates)) 1) as [|Hn];
    [by eexists|].
  destruct (bucket_sizes_wf guess candidates L) as (b & -> & _); [done..|].
  simpl. rewrite int_truediv_nonzero by lia. by eexists.
Qed.

Lemma score_minimax_total : strategy_total score_minimax.
Proof.
  intros L guess candidates turn max_turns Hg HS. unfold score_minimax.
  destruct candidates as [|s S]; [by eexists|].
  destruct (bucket_sizes_wf guess (s :: S) L) as (b & -> & _ & Hne & _);
    [done..|].
  simpl. destruct b as [|[k v] b]; [by destruct Hne|].
  by eexists.
Qed.

Lemma score_hybrid_total : strategy_total score_hybrid.
Proof.
  intros L guess candidates turn max_turns Hg HS. unfold score_hybrid.
  destruct (max_turns - turn + 1 <=? 2).
  - destruct (score_minimax_total L guess candidates 1 6) as [x ->];
      [done..|].
    simpl. destruct (bool_decide _); by eexists.
  - destruct (score_entropy_total L guess candidates 1 6) as [x ->];
      [done..|].
    simpl. destruct (bool_decide _); by eexists.
Qed.

(** The five registered names and their functions. *)
Lemma get_strategy_cases (name : string) (fn : StrategyFn (F := F)) :
  get_strategy name = Ok fn →
  (name = "frequency"%string ∧ fn = score_frequency)
  ∨ (name ≠ "frequency"%string
     ∧ (fn = score_entropy ∨ fn = score_expected_size
        ∨ fn = score_minimax ∨ fn = score_hybrid)).
Proof.
  unfold get_strategy, STRATEGIES. cbn [registry_get].
  destruct (String.eqb_spec "frequency" name) as [<-|Hne].
  { intros [= <-]. by left. }
  intros Hfn. right. split; [done|].
  repeat match type of Hfn with
  | context [String.eqb ?k name] => destruct (String.eqb k name)
  end; first [discriminate | injection Hfn as <-; auto].
Qed.

Lemma get_strategy_total (name : string) (fn : StrategyFn (F := F)) :
  get_strategy name = Ok fn → strategy_total fn.
Proof.
  intros Hfn. apply get_strategy_cases in Hfn
    as [[_ ->]|[_ [->|[->|[->| ->]]]]].
  - apply score_frequency_total.
  - apply score_entropy_total.
  - apply score_expected_size_total.
  - apply score_minimax_total.
  - apply score_hybrid_total.
Qed.
End strategy_totality.

(** * The solver *)

Lemma filter_candidates_length (candidates : list word) (guess : word)
    (pattern L : Z) (kept : list word) :
  filter_candidates candidates guess pattern L = Ok kept →
  (length kept ≤ length candidates)%nat.
Proof.
  unfold filter_candidates.
  rewrite (for_each_ext _ (λ x acc, p ← compute_pattern guess x L;
             Ok (if p =? pattern then acc ++ [x] else acc))).
  2:{ intros x acc.
      rewrite (loop_body_compute_pattern guess x L
                 (λ p, if p =? pattern then Ok (acc ++ [x]) else Ok acc)).
      destruct (compute_pattern guess x L) as [p|]; simpl; [|done].
      by destruct (p =? pattern). }
  assert (Hgen : ∀ acc,
    for_each candidates (λ x acc, p ← compute_pattern guess x L;
       Ok (if p =? pattern then acc ++ [x] else acc)) acc = Ok kept →
    (length kept ≤ length acc + length candidates)%nat).
  { induction candidates as [|s S IH]; intros acc; simpl.
    - intros [= <-]. lia.
    - destruct (compute_pattern guess s L) as [p|]; simpl; [|done].
      intros Hrun. apply IH in Hrun. revert Hrun.
      destruct (p =? pattern); rewrite ?length_app; simpl; lia. }
  intros Hrun. apply Hgen in Hrun. simpl in Hrun. lia.
Qed.

Section solver_facts.
Context {F : Type} `{PyFloat F}.
Implicit Types (self : Solver F) (cache : Cache).

(** The pool chosen for scoring is one of the solver's two lists. *)
Lemma _select_guess_pool_cases self turn :
  _select_guess_pool self turn = candidates self
  ∨ _select_guess_pool self turn = guess_pool self.
Proof.
  unfold _select_guess_pool.
  repeat match goal with
  | |- context [if ?b then _ else _] => destruct b
  end; auto.
Qed.

(** Outside the four information-theoretic names the pool is the
    candidate list. *)
Lemma _select_guess_pool_other self turn :
  strategy_name self ∉
    ["entropy"; "expected_size"; "hybrid"; "minimax"]%string →
  _select_guess_pool self turn = candidates self.
Proof.
  intros Hname. unfold _select_guess_pool.
  rewrite bool_decide_eq_false_2 by done. simpl.
  by repeat match goal with
  | |- context [if ?b then _ else _] => destruct b
  end.
Qed.

Lemma _score_pool_total self (pool : list word) (turn : Z) :
  pool ≠ [] →
  Forall (wf_word (word_length self)) pool →
  Forall (wf_word (word_length self)) (candidates self) →
  strategy_total (_strategy_fn self) →
  ∃ w, _score_pool self pool turn = Ok w ∧ w ∈ pool.
Proof.
  intros Hne Hpool Hcands Hfn. unfold _score_pool.
  destruct (getitem_first pool Hne) as (w0 & -> & Hw0).
  cbv zeta. simpl.
  match goal with
  | |- ∃ w, (for_each _ ?body ?st0 ≫= _) = _ ∧ _ =>
      destruct (for_each_inv
        (λ st : F * word * bool, st.1.2 ∈ pool)
        (λ g, g ∈ pool ∧ wf_word (word_length self) g) body pool st0)
        as ([[bs bg] bc] & Hrun & Hin)
  end.
  - intros g Hg. split; [done|].
    rewrite Forall_forall in Hpool. by apply Hpool.
  - intros g [[bs bg] bc] [Hg Hwf] Hbg. simpl in Hbg.
    unfold _score_guess.
    destruct (Hfn (word_length self) g (candidates self) turn
                  (max_turns self)) as [x ->]; [done..|].
    simpl.
    match goal with |- context [if ?b then Ok _ else Ok _] => destruct b end;
      by eexists.
  - done.
  - rewrite Hrun. simpl. eauto.
Qed.

(** With three or more candidates and no memoized first guess,
    [best_guess] returns what the scorer of the strategy returns on the
    selected pool. *)
Lemma best_guess_scores self cache turn :
  (2 < length (candidates self))%nat →
  memoized_first_guess cache self turn = None →
  (best_guess cache self turn).1
  = if String.eqb (strategy_name self) "frequency"
    then score_frequency_batch (_select_guess_pool self turn)
           (candidates self) (word_length self)
    else _score_pool self (_select_guess_pool self turn) turn.
Proof.
  intros Hn Hmemo. unfold best_guess, memoized_first_guess in *.
  destruct (Z.eqb_spec (Z.of_nat (length (candidates self))) 0); [lia|].
  destruct (Z.eqb_spec (Z.of_nat (length (candidates self))) 1); [lia|].
  destruct (Z.eqb_spec (Z.of_nat (length (candidates self))) 2); [lia|].
  cbv zeta. rewrite Hmemo.
  by destruct (if String.eqb _ _ then _ else _).
Qed.

Lemma update_hard_mode self (g : word) (p : Z) :
  hard_mode (update self g p).1 = hard_mode self.
Proof.
  unfold update. simpl.
  destruct (filter_candidates (candidates self) g p (word_length self));
    simpl; [|done].
  destruct (hard_mode self) eqn:Hhard; simpl; [|done].
  by destruct (filter_candidates (guess_pool self) g p (word_length self)).
Qed.

Lemma update_guess_pool_length self (g : word) (p : Z) :
  (length (guess_pool (update self g p).1) ≤ length (guess_pool self))%nat.
Proof.
  unfold update. simpl.
  destruct (filter_candidates (candidates self) g p (word_length self));
    simpl; [|done].
  destruct (hard_mode self); simpl; [|done].
  destruct (filter_candidates (guess_pool self) g p (word_length self))
    as [gp|] eqn:Hgp; simpl; [|done].
  by eapply filter_candidates_length.
Qed.

Lemma run_updates_hard_mode self (turns : list (word * Z)) :
  hard_mode (run_updates self turns) = hard_mode self.
Proof.
  unfold run_updates. revert self.
  induction turns as [|[g p] turns IH]; intros self; simpl; [done|].
  by rewrite IH, update_hard_mode.
Qed.

(** In hard mode a call that returns has filtered both lists. *)
Lemma update_hard_mode_filters self (g : word) (p : Z) :
  hard_mode self = true →
  (update self g p).2 = Ok () →
  filter_candidates (candidates self) g p (word_length self)
    = Ok (candidates (update self g p).1)
  ∧ filter_candidates (guess_pool self) g p (word_length self)
    = Ok (guess_pool (update self g p).1).
Proof.
  intros Hhard. unfold update. simpl.
  destruct (filter_candidates (candidates self) g p (word_length self));
    simpl; [|done].
  rewrite Hhard.
  by destruct (filter_candidates (guess_pool self) g p (word_length self)).
Qed.

(** On well-formed words [update] returns. *)
Lemma update_total self (g : word) (p : Z) :
  wf_word (word_length self) g →
  Forall (wf_word (word_length self)) (candidates self) →
  Forall (wf_word (word_length self)) (guess_pool self) →
  (update self g p).2 = Ok ().
Proof.
  intros Hg Hc Hp. unfold update. simpl.
  rewrite filter_candidates_filter by by apply all_scored_wf.
  simpl. destruct (hard_mode self); [|done].
  by rewrite filter_candidates_filter by by apply all_scored_wf.
Qed.
End solver_facts.

Section best_guess_facts.
Context {F : Type} `{PyFloat F}.
Implicit Types (self : Solver F) (cache : Cache).

(** A memoized first guess is returned as it is. *)
Lemma best_guess_memoized self cache turn (w : word) :
  (2 < length (candidates self))%nat →
  memoized_first_guess cache self turn = Some w →
  (best_guess cache self turn).1 = Ok w.
Proof.
  intros Hn Hmemo. unfold best_guess, memoized_first_guess in *.
  destruct (Z.eqb_spec (Z.of_nat (length (candidates self))) 0); [lia|].
  destruct (Z.eqb_spec (Z.of_nat (length (candidates self))) 1); [lia|].
  destruct (Z.eqb_spec (Z.of_nat (length (candidates self))) 2); [lia|].
  cbv zeta. by rewrite Hmemo.
Qed.

(** With three or more well-formed candidates inside a well-formed
    guess pool, [best_guess] returns a word. *)
Lemma best_guess_returns self cache turn :
  (2 < length (candidates self))%nat →
  Forall (wf_word (word_length self)) (candidates self) →
  Forall (wf_word (word_length self)) (guess_pool self) →
  candidates self ⊆ guess_pool self →
  strategy_registered self →
  ∃ w, (best_guess cache self turn).1 = Ok w.
Proof.
  intros Hn Hc Hp Hsub Hreg.
  destruct (memoized_first_guess cache self turn) as [w|] eqn:Hmemo.
  { exists w. by apply best_guess_memoized. }
  rewrite best_guess_scores by done.
  assert (Hcne : candidates self ≠ []).
  { intros Hnil. rewrite Hnil in Hn. simpl in Hn. lia. }
  assert (Hpool : _select_guess_pool self turn ≠ []
                  ∧ Forall (wf_word (word_length self))
                           (_select_guess_pool self turn)).
  { destruct (_select_guess_pool_cases self turn) as [-> | ->]; [done|].
    split; [|done]. intros Hnil.
    destruct (candidates self) as [|a l]; [done|].
    assert (Ha : a ∈ guess_pool self) by (apply Hsub; left).
    rewrite Hnil in Ha. by apply elem_of_nil in Ha. }
  destruct Hpool as [Hpne Hpwf].
  destruct (String.eqb _ _).
  - destruct (score_frequency_batch_total (_select_guess_pool self turn)
                (candidates self) (word_length self)) as (w & -> & _);
      [done..|]. by eexists.
  - destruct (_score_pool_total self (_select_guess_pool self turn) turn)
      as (w & -> & _); [done..| |by eexists].
    by eapply get_strategy_total.
Qed.
End best_guess_facts.
(** * The sign of the entropy score *)

Lemma py_sum_nonneg (cs : list Z) : Forall (λ c, 0 < c) cs → 0 ≤ py_sum cs.
Proof.
  induction 1 as [|c cs Hc _ IH]; [done|]. rewrite py_sum_cons. lia.
Qed.

Lemma py_sum_zero (cs : list Z) :
  Forall (λ c, 0 < c) cs → py_sum cs = 0 → cs = [].
Proof.
  destruct 1 as [|c cs Hc Hcs]; [done|]. rewrite py_sum_cons.
  pose proof (py_sum_nonneg cs Hcs). lia.
Qed.

Lemma counts_le_sum (counts : list Z) :
  Forall (λ c, 0 < c) counts →
  Forall (λ c, 1 ≤ c ≤ py_sum counts) counts.
Proof.
  induction 1 as [|c counts Hc Hcounts IH]; [constructor|].
  assert (0 ≤ py_sum counts).
  { clear IH. induction Hcounts as [|d ds Hd _ IHd];
      [done|rewrite py_sum_cons; lia]. }
  rewrite py_sum_cons. constructor; [lia|].
  eapply Forall_impl; [exact IH|]. simpl. lia.
Qed.

(** Positive counts that are not one count alone are each below their
    sum. *)
Lemma counts_lt_sum (counts : list Z) :
  Forall (λ c, 0 < c) counts →
  Forall (λ c, c = py_sum counts) counts
  ∨ Forall (λ c, 0 < c < py_sum counts) counts.
Proof.
  intros Hpos. destruct Hpos as [|c cs Hc Hcs]; [by left|].
  destruct cs as [|c' cs'].
  - left. by repeat constructor.
  - right. pose proof (counts_le_sum _ Hcs) as Hle.
    assert (0 < py_sum (c' :: cs')).
    { apply Forall_cons in Hcs as [Hc' Hcs'].
      rewrite py_sum_cons. pose proof (py_sum_nonneg _ Hcs'). lia. }
    rewrite py_sum_cons. constructor; [lia|].
    eapply Forall_impl; [exact Hle|]. simpl. lia.
Qed.

Section entropy_sign.
Context {F : Type} `{PyFloat F} `{!FloatOrder F} `{!FloatEntropy F}.

(** One bucket that holds every candidate: the loop subtracts
    [1.0 * log2(1.0)] from [0.0]. *)
Lemma entropy_loop_one (n : Z) :
  0 < n < 2 ^ 53 →
  for_each [n] (λ count entropy,
    p ← int_truediv count n;
    l ← math_log2 p;
    Ok (f_sub entropy (f_mul p l))) (f_lit 0)
  = Ok (f_lit 0).
Proof.
  intros Hn. cbn [for_each].
  rewrite int_truediv_nonzero by lia. cbn [mbind outcome_bind].
  rewrite math_log2_ratio by lia. cbn [mbind outcome_bind].
  by rewrite f_div_same, f_log2_one, f_mul_one_zero, f_sub_zero_zero.
Qed.

(** Buckets that each hold a part of the candidates: every step
    subtracts a negative term. *)
Lemma entropy_loop_pos (n : Z) (counts : list Z) (e : F) :
  n < 2 ^ 53 → Forall (λ c, 0 < c < n) counts →
  e = f_lit 0 ∨ f_gt e (f_lit 0) = true →
  ∃ e', for_each counts (λ count entropy,
          p ← int_truediv count n;
          l ← math_log2 p;
          Ok (f_sub entropy (f_mul p l))) e = Ok e'
      ∧ (counts = [] ∨ f_gt e' (f_lit 0) = true).
Proof.
  intros Hn Hcounts. revert e.
  induction Hcounts as [|c counts Hc _ IH]; intros e He; cbn [for_each].
  - exists e. split; [done|by left].
  - rewrite int_truediv_nonzero by lia. cbn [mbind outcome_bind].
    rewrite math_log2_ratio by lia. cbn [mbind outcome_bind].
    destruct (f_plogp_neg c n) as [Hneg Hfin]; [lia..|].
    cbv zeta in Hneg, Hfin.
    pose proof (f_sub_neg_pos e _ He Hneg Hfin) as Hpos.
    destruct (IH _ (or_intror Hpos)) as (e' & Hrun & Hcase).
    exists e'. split; [exact Hrun|]. right.
    destruct Hcase as [->|He']; [|done].
    cbn [for_each] in Hrun. by injection Hrun as <-.
Qed.
End entropy_sign.

(** ** Bucket counts and patterns *)

Lemma filter_length_all {A : Type} (P : A → Prop) `{∀ x, Decision (P x)}
    (l : list A) :
  length (filter P l) = length l → Forall P l.
Proof.
  induction l as [|x l IH]; [constructor|].
  rewrite filter_cons. pose proof (length_filter P l).
  destruct (decide (P x)); simpl; intros Hlen; [|lia].
  constructor; [done|]. apply IH. lia.
Qed.

Lemma filter_all {A : Type} (P : A → Prop) `{∀ x, Decision (P x)}
    (l : list A) :
  Forall P l → filter P l = l.
Proof.
  induction 1 as [|x l Hx _ IH]; [done|].
  rewrite filter_cons, decide_True by done. by rewrite IH.
Qed.

(** The count a bucket holds once the words of [S] are tallied into [d]. *)
Lemma tally_fold_get (guess : word) (L : Z) (S : list word)
    (d : list (Z * Z)) (j : Z) :
  all_scored guess L S →
  dict_get (fold_left (λ d s, tally d (pattern_of guess L s)) S d) j
  = match filter (λ s, compute_pattern guess s L = Ok j) S with
    | [] => dict_get d j
    | l => Some (default 0 (dict_get d j) + Z.of_nat (length l))
    end.
Proof.
  intros Hall. revert d.
  induction Hall as [|s S [p Hp] _ IH]; intros d; simpl fold_left; [done|].
  rewrite IH, (pattern_of_Ok _ _ _ _ Hp), filter_cons. unfold tally.
  rewrite dict_get_set. destruct (decide (p = j)) as [->|Hne].
  - rewrite decide_True by done. simpl default.
    destruct (filter _ S) as [|x l]; f_equal; simpl length; lia.
  - by rewrite decide_False by congruence.
Qed.

Lemma tally_fold_keys_NoDup (guess : word) (L : Z) (S : list word)
    (d : list (Z * Z)) :
  NoDup d.*1 →
  NoDup (fold_left (λ d s, tally d (pattern_of guess L s)) S d).*1.
Proof.
  revert d. induction S as [|s S IH]; intros d Hd; simpl fold_left; [done|].
  apply IH. by apply dict_set_keys_NoDup.
Qed.

(** Every count is the whole list exactly when all patterns agree. *)
Lemma tally_counts_uniform (guess : word) (L : Z) (S : list word) :
  all_scored guess L S →
  Forall (λ c, c = Z.of_nat (length S))
    (dict_values (fold_left (λ d s, tally d (pattern_of guess L s)) S []))
  ↔ same_pattern guess L S.
Proof.
  intros Hall.
  set (b := fold_left (λ d s, tally d (pattern_of guess L s)) S []).
  assert (Hget : ∀ j, dict_get b j
    = match filter (λ s, compute_pattern guess s L = Ok j) S with
      | [] => None
      | l => Some (Z.of_nat (length l))
      end).
  { intros j. unfold b. rewrite tally_fold_get by done. simpl.
    by destruct (filter _ S). }
  assert (Hnd : NoDup b.*1) by (apply tally_fold_keys_NoDup; constructor).
  unfold dict_values. split.
  - intros Hvals s1 s2 Hs1 Hs2.
    destruct (proj1 (Forall_forall _ _) Hall s1 Hs1) as [p Hp].
    assert (Hin : s1 ∈ filter (λ s, compute_pattern guess s L = Ok p) S)
      by by apply list_elem_of_filter.
    specialize (Hget p).
    destruct (filter (λ s, compute_pattern guess s L = Ok p) S)
      as [|x l] eqn:Hfilter; [by apply elem_of_nil in Hin|].
    apply dict_get_Some_elem in Hget.
    rewrite Forall_forall in Hvals.
    assert (Hlen : Z.of_nat (length (x :: l)) = Z.of_nat (length S)).
    { apply Hvals. apply list_elem_of_fmap. by eexists (_, _). }
    rewrite <- Hfilter in Hlen.
    assert (HP : Forall (λ s, compute_pattern guess s L = Ok p) S)
      by (apply (filter_length_all _ S); lia).
    rewrite Forall_forall in HP. by rewrite Hp, (HP s2 Hs2).
  - intros Hsame. apply Forall_forall. intros v Hv.
    apply list_elem_of_fmap in Hv as ([k v'] & -> & Hkv). simpl.
    apply (dict_elem_get _ _ _ Hnd) in Hkv. rewrite Hget in Hkv.
    destruct (filter (λ s, compute_pattern guess s L = Ok k) S)
      as [|x l] eqn:Hfilter; [done|].
    assert (Hx : x ∈ filter (λ s, compute_pattern guess s L = Ok k) S)
      by (rewrite Hfilter; left).
    apply list_elem_of_filter in Hx as [Hxk HxS].
    rewrite filter_all in Hfilter.
    + injection Hkv as <-. by rewrite Hfilter.
    + apply Forall_forall. intros s Hs. by rewrite (Hsame s x Hs HxS).
Qed.

(** [score_entropy] on well-formed words: [0.0] when all candidates
    show one pattern, a positive float when they do not. *)
Lemma score_entropy_cases {F : Type} `{PyFloat F} `{!FloatOrder F}
    `{!FloatEntropy F} (g : word) (S : list word) (L turn max_turns : Z) :
  wf_word L g → Forall (wf_word L) S → S ≠ [] →
  Z.of_nat (length S) < 2 ^ 53 →
  (same_pattern g L S ∧ score_entropy g S L turn max_turns = Ok (f_lit 0))
  ∨ (¬ same_pattern g L S
     ∧ ∃ x, score_entropy g S L turn max_turns = Ok x
          ∧ f_gt x (f_lit 0) = true).
Proof.
  intros Hg HS Hne Hbound. unfold score_entropy.
  assert (Hall : all_scored g L S) by by apply all_scored_wf.
  destruct (Z.leb_spec (Z.of_nat (length S)) 1) as [Hn|Hn].
  - destruct S as [|s [|s' S]]; [done| |simpl in Hn; lia].
    left. split; [|done]. intros s1 s2 Hs1 Hs2.
    apply list_elem_of_singleton in Hs1, Hs2. by subst.
  - rewrite bucket_sizes_fold by done. cbn [mbind outcome_bind].
    pose proof (tally_counts_uniform g L S Hall) as Huniform.
    set (b := fold_left (λ d s, tally d (pattern_of g L s)) S []) in *.
    assert (Hpos : Forall (λ c, 0 < c) (dict_values b)).
    { unfold dict_values. apply Forall_fmap.
      apply (tally_fold_pos g L S []). constructor. }
    assert (Hsum : py_sum (dict_values b) = Z.of_nat (length S)).
    { unfold b. by rewrite tally_fold_sum. }
    destruct (counts_lt_sum _ Hpos) as [Hone|Hparts]; rewrite Hsum in *.
    + left. split; [by apply Huniform|].
      destruct (dict_values b) as [|c cs] eqn:Hvals.
      { unfold py_sum in Hsum. simpl in Hsum. lia. }
      apply Forall_cons in Hone as [-> _].
      apply Forall_cons in Hpos as [_ Hcs].
      rewrite py_sum_cons in Hsum.
      rewrite (py_sum_zero cs) by (done || lia).
      apply entropy_loop_one. lia.
    + right. split.
      * intros Hsame. apply Huniform in Hsame.
        destruct (dict_values b) as [|c cs] eqn:Hvals.
        { unfold py_sum in Hsum. simpl in Hsum. lia. }
        apply Forall_cons in Hsame as [-> _].
        apply Forall_cons in Hparts as [? _]. lia.
      * destruct (entropy_loop_pos (Z.of_nat (length S)) (dict_values b)
                    (f_lit 0)) as (x & -> & [Hnil|Hx]);
          [done|done|by left| |by eauto].
        rewrite Hnil in Hsum. unfold py_sum in Hsum. simpl in Hsum. lia.
Qed.
(** * Exact arithmetic satisfies the laws *)

Lemma Q2R_zero : Q2R 0 = 0%R.
Proof. unfold Q2R. simpl. lra. Qed.

Lemma Q2R_one : Q2R 1 = 1%R.
Proof. unfold Q2R. simpl. lra. Qed.

Lemma xreal_gt_Fin (x y : R) : xreal_gt (Fin x) (Fin y) = true ↔ (x > y)%R.
Proof. simpl. destruct (Rgt_dec x y); split; (done || lra). Qed.

Lemma xreal_gt_Fin_false (x y : R) :
  xreal_gt (Fin x) (Fin y) = false ↔ (x <= y)%R.
Proof. simpl. destruct (Rgt_dec x y); split; (done || lra). Qed.

Lemma xreal_eqb_Fin (x y : R) : xreal_eqb (Fin x) (Fin y) = true ↔ x = y.
Proof. simpl. destruct (Req_dec_T x y); split; (done || lra). Qed.

#[global] Instance xreal_order : FloatOrder xreal.
Proof.
  split.
  - intros [|x]; [done|]. apply xreal_gt_Fin_false. lra.
  - intros [|x] [|y] [|z]; simpl; try done.
    destruct (Rgt_dec x y), (Rgt_dec y z), (Rgt_dec x z); (done || lra).
  - intros [|x] [|y] [|z]; simpl; try done.
    destruct (Req_dec_T x y), (Rgt_dec y z), (Rgt_dec x z); (done || lra).
  - intros [|x] [|y] [|z]; simpl; try done.
    destruct (Req_dec_T x y), (Rgt_dec z x), (Rgt_dec z y); (done || lra).
Qed.

Lemma log2_neg (p : R) : (0 < p < 1)%R → (log2 p < 0)%R.
Proof.
  intros [Hp0 Hp1]. unfold log2.
  assert (Hln : (ln p < 0)%R) by (rewrite <- ln_1; by apply ln_increasing).
  pose proof ln_lt_2 as H2.
  assert (Hinv : (0 < / ln 2)%R) by (apply Rinv_0_lt_compat; lra).
  unfold Rdiv. nra.
Qed.

Lemma ratio_proper (c n : Z) :
  0 < c → c < n → (0 < IZR c / IZR n < 1)%R.
Proof.
  intros Hc Hn.
  assert (Hc' : (0 < IZR c)%R) by (apply IZR_lt; lia).
  assert (Hn' : (IZR c < IZR n)%R) by (by apply IZR_lt).
  assert (Hinv : (0 < / IZR n)%R) by (apply Rinv_0_lt_compat; lra).
  assert (Hone : (IZR n * / IZR n = 1)%R) by (apply Rinv_r; lra).
  unfold Rdiv. split; nra.
Qed.

#[global] Instance xreal_entropy : FloatEntropy xreal.
Proof.
  split.
  - intros n Hn. simpl. rewrite Q2R_one. f_equal.
    apply Rinv_r. apply not_0_IZR. lia.
  - simpl. rewrite Q2R_one, Q2R_zero. f_equal. unfold log2.
    rewrite ln_1. unfold Rdiv. lra.
  - simpl. rewrite Q2R_one, Q2R_zero. f_equal. lra.
  - simpl. rewrite Q2R_zero. f_equal. lra.
  - intros c n Hc Hcn _. split; [|done].
    change (xreal_gt (Fin (Q2R 0))
              (Fin (IZR c / IZR n * log2 (IZR c / IZR n))) = true).
    apply xreal_gt_Fin. rewrite Q2R_zero.
    pose proof (ratio_proper c n Hc Hcn) as Hp.
    pose proof (log2_neg _ Hp). nra.
  - intros e t He Ht Hfin. destruct t as [|t]; [discriminate Hfin|].
    destruct e as [|e]; [by destruct He|].
    change (xreal_gt (Fin (e - t)) (Fin (Q2R 0)) = true).
    change (xreal_gt (Fin (Q2R 0)) (Fin t) = true) in Ht.
    apply xreal_gt_Fin in Ht. apply xreal_gt_Fin.
    rewrite Q2R_zero in *.
    destruct He as [[= ->]|He]; [lra|].
    change (xreal_gt (Fin e) (Fin (Q2R 0)) = true) in He.
    apply xreal_gt_Fin in He. rewrite Q2R_zero in He. lra.
Qed.

#[global] Instance xreal_quotient : FloatQuotient xreal.
Proof.
  split.
  - intros a b n Hn Ha Hab _ _.
    change (xreal_gt (Fin (- (IZR b / IZR n))) (Fin (- (IZR a / IZR n)))
            = false).
    apply xreal_gt_Fin_false.
    assert (Hinv : (0 < / IZR n)%R)
      by (apply Rinv_0_lt_compat, IZR_lt; lia).
    apply IZR_le in Hab. unfold Rdiv. nra.
  - intros n Hn. simpl. f_equal. unfold Rdiv.
    rewrite Rinv_r; [lra|]. apply not_0_IZR. lia.
  - intros n Hn. simpl. f_equal. rewrite mult_IZR, opp_IZR. field.
    apply not_0_IZR. lia.
  - intros c n Hn Hc Hlt.
    change (xreal_gt (Fin (- (IZR c / IZR n))) (Fin (IZR (- n))) = true).
    apply xreal_gt_Fin. rewrite opp_IZR.
    assert (Hn' : (0 < IZR n)%R) by (apply IZR_lt; lia).
    assert (Hinv : (0 < / IZR n)%R) by (by apply Rinv_0_lt_compat).
    assert (Hone : (IZR n * / IZR n = 1)%R) by (apply Rinv_r; lra).
    apply IZR_lt in Hlt. rewrite mult_IZR in Hlt. unfold Rdiv. nra.
Qed.

(** * The feedback codec: main results *)

(** C2. [compute_pattern] resolves duplicate letters by the consume-once
    rule: on the five duplicate-letter fixtures it returns the listed tiles,
    encoded in base 3 with the tile of position 0 as the most significant
    digit. *)
Theorem compute_pattern_duplicate_fixtures :
  yields "speed" "abide" [0; 0; 1; 0; 1]
  ∧ yields "llama" "world" [1; 0; 0; 0; 0]
  ∧ yields "abyss" "banal" [1; 1; 0; 0; 0]
  ∧ yields "proof" "afoot" [0; 0; 2; 2; 1]
  ∧ yields "eeeee" "geese" [0; 2; 2; 0; 2]
  ∧ ∀ t0 t1 t2 t3 t4 : Z,
      tiles_to_pattern [t0; t1; t2; t3; t4]
      = t0 * 3 ^ 4 + t1 * 3 ^ 3 + t2 * 3 ^ 2 + t3 * 3 + t4.
Proof.
  unfold yields.
  repeat split; try (vm_compute; reflexivity).
  intros. unfold tiles_to_pattern. simpl. lia.
Qed.

(** C3. On words of length [L] over lowercase letters,
    [compute_pattern_batch g S L] returns the list of the patterns
    [compute_pattern g s L] of the secrets [s] of [S], in the order of
    [S]. *)
Theorem compute_pattern_batch_elementwise (g : word) (S : list word) (L : Z) :
  wf_word L g → Forall (wf_word L) S →
  ∃ ps, compute_pattern_batch g S L = Ok ps
      ∧ mapM (λ s, compute_pattern g s L) S = Ok ps
      ∧ Forall2 (λ s p, compute_pattern g s L = Ok p) S ps.
Proof.
  intros Hg HS.
  destruct (mapM_all_scored g L S) as (ps & Hps & Hall);
    [by apply all_scored_wf|].
  exists ps. by rewrite compute_pattern_batch_mapM.
Qed.

Lemma compute_pattern_batch_elementwise_witness :
  ∃ ps, compute_pattern_batch (bytes_of_string "speed")
          [bytes_of_string "abide"; bytes_of_string "erase"] 5 = Ok ps
      ∧ mapM (λ s, compute_pattern (bytes_of_string "speed") s 5)
          [bytes_of_string "abide"; bytes_of_string "erase"] = Ok ps
      ∧ Forall2 (λ s p, compute_pattern (bytes_of_string "speed") s 5 = Ok p)
          [bytes_of_string "abide"; bytes_of_string "erase"] ps.
Proof. apply compute_pattern_batch_elementwise; solve_wf. Defined.

(** C4. On words of length [L] over lowercase letters, a secret of [S]
    survives the filter by its own pattern against [g]; and for every
    pattern, [filter_candidates] returns exactly the members of [S] whose
    pattern against [g] is that pattern, in their original order. *)
Theorem filter_candidates_keeps_secret (g : word) (S : list word)
    (secret : word) (L : Z) :
  wf_word L g → Forall (wf_word L) S → secret ∈ S →
  ∃ p, compute_pattern g secret L = Ok p
     ∧ (∃ kept, filter_candidates S g p L = Ok kept ∧ secret ∈ kept)
     ∧ ∀ pattern,
         filter_candidates S g pattern L
         = Ok (filter (λ s, compute_pattern g s L = Ok pattern) S).
Proof.
  intros Hg HS Hin.
  assert (Hall : all_scored g L S) by by apply all_scored_wf.
  destruct (compute_pattern_total L g secret) as [p Hp]; [done| |].
  { rewrite Forall_forall in HS. by apply HS. }
  exists p. split; [done|]. split.
  - eexists. split; [by apply filter_candidates_filter|].
    by apply list_elem_of_filter.
  - intros pattern. by apply filter_candidates_filter.
Qed.

Lemma filter_candidates_keeps_secret_witness :
  ∃ p, compute_pattern (bytes_of_string "crane") (bytes_of_string "crate") 5 = Ok p
     ∧ (∃ kept,
          filter_candidates
            [bytes_of_string "slate"; bytes_of_string "crate"]
            (bytes_of_string "crane") p 5 = Ok kept
          ∧ bytes_of_string "crate" ∈ kept)
     ∧ ∀ pattern,
         filter_candidates
           [bytes_of_string "slate"; bytes_of_string "crate"]
           (bytes_of_string "crane") pattern 5
         = Ok (filter (λ s, compute_pattern (bytes_of_string "crane") s 5
                             = Ok pattern)
                 [bytes_of_string "slate"; bytes_of_string "crate"]).
Proof.
  apply filter_candidates_keeps_secret; [solve_wf..|].
  right. left.
Defined.

(** C5. On words of length [L], the values of [bucket_sizes g S L] sum to
    the number of elements of [S]. *)
Theorem bucket_sizes_sum (g : word) (S : list word) (L : Z) :
  wf_word L g → Forall (wf_word L) S →
  ∃ buckets, bucket_sizes g S L = Ok buckets
           ∧ py_sum (dict_values buckets) = Z.of_nat (length S).
Proof.
  intros Hg HS. eexists. split.
  - apply bucket_sizes_fold. by apply all_scored_wf.
  - by rewrite tally_fold_sum.
Qed.

Lemma bucket_sizes_sum_witness :
  ∃ buckets,
    bucket_sizes (bytes_of_string "crane")
      [bytes_of_string "slate"; bytes_of_string "crate";
       bytes_of_string "trace"] 5 = Ok buckets
    ∧ py_sum (dict_values buckets) = 3.
Proof. apply (bucket_sizes_sum _ [_; _; _]); solve_wf. Defined.

(** C10. On words of length [L], [filter_candidates S g p L] is the bucket
    that [bucket_by_pattern g S L] stores under [p], and the empty list
    when [p] is not a key.  Hence the keys are distinct, every bucket is
    the non-empty sub-list of [S], in the order of [S], of the words with
    that pattern, and every member of [S] lies in exactly one bucket. *)
Theorem filter_candidates_is_bucket (g : word) (S : list word) (L : Z) :
  wf_word L g → Forall (wf_word L) S →
  ∃ buckets, bucket_by_pattern g S L = Ok buckets
    ∧ (∀ p, filter_candidates S g p L = Ok (default [] (dict_get buckets p)))
    ∧ NoDup buckets.*1
    ∧ (∀ p bucket, dict_get buckets p = Some bucket →
         bucket ≠ [] ∧ bucket = filter (λ s, compute_pattern g s L = Ok p) S)
    ∧ (∀ s, s ∈ S →
         ∃ p bucket, dict_get buckets p = Some bucket ∧ s ∈ bucket
           ∧ ∀ q bucket', dict_get buckets q = Some bucket' →
                          s ∈ bucket' → q = p).
Proof.
  intros Hg HS.
  assert (Hall : all_scored g L S) by by apply all_scored_wf.
  eexists. split; [by apply bucket_by_pattern_fold|].
  assert (Hget : ∀ p bucket,
    dict_get (fold_left (λ d s, collect d (pattern_of g L s) s) S []) p
      = Some bucket →
    bucket ≠ [] ∧ bucket = filter (λ s, compute_pattern g s L = Ok p) S).
  { intros p bucket. rewrite collect_fold_get by done. simpl.
    destruct (filter _ S) as [|x l]; [done|]. by intros [= <-]. }
  split; [|split; [|split]].
  - intros p. rewrite filter_candidates_filter, collect_fold_get by done.
    simpl. by destruct (filter _ S).
  - apply collect_fold_keys_NoDup. constructor.
  - exact Hget.
  - intros s Hs.
    destruct (proj1 (Forall_forall _ _) Hall s Hs) as [p Hp].
    assert (Hin : s ∈ filter (λ s, compute_pattern g s L = Ok p) S)
      by by apply list_elem_of_filter.
    exists p, (filter (λ s, compute_pattern g s L = Ok p) S).
    split; [|split; [done|]].
    + rewrite collect_fold_get by done. simpl.
      destruct (filter _ S) as [|x l]; [by apply elem_of_nil in Hin|done].
    + intros q bucket' Hq Hs'. apply Hget in Hq as [_ ->].
      apply list_elem_of_filter in Hs' as [Hs' _]. congruence.
Qed.

Lemma filter_candidates_is_bucket_witness :
  ∃ buckets,
    bucket_by_pattern (bytes_of_string "crane")
      [bytes_of_string "slate"; bytes_of_string "crate"] 5 = Ok buckets
    ∧ (∀ p, filter_candidates
              [bytes_of_string "slate"; bytes_of_string "crate"]
              (bytes_of_string "crane") p 5
            = Ok (default [] (dict_get buckets p)))
    ∧ NoDup buckets.*1
    ∧ (∀ p bucket, dict_get buckets p = Some bucket →
         bucket ≠ []
         ∧ bucket = filter (λ s, compute_pattern (bytes_of_string "crane") s 5
                                 = Ok p)
                      [bytes_of_string "slate"; bytes_of_string "crate"])
    ∧ (∀ s, s ∈ [bytes_of_string "slate"; bytes_of_string "crate"] →
         ∃ p bucket, dict_get buckets p = Some bucket ∧ s ∈ bucket
           ∧ ∀ q bucket', dict_get buckets q = Some bucket' →
                          s ∈ bucket' → q = p).
Proof. apply filter_candidates_is_bucket; solve_wf. Defined.

(** * The solver: main results *)

(** C1, as the specification states it: a Frequency solver that scores
    would always score the full guess pool.  The solver over three
    candidates and four permitted guesses scores its three candidates. *)
Lemma frequency_full_pool_refuted :
  ¬ (∀ (self : Solver xreal) (cache : Cache) (turn : Z),
       strategy_name self = "frequency"%string →
       (2 < length (candidates self))%nat →
       memoized_first_guess cache self turn = None →
       _select_guess_pool self turn = guess_pool self).
Proof.
  intros Hclaim.
  specialize (Hclaim (demo_solver "frequency" score_frequency false) ∅ 1).
  discriminate Hclaim; [reflexivity|simpl; lia|reflexivity].
Qed.

(** C1, amended.  For every solver configured with the Frequency
    strategy, whenever [best_guess] performs scoring (more than two
    candidates, no memoized first guess), the pool it scores is the
    candidate list, whatever its size: the call returns what the batch
    scorer returns on the candidates. *)
Theorem frequency_scores_candidates {F : Type} `{PyFloat F}
    (self : Solver F) (cache : Cache) (turn : Z) :
  strategy_name self = "frequency"%string →
  (2 < length (candidates self))%nat →
  memoized_first_guess cache self turn = None →
  _select_guess_pool self turn = candidates self
  ∧ (best_guess cache self turn).1
    = score_frequency_batch (candidates self) (candidates self)
                            (word_length self).
Proof.
  intros Hname Hn Hmemo.
  assert (Hpool : _select_guess_pool self turn = candidates self).
  { apply _select_guess_pool_other. rewrite Hname.
    intros Hin. by repeat (apply elem_of_cons in Hin as [?|Hin]; [done|]);
      apply elem_of_nil in Hin. }
  split; [done|].
  rewrite best_guess_scores by done. by rewrite Hname, Hpool.
Qed.

Lemma frequency_scores_candidates_witness :
  _select_guess_pool (demo_solver "frequency" score_frequency false) 1
  = [crane; crate; slate]
  ∧ (best_guess ∅ (demo_solver "frequency" score_frequency false) 1).1
    = score_frequency_batch [crane; crate; slate] [crane; crate; slate] 5.
Proof.
  apply (frequency_scores_candidates
           (demo_solver "frequency" score_frequency false) ∅ 1).
  - reflexivity.
  - simpl. lia.
  - reflexivity.
Defined.

(** C7.  For a solver over well-formed words whose guess pool contains
    its candidates, [best_guess] raises the inconsistent-state error
    exactly when the candidate list is empty, and otherwise returns a
    word. *)
Theorem best_guess_inconsistent_iff_empty {F : Type} `{PyFloat F}
    (self : Solver F) (cache : Cache) (turn : Z) :
  Forall (wf_word (word_length self)) (candidates self) →
  Forall (wf_word (word_length self)) (guess_pool self) →
  candidates self ⊆ guess_pool self →
  strategy_registered self →
  ((best_guess cache self turn).1 = Raise inconsistent_state
   ↔ candidates self = [])
  ∧ (candidates self = [] ∨ ∃ w, (best_guess cache self turn).1 = Ok w).
Proof.
  intros Hc Hp Hsub Hreg.
  destruct (candidates self) as [|a [|b [|c rest]]] eqn:Hcands.
  - unfold best_guess. rewrite Hcands. simpl. split; [done|by left].
  - unfold best_guess. rewrite Hcands. simpl. split; [done|right; by exists a].
  - unfold best_guess. rewrite Hcands. simpl. split; [done|right; by exists a].
  - destruct (best_guess_returns self cache turn) as [w Hw];
      [rewrite Hcands; simpl; lia|by rewrite Hcands|done
      |by rewrite Hcands|done|].
    rewrite Hw. split; [done|right; by exists w].
Qed.

Lemma best_guess_inconsistent_iff_empty_witness :
  ((best_guess ∅ (demo_solver "entropy" score_entropy false) 1).1
     = Raise inconsistent_state
   ↔ [crane; crate; slate] = [])
  ∧ ([crane; crate; slate] = []
     ∨ ∃ w, (best_guess ∅ (demo_solver "entropy" score_entropy false) 1).1
            = Ok w).
Proof.
  apply (best_guess_inconsistent_iff_empty
           (demo_solver "entropy" score_entropy false) ∅ 1).
  - solve_wf.
  - solve_wf.
  - solve_wf.
  - reflexivity.
Defined.

(** C8.  For a solver constructed in hard mode and any sequence of
    [update] calls, the solver is still in hard mode and one more
    [update] leaves a guess pool that is no longer than before it. *)
Theorem hard_mode_guess_pool_never_grows {F : Type} `{PyFloat F}
    (self : Solver F) (turns : list (word * Z)) (g : word) (p : Z) :
  hard_mode self = true →
  hard_mode (run_updates self turns) = true
  ∧ (length (guess_pool (update (run_updates self turns) g p).1)
     ≤ length (guess_pool (run_updates self turns)))%nat.
Proof.
  intros Hhard. split.
  - by rewrite run_updates_hard_mode.
  - apply update_guess_pool_length.
Qed.

Lemma hard_mode_guess_pool_never_grows_witness :
  hard_mode (run_updates (demo_solver "entropy" score_entropy true)
                         [(trace, 0%Z)]) = true
  ∧ (length (guess_pool
       (update (run_updates (demo_solver "entropy" score_entropy true)
                            [(trace, 0%Z)]) crane 236%Z).1)
     ≤ length (guess_pool
         (run_updates (demo_solver "entropy" score_entropy true)
                      [(trace, 0%Z)])))%nat.
Proof.
  apply (hard_mode_guess_pool_never_grows
           (demo_solver "entropy" score_entropy true)).
  reflexivity.
Defined.

(** C9.  For a solver constructed without hard mode, a call to [update]
    leaves the guess pool and the configuration as they were: it appends
    one entry to the history and, when it returns, replaces the candidate
    list by the filtered one. *)
Theorem update_soft_mode_frame {F : Type} `{PyFloat F}
    (self : Solver F) (g : word) (p : Z) :
  hard_mode self = false →
  guess_pool (update self g p).1 = guess_pool self
  ∧ history (update self g p).1 = history self ++ [(g, p)]
  ∧ (((update self g p).2 = Ok ()
      ∧ filter_candidates (candidates self) g p (word_length self)
        = Ok (candidates (update self g p).1))
     ∨ ((∃ e, (update self g p).2 = Raise e)
        ∧ candidates (update self g p).1 = candidates self))
  ∧ word_length (update self g p).1 = word_length self
  ∧ max_turns (update self g p).1 = max_turns self
  ∧ hard_mode (update self g p).1 = hard_mode self
  ∧ strategy_name (update self g p).1 = strategy_name self
  ∧ _strategy_fn (update self g p).1 = _strategy_fn self
  ∧ _initial_solutions (update self g p).1 = _initial_solutions self
  ∧ _initial_guesses (update self g p).1 = _initial_guesses self
  ∧ _solutions_hash (update self g p).1 = _solutions_hash self.
Proof.
  intros Hsoft. unfold update. simpl.
  destruct (filter_candidates (candidates self) g p (word_length self))
    as [cs|e] eqn:Hcs; simpl.
  - rewrite Hsoft. simpl. repeat split; try done. by left.
  - repeat split; try done. right. split; [by exists e|done].
Qed.

Lemma update_soft_mode_frame_witness :
  let self := demo_solver "entropy" score_entropy false in
  guess_pool (update self crane 236).1 = guess_pool self
  ∧ history (update self crane 236).1 = history self ++ [(crane, 236)]
  ∧ (((update self crane 236).2 = Ok ()
      ∧ filter_candidates (candidates self) crane 236 (word_length self)
        = Ok (candidates (update self crane 236).1))
     ∨ ((∃ e, (update self crane 236).2 = Raise e)
        ∧ candidates (update self crane 236).1 = candidates self))
  ∧ word_length (update self crane 236).1 = word_length self
  ∧ max_turns (update self crane 236).1 = max_turns self
  ∧ hard_mode (update self crane 236).1 = hard_mode self
  ∧ strategy_name (update self crane 236).1 = strategy_name self
  ∧ _strategy_fn (update self crane 236).1 = _strategy_fn self
  ∧ _initial_solutions (update self crane 236).1 = _initial_solutions self
  ∧ _initial_guesses (update self crane 236).1 = _initial_guesses self
  ∧ _solutions_hash (update self crane 236).1 = _solutions_hash self.
Proof.
  apply (update_soft_mode_frame
           (demo_solver "entropy" score_entropy false) crane 236).
  reflexivity.
Defined.

(** * The entropy scorer: main results *)

(** C6, as the specification states it: the entropy would vanish only
    for at most one candidate.  Against the guess [zzzzz] the two
    candidates [crane] and [slate] both show the all-grey pattern, one
    bucket of size two, and the score is [0.0].  The loop computes
    [2 / 2], [log2(1.0)], [1.0 * 0.0] and [0.0 - 0.0], which no rounding
    touches: the score is [f_lit 0] in every interface with the laws of
    [FloatEntropy], shown here in the exact one. *)
Lemma entropy_zero_with_two_candidates :
  score_entropy (F := xreal) zzzzz [crane; slate] 5 1 6 = Ok (f_lit 0)
  ∧ ¬ (length [crane; slate] ≤ 1)%nat.
Proof.
  split; [|simpl; lia].
  destruct (score_entropy_cases (F := xreal) zzzzz [crane; slate] 5 1 6)
    as [[_ Hzero]|[Hno _]]; [solve_wf..|done|simpl; lia|done|].
  exfalso. apply Hno. intros s1 s2 Hs1 Hs2.
  repeat (apply elem_of_cons in Hs1 as [->|Hs1]);
    repeat (apply elem_of_cons in Hs2 as [->|Hs2]);
    try (by apply elem_of_nil in Hs1); try (by apply elem_of_nil in Hs2);
    vm_compute; reflexivity.
Qed.

(** C6, amended.  For a well-formed guess and a non-empty list of fewer
    than [2 ** 53] well-formed candidates, in every float interface with
    the laws of [FloatOrder] and [FloatEntropy], IEEE doubles among
    them: the entropy score is [0.0] or a positive float; it is [0.0]
    exactly when every candidate shows the same pattern against the
    guess, which includes every list of at most one candidate, and
    positive exactly when two candidates show different patterns.  No
    upper bound is stated: the loop sums rounded terms. *)
Theorem entropy_score_sign {F : Type} `{PyFloat F} `{!FloatOrder F}
    `{!FloatEntropy F} (g : word) (S : list word) (L turn max_turns : Z) :
  wf_word L g → Forall (wf_word L) S → S ≠ [] →
  Z.of_nat (length S) < 2 ^ 53 →
  ∃ x : F,
    score_entropy g S L turn max_turns = Ok x
    ∧ (x = f_lit 0 ∨ f_gt x (f_lit 0) = true)
    ∧ (x = f_lit 0 ↔ same_pattern g L S)
    ∧ (f_gt x (f_lit 0) = true ↔ ¬ same_pattern g L S)
    ∧ ((1 < length S)%nat ∨ x = f_lit 0).
Proof.
  intros Hg HS Hne Hbound.
  destruct (score_entropy_cases g S L turn max_turns Hg HS Hne Hbound)
    as [[Hsame Hzero]|(Hno & x & Hx & Hpos)].
  - exists (f_lit 0). split; [done|]. split; [by left|].
    split; [done|]. split.
    + split; [|done]. intros Hgt. by rewrite f_gt_irrefl in Hgt.
    + by right.
  - exists x. split; [done|]. split; [by right|].
    split; [|split; [done|]].
    + split; [|done]. intros ->. by rewrite f_gt_irrefl in Hpos.
    + left. destruct S as [|s [|s' S']]; [done| |simpl; lia].
      exfalso. apply Hno. intros s1 s2 Hs1 Hs2.
      apply list_elem_of_singleton in Hs1, Hs2. by subst.
Qed.

Lemma entropy_score_sign_witness :
  ∃ x : xreal,
    score_entropy crane [crate; slate; trace] 5 1 6 = Ok x
    ∧ (x = f_lit 0 ∨ f_gt x (f_lit 0) = true)
    ∧ (x = f_lit 0 ↔ same_pattern crane 5 [crate; slate; trace])
    ∧ (f_gt x (f_lit 0) = true ↔ ¬ same_pattern crane 5 [crate; slate; trace])
    ∧ ((1 < length [crate; slate; trace])%nat ∨ x = f_lit 0).
Proof.
  apply (entropy_score_sign (F := xreal)); [solve_wf..|done|simpl; lia].
Defined.

(** * Pattern encoding and decoding *)

Lemma tiles_to_pattern_snoc (tiles : list Z) (t : Z) :
  tiles_to_pattern (tiles ++ [t]) = tiles_to_pattern tiles * 3 + t.
Proof. unfold tiles_to_pattern. by rewrite fold_left_app. Qed.

Lemma encode_tiles_to_pattern (result : list Z) :
  encode result = tiles_to_pattern result.
Proof. reflexivity. Qed.

Lemma pattern_to_tiles_loop {A : Type} (xs : list A) (acc : list Z) (p : Z) :
  fold_left (λ '(tiles, pattern) _, (tiles ++ [pattern mod 3], pattern / 3))
            xs (acc, p)
  = (acc ++ digits_lsb (length xs) p, p / 3 ^ Z.of_nat (length xs)).
Proof.
  revert acc p. induction xs as [|x xs IH]; intros acc p.
  - simpl. by rewrite app_nil_r, Z.div_1_r.
  - cbn [fold_left length digits_lsb]. rewrite IH, <- app_assoc. f_equal.
    rewrite Nat2Z.inj_succ, Z.pow_succ_r by lia.
    rewrite Z.div_div by lia. done.
Qed.

Lemma pattern_to_tiles_digits (p L : Z) :
  pattern_to_tiles p L = rev (digits_lsb (Z.to_nat L) p).
Proof.
  unfold pattern_to_tiles. rewrite pattern_to_tiles_loop. simpl.
  unfold range. by rewrite length_fmap, length_seq.
Qed.

Lemma digits_lsb_length (n : nat) (p : Z) : length (digits_lsb n p) = n.
Proof. revert p. induction n as [|n IH]; intros p; simpl; [done|]. by rewrite IH. Qed.

Lemma digits_lsb_tiles (n : nat) (p : Z) : Forall is_tile (digits_lsb n p).
Proof.
  revert p. induction n as [|n IH]; intros p; simpl; constructor; [|done].
  unfold is_tile. pose proof (Z.mod_pos_bound p 3). lia.
Qed.

Lemma tiles_to_pattern_digits (n : nat) (p : Z) :
  tiles_to_pattern (rev (digits_lsb n p)) = p mod 3 ^ Z.of_nat n.
Proof.
  revert p. induction n as [|n IH]; intros p.
  - simpl. by rewrite Z.mod_1_r.
  - cbn [digits_lsb rev]. change (rev ?l ++ [?x]) with (rev l ++ [x]).
    rewrite tiles_to_pattern_snoc, IH.
    rewrite Nat2Z.inj_succ, Z.pow_succ_r by lia.
    rewrite (Z.rem_mul_r p 3 (3 ^ Z.of_nat n)) by lia. lia.
Qed.

Lemma tiles_to_pattern_bounds (tiles : list Z) :
  Forall is_tile tiles →
  0 ≤ tiles_to_pattern tiles < 3 ^ Z.of_nat (length tiles).
Proof.
  induction tiles as [|t tiles IH] using rev_ind; intros Htiles.
  - unfold tiles_to_pattern. simpl. lia.
  - apply Forall_app in Htiles as [Htiles Ht].
    rewrite Forall_singleton in Ht. unfold is_tile in Ht.
    rewrite tiles_to_pattern_snoc, length_app. cbn [length].
    replace (Z.of_nat (length tiles + 1)) with (Z.succ (Z.of_nat (length tiles)))
      by lia.
    rewrite Z.pow_succ_r by lia. specialize (IH Htiles). lia.
Qed.

Lemma digits_lsb_tiles_to_pattern (tiles : list Z) :
  Forall is_tile tiles →
  digits_lsb (length tiles) (tiles_to_pattern tiles) = rev tiles.
Proof.
  induction tiles as [|t tiles IH] using rev_ind; intros Htiles; [done|].
  apply Forall_app in Htiles as [Htiles Ht].
  rewrite Forall_singleton in Ht. unfold is_tile in Ht.
  rewrite tiles_to_pattern_snoc, length_app, rev_app_distr.
  cbn [length rev app]. rewrite Nat.add_1_r. cbn [digits_lsb].
  replace ((tiles_to_pattern tiles * 3 + t) mod 3) with t.
  2:{ rewrite Z.add_comm, Z.mod_add by lia. by rewrite Z.mod_small by lia. }
  replace ((tiles_to_pattern tiles * 3 + t) / 3) with (tiles_to_pattern tiles).
  2:{ rewrite Z.add_comm, Z.div_add by lia. rewrite Z.div_small by lia. lia. }
  by rewrite IH.
Qed.

(** X1.  Decoding an encoded tile list gives the tiles back. *)
Theorem pattern_to_tiles_tiles_to_pattern (tiles : list Z) :
  Forall is_tile tiles →
  pattern_to_tiles (tiles_to_pattern tiles) (Z.of_nat (length tiles)) = tiles.
Proof.
  intros Htiles. rewrite pattern_to_tiles_digits, Nat2Z.id.
  rewrite digits_lsb_tiles_to_pattern by done. apply rev_involutive.
Qed.

Lemma pattern_to_tiles_tiles_to_pattern_witness :
  pattern_to_tiles (tiles_to_pattern [0; 2; 2; 0; 1])
                   (Z.of_nat (length [0; 2; 2; 0; 1])) = [0; 2; 2; 0; 1].
Proof.
  apply pattern_to_tiles_tiles_to_pattern.
  repeat constructor; unfold is_tile; lia.
Defined.

(** X2.  For any integer pattern and any [word_length ≥ 0],
    [pattern_to_tiles] returns [word_length] tiles, each 0, 1 or 2, and
    re-encoding them gives the pattern modulo [3 ^ word_length]: the
    pattern itself when it lies in [0, 3 ^ word_length). *)
Theorem tiles_to_pattern_pattern_to_tiles (p L : Z) :
  0 ≤ L →
  Z.of_nat (length (pattern_to_tiles p L)) = L
  ∧ Forall is_tile (pattern_to_tiles p L)
  ∧ tiles_to_pattern (pattern_to_tiles p L) = p mod 3 ^ L
  ∧ (p mod 3 ^ L = p ↔ 0 ≤ p < 3 ^ L).
Proof.
  intros HL. rewrite pattern_to_tiles_digits.
  rewrite length_rev, digits_lsb_length, tiles_to_pattern_digits.
  rewrite Z2Nat.id by done.
  split; [done|]. split; [|split; [done|]].
  - apply Forall_rev, digits_lsb_tiles.
  - assert (0 < 3 ^ L) by (apply Z.pow_pos_nonneg; lia).
    split.
    + intros <-. by apply Z.mod_pos_bound.
    + intros Hp. by apply Z.mod_small.
Qed.

Lemma tiles_to_pattern_pattern_to_tiles_witness :
  Z.of_nat (length (pattern_to_tiles 236 5)) = 5
  ∧ Forall is_tile (pattern_to_tiles 236 5)
  ∧ tiles_to_pattern (pattern_to_tiles 236 5) = 236 mod 3 ^ 5
  ∧ (236 mod 3 ^ 5 = 236 ↔ 0 ≤ 236 < 3 ^ 5).
Proof. apply tiles_to_pattern_pattern_to_tiles. lia. Defined.

(** * What the feedback computation returns *)

Lemma py_index_Ok (len : nat) (i : Z) (k : nat) :
  py_index len i = Ok k → (k < len)%nat.
Proof.
  unfold py_index.
  destruct (Z.leb_spec 0 i), (Z.ltb_spec i (Z.of_nat len)); simpl;
    try (intros [= <-]; lia);
    destruct (Z.leb_spec (- Z.of_nat len) i), (Z.ltb_spec i 0); simpl;
    try done; intros [= <-]; lia.
Qed.

Lemma getitem_Ok {A : Type} (l : list A) (i : Z) (x : A) :
  getitem l i = Ok x → ∃ k, py_index (length l) i = Ok k ∧ l !! k = Some x.
Proof.
  unfold getitem. destruct (py_index (length l) i) as [k|]; simpl; [|done].
  destruct (l !! k) as [y|] eqn:Hy; [|done]. intros [= <-]. eauto.
Qed.

Lemma setitem_Ok {A : Type} (l l' : list A) (i : Z) (x : A) :
  setitem l i x = Ok l' →
  ∃ k, py_index (length l) i = Ok k ∧ l' = <[k := x]> l.
Proof.
  unfold setitem. destruct (py_index (length l) i) as [k|]; simpl; [|done].
  intros [= <-]. eauto.
Qed.

Lemma getitem_nat {A : Type} (l : list A) (k : nat) (x : A) :
  l !! k = Some x → getitem l (Z.of_nat k) = Ok x.
Proof.
  intros Hk. pose proof (lookup_lt_Some _ _ _ Hk).
  unfold getitem. rewrite py_index_in_range by lia. simpl.
  by rewrite Nat2Z.id, Hk.
Qed.

Lemma setitem_nat {A : Type} (l : list A) (k : nat) (x : A) :
  (k < length l)%nat → setitem l (Z.of_nat k) x = Ok (<[k := x]> l).
Proof. intros Hk. rewrite setitem_in_range by lia. by rewrite Nat2Z.id. Qed.

(** An invariant of the state holds after a loop that returned. *)
Lemma for_each_ok_inv {S A : Type} (P : S → Prop) (body : A → S → outcome S)
    (xs : list A) (s s' : S) :
  (∀ x s s', x ∈ xs → P s → body x s = Ok s' → P s') →
  P s → for_each xs body s = Ok s' → P s'.
Proof.
  intros Hstep. revert s. induction xs as [|x xs IH]; intros s Hs; simpl.
  - by intros [= <-].
  - destruct (body x s) as [s1|] eqn:Hb; simpl; [|done].
    apply IH.
    + intros y t t' Hy. apply Hstep. by right.
    + eapply Hstep; [left|done..].
Qed.

(** The green pass, from position [k] on. *)
Lemma mark_greens_from (a : Z) (guess secret : word) (m k : nat)
    (result counts r' c' : list Z) :
  length guess = (k + m)%nat → length secret = (k + m)%nat →
  length result = (k + m)%nat → drop k result = replicate m 0 →
  for_each (Z.of_nat <$> seq k m) (λ i '(result, counts),
    g ← getitem guess i;
    s ← getitem secret i;
    if g =? s then
      result ← setitem result i 2;
      v ← getitem counts (g - a);
      counts ← setitem counts (g - a) (v - 1);
      Ok (result, counts)
    else Ok (result, counts)) (result, counts) = Ok (r', c') →
  r' = take k result ++ green_tiles (drop k guess) (drop k secret).
Proof.
  revert k result counts.
  induction m as [|m IH]; intros k result counts Hg Hs Hr Hzero.
  - simpl. intros [= <- <-].
    rewrite take_ge, !drop_ge by lia. by rewrite app_nil_r.
  - cbn [seq fmap list_fmap for_each].
    destruct (lookup_lt_is_Some_2 guess k) as [gk Hgk]; [lia|].
    destruct (lookup_lt_is_Some_2 secret k) as [sk Hsk]; [lia|].
    rewrite (getitem_nat _ _ _ Hgk), (getitem_nat _ _ _ Hsk).
    cbn [mbind outcome_bind].
    rewrite (drop_S _ _ _ Hgk), (drop_S _ _ _ Hsk).
    unfold green_tiles at 1. cbn [zip_with]. fold (green_tiles).
    assert (Hrk : result !! k = Some 0).
    { rewrite <- (Nat.add_0_r k), <- lookup_drop, Hzero. done. }
    assert (Hzero' : drop (S k) result = replicate m 0).
    { rewrite (drop_S _ _ _ Hrk) in Hzero. by injection Hzero. }
    destruct (gk =? sk).
    + rewrite setitem_nat by lia. cbn [mbind outcome_bind].
      destruct (getitem counts (gk - a)) as [v|]; [|done].
      cbn [mbind outcome_bind].
      destruct (setitem counts (gk - a) (v - 1)) as [counts1|]; [|done].
      cbn [mbind outcome_bind]. intros Hrun.
      apply IH in Hrun; [|lia..|rewrite length_insert; lia|].
      * rewrite Hrun. rewrite (take_S_r _ _ 2).
        -- rewrite take_insert_ge by lia. by rewrite <- app_assoc.
        -- apply list_lookup_insert_eq. lia.
      * by rewrite drop_insert_lt by lia.
    + cbn [mbind outcome_bind]. intros Hrun.
      apply IH in Hrun; [|lia..|done].
      rewrite Hrun, (take_S_r _ _ _ Hrk). by rewrite <- app_assoc.
Qed.

Lemma mark_greens_tiles (guess secret : word) (L : Z) (counts r' c' : list Z) :
  Z.of_nat (length guess) = L → Z.of_nat (length secret) = L →
  mark_greens _ORD_A guess secret L (list_mul 0 L, counts) = Ok (r', c') →
  r' = green_tiles guess secret.
Proof.
  intros Hg Hs Hrun. unfold mark_greens, range, list_mul in Hrun.
  apply (mark_greens_from _ _ _ (Z.to_nat L) 0) in Hrun;
    [done|simpl; lia..|rewrite length_replicate; lia|done].
Qed.

(** The yellow pass keeps the length, the tile values and the greens. *)
Lemma mark_yellows_tiles (guess : word) (L : Z) (r counts r' c' : list Z) :
  Forall is_tile r →
  mark_yellows _ORD_A guess L (r, counts) = Ok (r', c') →
  length r' = length r ∧ Forall is_tile r'
  ∧ ∀ j, r' !! j = Some 2 ↔ r !! j = Some 2.
Proof.
  intros Hr Hrun. unfold mark_yellows in Hrun.
  apply (for_each_ok_inv
    (λ st : list Z * list Z,
       length st.1 = length r ∧ Forall is_tile st.1
       ∧ ∀ j, st.1 !! j = Some 2 ↔ r !! j = Some 2)) in Hrun; [done| |done].
  clear Hrun. intros i [r1 c1] [r2 c2] _ (Hlen & Htiles & Hgreen) Hbody.
  simpl in *.
  destruct (getitem r1 i) as [t|] eqn:Ht; simpl in Hbody; [|done].
  destruct (Z.eqb_spec t 0) as [->|_]; [|by injection Hbody as <- <-].
  destruct (getitem guess i) as [g|]; simpl in Hbody; [|done].
  destruct (getitem c1 (g - _ORD_A)) as [v|]; simpl in Hbody; [|done].
  destruct (0 <? v); [|by injection Hbody as <- <-].
  destruct (setitem r1 i 1) as [r1'|] eqn:Hset; simpl in Hbody; [|done].
  destruct (setitem c1 (g - _ORD_A) (v - 1)); simpl in Hbody; [|done].
  injection Hbody as <- <-.
  apply getitem_Ok in Ht as (k & Hk & Hlk).
  apply setitem_Ok in Hset as (k' & Hk' & ->).
  assert (k' = k) by congruence. subst k'.
  split; [by rewrite length_insert|]. split.
  - apply Forall_insert; [done|]. unfold is_tile. lia.
  - intros j. rewrite <- Hgreen. destruct (decide (j = k)) as [->|Hne].
    + rewrite list_lookup_insert_eq by by eapply lookup_lt_Some.
      rewrite Hlk. split; intros [=].
    + by rewrite list_lookup_insert_ne.
Qed.

Lemma green_tiles_facts (guess secret : word) :
  length guess = length secret →
  length (green_tiles guess secret) = length guess
  ∧ Forall is_tile (green_tiles guess secret)
  ∧ ∀ j, green_tiles guess secret !! j = Some 2
         ↔ ∃ c, guess !! j = Some c ∧ secret !! j = Some c.
Proof.
  unfold green_tiles. intros Hlen. split; [|split].
  - rewrite length_zip_with. lia.
  - apply Forall_forall. intros t Ht.
    apply list_elem_of_lookup in Ht as [j Hj].
    apply lookup_zip_with_Some in Hj as (a & b & -> & _ & _).
    unfold is_tile. destruct (a =? b); lia.
  - intros j. rewrite lookup_zip_with_Some. split.
    + intros (a & b & Hab & Ha & Hb).
      destruct (Z.eqb_spec a b) as [->|]; [eauto|done].
    + intros (c & Hg & Hs). exists c, c. by rewrite Z.eqb_refl.
Qed.

(** The tiles behind a returned pattern, for words of the configured
    length. *)
Lemma compute_pattern_tiles (guess secret : word) (L p : Z) :
  Z.of_nat (length guess) = L → Z.of_nat (length secret) = L →
  compute_pattern guess secret L = Ok p →
  ∃ result, p = tiles_to_pattern result
    ∧ Z.of_nat (length result) = L
    ∧ Forall is_tile result
    ∧ ∀ j, result !! j = Some 2
           ↔ ∃ c, guess !! j = Some c ∧ secret !! j = Some c.
Proof.
  intros Hg Hs. unfold compute_pattern.
  destruct (count_letters _ORD_A secret L (list_mul 0 26)) as [cs|];
    simpl; [|done].
  destruct (mark_greens _ORD_A guess secret L (list_mul 0 L, cs))
    as [[r1 c1]|] eqn:Hgreens; simpl; [|done].
  destruct (mark_yellows _ORD_A guess L (r1, c1)) as [[r2 c2]|] eqn:Hyellows;
    simpl; [|done].
  intros [= <-].
  apply mark_greens_tiles in Hgreens; [|done..]. subst r1.
  destruct (green_tiles_facts guess secret) as (Hlen & Htiles & Hgreen);
    [lia|].
  apply mark_yellows_tiles in Hyellows as (Hlen' & Htiles' & Hgreen');
    [|done].
  exists r2. split; [done|]. split; [lia|]. split; [done|].
  intros j. by rewrite Hgreen'.
Qed.

Lemma tiles_to_pattern_all_green (n : nat) :
  tiles_to_pattern (replicate n 2) = 3 ^ Z.of_nat n - 1.
Proof.
  induction n as [|n IH]; [done|].
  rewrite replicate_S_end, tiles_to_pattern_snoc, IH.
  rewrite Nat2Z.inj_succ, Z.pow_succ_r by lia. lia.
Qed.

Lemma tiles_to_pattern_max (tiles : list Z) :
  Forall is_tile tiles →
  tiles_to_pattern tiles = 3 ^ Z.of_nat (length tiles) - 1 →
  tiles = replicate (length tiles) 2.
Proof.
  induction tiles as [|t tiles IH] using rev_ind; intros Htiles; [done|].
  apply Forall_app in Htiles as [Htiles Ht].
  rewrite Forall_singleton in Ht. unfold is_tile in Ht.
  rewrite tiles_to_pattern_snoc, length_app. cbn [length].
  rewrite Nat.add_1_r, Nat2Z.inj_succ, Z.pow_succ_r by lia.
  pose proof (tiles_to_pattern_bounds tiles Htiles) as Hb.
  intros Heq.
  assert (t = 2) as -> by lia.
  rewrite replicate_S_end. f_equal. apply IH; [done|lia].
Qed.

(** The green pass keeps the length and the tile values, whatever the
    words. *)
Lemma mark_greens_keeps_tiles (guess secret : word) (L : Z)
    (r counts r' c' : list Z) :
  Forall is_tile r →
  mark_greens _ORD_A guess secret L (r, counts) = Ok (r', c') →
  length r' = length r ∧ Forall is_tile r'.
Proof.
  intros Hr Hrun. unfold mark_greens in Hrun.
  apply (for_each_ok_inv
    (λ st : list Z * list Z, length st.1 = length r ∧ Forall is_tile st.1))
    in Hrun; [done| |done].
  clear Hrun. intros i [r1 c1] [r2 c2] _ [Hlen Htiles] Hbody. simpl in *.
  destruct (getitem guess i) as [g|]; simpl in Hbody; [|done].
  destruct (getitem secret i) as [s|]; simpl in Hbody; [|done].
  destruct (g =? s); [|by injection Hbody as <- <-].
  destruct (setitem r1 i 2) as [r1'|] eqn:Hset; simpl in Hbody; [|done].
  destruct (getitem c1 (g - _ORD_A)) as [v|]; simpl in Hbody; [|done].
  destruct (setitem c1 (g - _ORD_A) (v - 1)); simpl in Hbody; [|done].
  injection Hbody as <- <-.
  apply setitem_Ok in Hset as (k & Hk & ->).
  split; [by rewrite length_insert|].
  apply Forall_insert; [done|]. unfold is_tile. lia.
Qed.

(** X3.  Whatever the words, a pattern that [compute_pattern] returns
    for a [word_length ≥ 0] lies between 0 and the all-green pattern, and
    decoding then encoding it gives it back. *)
Theorem compute_pattern_range (guess secret : word) (L p : Z) :
  0 ≤ L → compute_pattern guess secret L = Ok p →
  0 ≤ p ≤ all_green_pattern L
  ∧ tiles_to_pattern (pattern_to_tiles p L) = p.
Proof.
  intros HL. unfold compute_pattern.
  destruct (count_letters _ORD_A secret L (list_mul 0 26)) as [cs|];
    simpl; [|done].
  destruct (mark_greens _ORD_A guess secret L (list_mul 0 L, cs))
    as [[r1 c1]|] eqn:Hgreens; simpl; [|done].
  destruct (mark_yellows _ORD_A guess L (r1, c1)) as [[r2 c2]|] eqn:Hyellows;
    simpl; [|done].
  intros [= <-].
  apply mark_greens_keeps_tiles in Hgreens as [Hlen1 Htiles1].
  2:{ apply Forall_replicate. unfold is_tile. lia. }
  apply mark_yellows_tiles in Hyellows as (Hlen2 & Htiles2 & _); [|done].
  unfold list_mul in Hlen1. rewrite length_replicate in Hlen1.
  pose proof (tiles_to_pattern_bounds r2 Htiles2) as Hb.
  rewrite encode_tiles_to_pattern.
  replace (Z.of_nat (length r2)) with L in Hb by lia.
  split; [unfold all_green_pattern; lia|].
  rewrite pattern_to_tiles_digits, tiles_to_pattern_digits.
  rewrite Z2Nat.id by done. apply Z.mod_small. lia.
Qed.

Lemma compute_pattern_range_witness :
  0 ≤ 236 ≤ all_green_pattern 5
  ∧ tiles_to_pattern (pattern_to_tiles 236 5) = 236.
Proof.
  apply (compute_pattern_range crane crate 5 236); [lia|].
  vm_compute. reflexivity.
Defined.

(** X4.  For a guess and a secret of [word_length] bytes, the tile at a
    position is green exactly when the two words have the same byte
    there. *)
Theorem compute_pattern_green_iff (guess secret : word) (L p : Z) (j : nat) :
  Z.of_nat (length guess) = L → Z.of_nat (length secret) = L →
  compute_pattern guess secret L = Ok p →
  pattern_to_tiles p L !! j = Some 2
  ↔ ∃ c, guess !! j = Some c ∧ secret !! j = Some c.
Proof.
  intros Hg Hs Hp.
  destruct (compute_pattern_tiles guess secret L p)
    as (result & -> & Hlen & Htiles & Hgreen); [done..|].
  rewrite <- Hlen, pattern_to_tiles_digits, Nat2Z.id.
  rewrite digits_lsb_tiles_to_pattern, rev_involutive by done.
  apply Hgreen.
Qed.

Lemma compute_pattern_green_iff_witness :
  pattern_to_tiles 236 5 !! 3%nat = Some 2
  ↔ ∃ c, crane !! 3%nat = Some c ∧ crate !! 3%nat = Some c.
Proof.
  apply (compute_pattern_green_iff crane crate 5 236 3);
    [reflexivity..|vm_compute; reflexivity].
Defined.

(** X5.  For words of [word_length] lowercase letters, the pattern is
    the all-green pattern exactly when the guess is the secret. *)
Theorem compute_pattern_all_green_iff (guess secret : word) (L : Z) :
  wf_word L guess → wf_word L secret →
  compute_pattern guess secret L = Ok (all_green_pattern L) ↔ guess = secret.
Proof.
  intros Hg Hs.
  destruct (compute_pattern_total L guess secret) as [p Hp]; [done..|].
  destruct Hg as [Hg _], Hs as [Hs _].
  destruct (compute_pattern_tiles guess secret L p)
    as (result & -> & Hlen & Htiles & Hgreen); [done..|].
  rewrite Hp. unfold all_green_pattern. rewrite <- Hlen. split.
  - intros [= Hmax]. apply tiles_to_pattern_max in Hmax; [|done].
    apply list_eq. intros j.
    destruct (decide (j < length result)%nat) as [Hj|Hj].
    + assert (Hr : result !! j = Some 2).
      { rewrite Hmax. apply lookup_replicate_2. lia. }
      apply Hgreen in Hr as (c & Hgc & Hsc).
      exact (eq_trans Hgc (eq_sym Hsc)).
    + transitivity (@None Z); [|symmetry]; apply lookup_ge_None_2; lia.
  - intros <-. f_equal.
    rewrite <- tiles_to_pattern_all_green. f_equal.
    apply list_eq. intros j.
    destruct (decide (j < length result)%nat) as [Hj|Hj].
    + rewrite lookup_replicate_2 by done.
      destruct (lookup_lt_is_Some_2 guess j) as [c Hc]; [lia|].
      apply Hgreen. eauto.
    + rewrite (lookup_ge_None_2 result) by lia.
      rewrite lookup_ge_None_2; [done|rewrite length_replicate; lia].
Qed.

Lemma compute_pattern_all_green_iff_witness :
  compute_pattern crane crane 5 = Ok (all_green_pattern 5) ↔ crane = crane.
Proof. apply compute_pattern_all_green_iff; solve_wf. Defined.

(** * Errors and ignored input of the feedback computation *)

Lemma py_index_Raise (len : nat) (i : Z) (e : exn) :
  py_index len i = Raise e → e = IndexError.
Proof.
  unfold py_index. destruct (_ && _); [done|].
  destruct (_ && _); [done|]. by intros [= <-].
Qed.

Lemma getitem_Raise {A : Type} (l : list A) (i : Z) (e : exn) :
  getitem l i = Raise e → e = IndexError.
Proof.
  unfold getitem. destruct (py_index (length l) i) as [k|e'] eqn:Hk; simpl.
  - destruct (l !! k); [done|]. by intros [= <-].
  - intros [= <-]. by eapply py_index_Raise.
Qed.

Lemma setitem_Raise {A : Type} (l : list A) (i : Z) (x : A) (e : exn) :
  setitem l i x = Raise e → e = IndexError.
Proof.
  unfold setitem. destruct (py_index (length l) i) as [k|e'] eqn:Hk; simpl;
    [done|].
  intros [= <-]. by eapply py_index_Raise.
Qed.

Lemma getitem_past_end {A : Type} (l : list A) (i : Z) :
  Z.of_nat (length l) ≤ i → getitem l i = Raise IndexError.
Proof.
  intros Hi. unfold getitem, py_index.
  destruct (Z.leb_spec 0 i), (Z.ltb_spec i (Z.of_nat (length l))); try lia.
  simpl. destruct (Z.leb_spec (- Z.of_nat (length l)) i), (Z.ltb_spec i 0);
    try lia; done.
Qed.

Lemma for_each_raise_only {S A : Type} (E : exn) (body : A → S → outcome S)
    (xs : list A) (s : S) (e : exn) :
  (∀ x s e, body x s = Raise e → e = E) →
  for_each xs body s = Raise e → e = E.
Proof.
  intros Hbody. revert s. induction xs as [|x xs IH]; intros s; simpl; [done|].
  destruct (body x s) as [s1|e1] eqn:Hb; simpl; [apply IH|].
  intros [= <-]. by eapply Hbody.
Qed.

(** A loop that returned ran its body to completion on every element. *)
Lemma for_each_ok_all {S A : Type} (body : A → S → outcome S)
    (xs : list A) (s s' : S) (x : A) :
  for_each xs body s = Ok s' → x ∈ xs → ∃ s1 s2, body x s1 = Ok s2.
Proof.
  revert s. induction xs as [|y xs IH]; intros s; simpl.
  - intros _ Hx. by apply elem_of_nil in Hx.
  - destruct (body y s) as [s1|] eqn:Hb; simpl; [|done].
    intros Hrun Hx. apply elem_of_cons in Hx as [->|Hx]; [eauto|].
    by eapply IH.
Qed.

Lemma range_elem (n i : Z) : 0 ≤ i < n → i ∈ range n.
Proof.
  intros Hi. unfold range. apply list_elem_of_fmap.
  exists (Z.to_nat i). split; [lia|]. apply elem_of_seq. lia.
Qed.

(** Peels the subscripts off a loop body that raised. *)
Ltac raise_only :=
  repeat match goal with
  | |- Raise _ = Raise _ → _ => intros [= <-]
  | H : getitem _ _ = Raise _ |- _ => apply getitem_Raise in H; subst
  | H : setitem _ _ _ = Raise _ |- _ => apply setitem_Raise in H; subst
  | |- context [getitem ?l ?i ≫= _] =>
      let H := fresh "Hget" in destruct (getitem l i) eqn:H; simpl
  | |- context [setitem ?l ?i ?x ≫= _] =>
      let H := fresh "Hset" in destruct (setitem l i x) eqn:H; simpl
  | |- context [if ?b then _ else _] => destruct b
  | |- Ok _ = Raise _ → _ => done
  | |- _ = Raise _ → _ => let H := fresh "Hr" in intros H
  end; try done.

Lemma count_letters_raise (a : Z) (secret : word) (L : Z) (counts : list Z)
    (e : exn) :
  count_letters a secret L counts = Raise e → e = IndexError.
Proof.
  apply for_each_raise_only. intros i cs e'. raise_only.
Qed.

Lemma mark_greens_raise (a : Z) (guess secret : word) (L : Z)
    (st : list Z * list Z) (e : exn) :
  mark_greens a guess secret L st = Raise e → e = IndexError.
Proof.
  apply for_each_raise_only. intros i [r c] e'. raise_only.
Qed.

Lemma mark_yellows_raise (a : Z) (guess : word) (L : Z)
    (st : list Z * list Z) (e : exn) :
  mark_yellows a guess L st = Raise e → e = IndexError.
Proof.
  apply for_each_raise_only. intros i [r c] e'. cbv zeta. raise_only.
Qed.

Lemma compute_pattern_raise (guess secret : word) (L : Z) (e : exn) :
  compute_pattern guess secret L = Raise e → e = IndexError.
Proof.
  unfold compute_pattern.
  destruct (count_letters _ORD_A secret L (list_mul 0 26)) as [cs|e1] eqn:H1;
    simpl.
  2:{ intros [= <-]. by eapply count_letters_raise. }
  destruct (mark_greens _ORD_A guess secret L (list_mul 0 L, cs))
    as [[r1 c1]|e2] eqn:H2; simpl.
  2:{ intros [= <-]. by eapply mark_greens_raise. }
  destruct (mark_yellows _ORD_A guess L (r1, c1)) as [[r2 c2]|e3] eqn:H3;
    simpl; [done|].
  intros [= <-]. by eapply mark_yellows_raise.
Qed.

(** X6.  The only exception [compute_pattern] raises is [IndexError], and
    it raises it whenever the guess or the secret has fewer than
    [word_length] bytes. *)
Theorem compute_pattern_short_word (guess secret : word) (L : Z) :
  Z.of_nat (length guess) < L ∨ Z.of_nat (length secret) < L →
  compute_pattern guess secret L = Raise IndexError
  ∧ ∀ g s L' e, compute_pattern g s L' = Raise e → e = IndexError.
Proof.
  intros Hshort. split; [|apply compute_pattern_raise].
  destruct (compute_pattern guess secret L) as [p|e] eqn:Hp.
  2:{ f_equal. by eapply compute_pattern_raise. }
  exfalso. unfold compute_pattern in Hp.
  destruct (count_letters _ORD_A secret L (list_mul 0 26)) as [cs|] eqn:H1;
    simpl in Hp; [|done].
  destruct (mark_greens _ORD_A guess secret L (list_mul 0 L, cs))
    as [[r1 c1]|] eqn:H2; simpl in Hp; [|done].
  destruct Hshort as [Hg|Hs].
  - destruct (for_each_ok_all _ _ _ _ (Z.of_nat (length guess)) H2)
      as ([r c] & st & Hbody); [apply range_elem; lia|].
    simpl in Hbody. by rewrite (getitem_past_end guess) in Hbody by lia.
  - destruct (for_each_ok_all _ _ _ _ (Z.of_nat (length secret)) H1)
      as (c & st & Hbody); [apply range_elem; lia|].
    simpl in Hbody. by rewrite (getitem_past_end secret) in Hbody by lia.
Qed.

Lemma compute_pattern_short_word_witness :
  compute_pattern crane (bytes_of_string "cat") 5 = Raise IndexError
  ∧ ∀ g s L' e, compute_pattern g s L' = Raise e → e = IndexError.
Proof. apply compute_pattern_short_word. right. simpl. lia. Defined.

Lemma for_each_ext_in {S A : Type} (body1 body2 : A → S → outcome S)
    (xs : list A) (s : S) :
  (∀ x s, x ∈ xs → body1 x s = body2 x s) →
  for_each xs body1 s = for_each xs body2 s.
Proof.
  revert s. induction xs as [|x xs IH]; intros s Heq; simpl; [done|].
  rewrite Heq by left. destruct (body2 x s) as [s1|]; simpl; [|done].
  apply IH. intros y t Hy. apply Heq. by right.
Qed.

Lemma getitem_take {A : Type} (l : list A) (n : nat) (i : Z) :
  (n ≤ length l)%nat → 0 ≤ i < Z.of_nat n →
  getitem (take n l) i = getitem l i.
Proof.
  intros Hn Hi. unfold getitem.
  rewrite !py_index_in_range by (rewrite ?length_take; lia). simpl.
  by rewrite lookup_take_lt by lia.
Qed.

(** X7.  [compute_pattern] reads only the first [word_length] bytes of
    the guess and of the secret: longer words are silently truncated. *)
Theorem compute_pattern_reads_prefix (guess secret : word) (L : Z) :
  L ≤ Z.of_nat (length guess) → L ≤ Z.of_nat (length secret) →
  compute_pattern guess secret L
  = compute_pattern (take (Z.to_nat L) guess) (take (Z.to_nat L) secret) L.
Proof.
  intros Hg Hs.
  assert (Hgi : ∀ i, i ∈ range L →
    getitem (take (Z.to_nat L) guess) i = getitem guess i).
  { intros i Hi%range_bounds. apply getitem_take; lia. }
  assert (Hsi : ∀ i, i ∈ range L →
    getitem (take (Z.to_nat L) secret) i = getitem secret i).
  { intros i Hi%range_bounds. apply getitem_take; lia. }
  unfold compute_pattern.
  assert (Hcount : ∀ cs,
    count_letters _ORD_A (take (Z.to_nat L) secret) L cs
    = count_letters _ORD_A secret L cs).
  { intros cs. apply for_each_ext_in. intros i c Hi. by rewrite Hsi. }
  assert (Hgreens : ∀ st,
    mark_greens _ORD_A (take (Z.to_nat L) guess) (take (Z.to_nat L) secret) L st
    = mark_greens _ORD_A guess secret L st).
  { intros st. apply for_each_ext_in. intros i [r c] Hi.
    by rewrite Hgi, Hsi. }
  assert (Hyellows : ∀ st,
    mark_yellows _ORD_A (take (Z.to_nat L) guess) L st
    = mark_yellows _ORD_A guess L st).
  { intros st. apply for_each_ext_in. intros i [r c] Hi. by rewrite Hgi. }
  rewrite Hcount.
  destruct (count_letters _ORD_A secret L (list_mul 0 26)) as [cs|]; simpl;
    [|done].
  rewrite Hgreens.
  destruct (mark_greens _ORD_A guess secret L (list_mul 0 L, cs))
    as [[r1 c1]|]; simpl; [|done].
  by rewrite Hyellows.
Qed.

Lemma compute_pattern_reads_prefix_witness :
  compute_pattern (bytes_of_string "cranes") (bytes_of_string "crateful") 5
  = compute_pattern (take (Z.to_nat 5) (bytes_of_string "cranes"))
                    (take (Z.to_nat 5) (bytes_of_string "crateful")) 5.
Proof. apply compute_pattern_reads_prefix; simpl; lia. Defined.

(** * Filtering and bucketing *)

(** A list function that returned has scored every secret. *)
Lemma for_each_patterns_ok {S : Type} (guess : word) (L : Z)
    (h : S → word → Z → S) (xs : list word) (s s' : S) :
  for_each xs (λ x s, p ← compute_pattern guess x L; Ok (h s x p)) s = Ok s' →
  all_scored guess L xs.
Proof.
  revert s. induction xs as [|x xs IH]; intros s; simpl; [constructor|].
  destruct (compute_pattern guess x L) as [p|] eqn:Hp; simpl; [|done].
  intros Hrun. constructor; [eauto|by eapply IH].
Qed.

(** What [filter_candidates] returns, whenever it returns. *)
Lemma filter_candidates_Ok (candidates : list word) (guess : word)
    (pattern L : Z) (kept : list word) :
  filter_candidates candidates guess pattern L = Ok kept
  ↔ all_scored guess L candidates
    ∧ kept = with_pattern guess L pattern candidates.
Proof.
  split.
  - intros Hrun.
    assert (Hall : all_scored guess L candidates).
    { unfold filter_candidates in Hrun.
      rewrite (for_each_ext _ (λ x acc, p ← compute_pattern guess x L;
                 Ok (if p =? pattern then acc ++ [x] else acc))) in Hrun.
      - by eapply (for_each_patterns_ok guess L
                     (λ acc x p, if p =? pattern then acc ++ [x] else acc)).
      - intros x acc.
        rewrite (loop_body_compute_pattern guess x L
                   (λ p, if p =? pattern then Ok (acc ++ [x]) else Ok acc)).
        destruct (compute_pattern guess x L) as [p|]; simpl; [|done].
        by destruct (p =? pattern). }
    split; [done|].
    rewrite filter_candidates_filter in Hrun by done. by injection Hrun.
  - intros [Hall ->]. by apply filter_candidates_filter.
Qed.

Lemma all_scored_sublist (guess : word) (L : Z) (S S' : list word) :
  S' ⊆ S → all_scored guess L S → all_scored guess L S'.
Proof.
  unfold all_scored. rewrite !Forall_forall. intros Hsub Hall s Hs.
  apply Hall. by apply Hsub.
Qed.

Lemma with_pattern_subseteq (guess : word) (L p : Z) (S : list word) :
  with_pattern guess L p S ⊆ S.
Proof. intros s Hs. by apply list_elem_of_filter in Hs as [_ ?]. Qed.

(** X8.  Filtering by two feedbacks gives the same list in either order,
    whenever the calls return; filtering twice by the same feedback
    changes nothing. *)
Theorem filter_candidates_commute (S : list word) (g1 g2 : word)
    (p1 p2 L : Z) (S1 S12 : list word) :
  filter_candidates S g1 p1 L = Ok S1 →
  filter_candidates S1 g2 p2 L = Ok S12 →
  filter_candidates S1 g1 p1 L = Ok S1
  ∧ (all_scored g2 L S →
     ∃ S2, filter_candidates S g2 p2 L = Ok S2
         ∧ filter_candidates S2 g1 p1 L = Ok S12).
Proof.
  intros [Hall1 ->]%filter_candidates_Ok [Hall12 ->]%filter_candidates_Ok.
  split.
  - apply filter_candidates_Ok. split.
    + eapply all_scored_sublist; [apply with_pattern_subseteq|done].
    + unfold with_pattern. rewrite list_filter_filter.
      apply list_filter_iff. tauto.
  - intros Hall2. exists (with_pattern g2 L p2 S). split.
    + by apply filter_candidates_Ok.
    + apply filter_candidates_Ok. split.
      * eapply all_scored_sublist; [apply with_pattern_subseteq|done].
      * unfold with_pattern. rewrite !list_filter_filter.
        apply list_filter_iff. tauto.
Qed.

Lemma filter_candidates_commute_witness :
  filter_candidates [crate] crane 236 5 = Ok [crate]
  ∧ (all_scored slate 5 [crane; crate; slate; trace] →
     ∃ S2, filter_candidates [crane; crate; slate; trace] slate 26 5 = Ok S2
         ∧ filter_candidates S2 crane 236 5 = Ok [crate]).
Proof.
  apply (filter_candidates_commute [crane; crate; slate; trace]
           crane slate 236 26 5 [crate] [crate]);
    vm_compute; reflexivity.
Defined.

Lemma bucket_sizes_body (guess : word) (candidates : list word) (L : Z) :
  bucket_sizes guess candidates L
  = for_each candidates
      (λ x d, p ← compute_pattern guess x L; Ok (tally d p)) [].
Proof.
  unfold bucket_sizes. apply for_each_ext. intros x d.
  apply (loop_body_compute_pattern guess x L (λ p, Ok (tally d p))).
Qed.

Lemma bucket_by_pattern_body (guess : word) (candidates : list word) (L : Z) :
  bucket_by_pattern guess candidates L
  = for_each candidates
      (λ x d, p ← compute_pattern guess x L; Ok (collect d p x)) [].
Proof.
  unfold bucket_by_pattern. apply for_each_ext. intros x d.
  rewrite (loop_body_compute_pattern guess x L
    (λ p, match dict_get d p with
          | Some bucket => Ok (dict_set d p (bucket ++ [x]))
          | None => Ok (dict_set d p [x])
          end)).
  destruct (compute_pattern guess x L) as [p|]; simpl; [|done].
  unfold collect. by destruct (dict_get d p).
Qed.

Lemma bucket_sizes_Ok (guess : word) (candidates : list word) (L : Z)
    (buckets : list (Z * Z)) :
  bucket_sizes guess candidates L = Ok buckets →
  all_scored guess L candidates
  ∧ buckets = fold_left (λ d s, tally d (pattern_of guess L s)) candidates [].
Proof.
  intros Hrun.
  assert (Hall : all_scored guess L candidates).
  { rewrite bucket_sizes_body in Hrun.
    by eapply (for_each_patterns_ok guess L (λ d x p, tally d p)). }
  split; [done|]. rewrite bucket_sizes_fold in Hrun by done.
  by injection Hrun.
Qed.

Lemma bucket_by_pattern_Ok (guess : word) (candidates : list word) (L : Z)
    (buckets : list (Z * list word)) :
  bucket_by_pattern guess candidates L = Ok buckets →
  all_scored guess L candidates
  ∧ buckets
    = fold_left (λ d s, collect d (pattern_of guess L s) s) candidates [].
Proof.
  intros Hrun.
  assert (Hall : all_scored guess L candidates).
  { rewrite bucket_by_pattern_body in Hrun.
    by eapply (for_each_patterns_ok guess L (λ d x p, collect d p x)). }
  split; [done|]. rewrite bucket_by_pattern_fold in Hrun by done.
  by injection Hrun.
Qed.

Lemma bucket_lengths_get (d : list (Z * list word)) (p : Z) :
  dict_get (bucket_lengths d) p = (λ b, Z.of_nat (length b)) <$> dict_get d p.
Proof.
  unfold bucket_lengths. induction d as [|[k b] d IH]; [done|].
  rewrite fmap_cons. cbn [dict_get fst snd]. by destruct (k =? p).
Qed.

Lemma bucket_lengths_collect (d : list (Z * list word)) (p : Z) (s : word) :
  bucket_lengths (collect d p s) = tally (bucket_lengths d) p.
Proof.
  unfold tally, collect. rewrite bucket_lengths_get.
  assert (Hv : Z.of_nat (length (default [] (dict_get d p) ++ [s]))
    = default 0 ((λ b, Z.of_nat (length b)) <$> dict_get d p) + 1).
  { rewrite length_app. destruct (dict_get d p); simpl; lia. }
  rewrite <- Hv. clear Hv.
  generalize (default [] (dict_get d p) ++ [s]). intros v.
  unfold bucket_lengths. induction d as [|[k b] d IH]; [done|].
  rewrite fmap_cons. cbn [dict_set fst snd].
  destruct (k =? p); rewrite fmap_cons; cbn [fst snd]; [done|].
  by rewrite IH.
Qed.

(** X9.  [bucket_sizes] is [bucket_by_pattern] with every bucket replaced
    by its length: the same keys in the same order, and the same
    exception when a secret cannot be scored. *)
Theorem bucket_sizes_lengths (guess : word) (candidates : list word) (L : Z) :
  bucket_sizes guess candidates L
  = bucket_lengths <$> bucket_by_pattern guess candidates L.
Proof.
  rewrite bucket_sizes_body, bucket_by_pattern_body.
  change (@nil (Z * Z)) with (bucket_lengths []).
  generalize (@nil (Z * list word)).
  induction candidates as [|x S IH]; intros d; simpl; [done|].
  destruct (compute_pattern guess x L) as [p|]; simpl; [|done].
  by rewrite <- IH, bucket_lengths_collect.
Qed.

Lemma collect_concat (d : list (Z * list word)) (p : Z) (s : word) :
  concat (dict_values (collect d p s)) ≡ₚ s :: concat (dict_values d).
Proof.
  unfold collect, dict_values. induction d as [|[k b] d IH].
  - simpl. done.
  - cbn [dict_get dict_set]. destruct (Z.eqb_spec k p) as [->|Hne].
    + rewrite !fmap_cons. cbn [concat snd default].
      rewrite <- app_assoc. symmetry. apply Permutation_middle.
    + rewrite !fmap_cons. cbn [concat snd]. rewrite IH.
      symmetry. apply Permutation_middle.
Qed.

(** X10.  The buckets of [bucket_by_pattern] partition the candidate
    list: concatenated, they are a permutation of it. *)
Theorem bucket_by_pattern_partition (guess : word) (candidates : list word)
    (L : Z) (buckets : list (Z * list word)) :
  bucket_by_pattern guess candidates L = Ok buckets →
  concat (dict_values buckets) ≡ₚ candidates.
Proof.
  intros [_ ->]%bucket_by_pattern_Ok.
  assert (Hgen : ∀ d,
    concat (dict_values
      (fold_left (λ d s, collect d (pattern_of guess L s) s) candidates d))
    ≡ₚ candidates ++ concat (dict_values d)).
  { induction candidates as [|s S IH]; intros d; simpl fold_left; [done|].
    rewrite IH, collect_concat. symmetry. apply Permutation_middle. }
  rewrite Hgen. simpl. by rewrite app_nil_r.
Qed.

Lemma bucket_by_pattern_partition_witness :
  concat (dict_values [(236, [crate]); (20, [slate]); (155, [trace])])
  ≡ₚ [crate; slate; trace].
Proof.
  apply (bucket_by_pattern_partition crane [crate; slate; trace] 5).
  vm_compute. reflexivity.
Defined.

(** X11.  [bucket_sizes] maps each pattern to the number of candidates
    that show it: its keys are distinct, a pattern no candidate shows is
    not a key, and there are at most as many buckets as candidates. *)
Theorem bucket_sizes_counts (guess : word) (candidates : list word) (L : Z)
    (buckets : list (Z * Z)) :
  bucket_sizes guess candidates L = Ok buckets →
  NoDup buckets.*1
  ∧ (∀ p, default 0 (dict_get buckets p)
          = Z.of_nat (length (with_pattern guess L p candidates)))
  ∧ (∀ p, dict_get buckets p = None
          ↔ with_pattern guess L p candidates = [])
  ∧ (length buckets ≤ length candidates)%nat.
Proof.
  intros [Hall ->]%bucket_sizes_Ok.
  set (b := fold_left (λ d s, tally d (pattern_of guess L s)) candidates []).
  assert (Hget : ∀ p, dict_get b p
    = match with_pattern guess L p candidates with
      | [] => None
      | l => Some (Z.of_nat (length l))
      end).
  { intros p. unfold b, with_pattern. rewrite tally_fold_get by done. simpl.
    by destruct (filter _ candidates). }
  split; [apply tally_fold_keys_NoDup; constructor|].
  split; [|split].
  - intros p. rewrite Hget. by destruct (with_pattern _ _ _ _).
  - intros p. rewrite Hget. by destruct (with_pattern _ _ _ _).
  - assert (Hpos : Forall (λ kv, 0 < kv.2) b)
      by (apply tally_fold_pos; constructor).
    assert (Hsum : py_sum (dict_values b) = Z.of_nat (length candidates))
      by (unfold b; by rewrite tally_fold_sum).
    assert (Hlen : ∀ d : list (Z * Z), Forall (λ kv, 0 < kv.2) d →
      Z.of_nat (length d) ≤ py_sum (dict_values d)).
    { clear. unfold dict_values. induction 1 as [|[k v] d Hv _ IH].
      - unfold py_sum. simpl. lia.
      - rewrite fmap_cons, py_sum_cons. simpl in *. lia. }
    specialize (Hlen b Hpos). lia.
Qed.

Lemma bucket_sizes_counts_witness :
  NoDup [(0, 2); (242, 1)].*1
  ∧ (∀ p, default 0 (dict_get [(0, 2); (242, 1)] p)
          = Z.of_nat (length (with_pattern zzzzz 5 p [crane; slate; zzzzz])))
  ∧ (∀ p, dict_get [(0, 2); (242, 1)] p = None
          ↔ with_pattern zzzzz 5 p [crane; slate; zzzzz] = [])
  ∧ (length [(0, 2); (242, 1)] ≤ length [crane; slate; zzzzz])%nat.
Proof.
  apply (bucket_sizes_counts zzzzz [crane; slate; zzzzz] 5).
  vm_compute. reflexivity.
Defined.

(** * The solver across a game *)

Section solver_runs.
Context {F : Type} `{PyFloat F}.
Implicit Types (self : Solver F) (cache : Cache).

(** The lists [update] leaves: both as they were, or the candidates
    filtered by the feedback, or both filtered. *)
Lemma update_lists self (g : word) (p : Z) :
  (candidates (update self g p).1 = candidates self
   ∧ guess_pool (update self g p).1 = guess_pool self)
  ∨ (candidates (update self g p).1
       = with_pattern g (word_length self) p (candidates self)
     ∧ guess_pool (update self g p).1 = guess_pool self)
  ∨ (candidates (update self g p).1
       = with_pattern g (word_length self) p (candidates self)
     ∧ guess_pool (update self g p).1
       = with_pattern g (word_length self) p (guess_pool self)).
Proof.
  unfold update. simpl.
  destruct (filter_candidates (candidates self) g p (word_length self))
    as [cs|] eqn:Hcs; simpl; [|by left].
  apply filter_candidates_Ok in Hcs as [Hall ->].
  destruct (hard_mode self); simpl; [|by right; left].
  destruct (filter_candidates (guess_pool self) g p (word_length self))
    as [gp|] eqn:Hgp; simpl; [|by right; left].
  apply filter_candidates_Ok in Hgp as [Hall' ->]. by right; right.
Qed.

(** Everything but the two lists and the history is left alone. *)
Lemma update_config self (g : word) (p : Z) :
  word_length (update self g p).1 = word_length self
  ∧ max_turns (update self g p).1 = max_turns self
  ∧ strategy_name (update self g p).1 = strategy_name self
  ∧ _strategy_fn (update self g p).1 = _strategy_fn self
  ∧ _initial_solutions (update self g p).1 = _initial_solutions self
  ∧ _initial_guesses (update self g p).1 = _initial_guesses self
  ∧ _solutions_hash (update self g p).1 = _solutions_hash self
  ∧ history (update self g p).1 = history self ++ [(g, p)].
Proof.
  unfold update. simpl.
  destruct (filter_candidates (candidates self) g p (word_length self));
    simpl; [|done].
  destruct (hard_mode self); simpl; [|done].
  by destruct (filter_candidates (guess_pool self) g p (word_length self)).
Qed.

Lemma run_updates_inv (P : Solver F → Prop) self (turns : list (word * Z)) :
  (∀ s g p, P s → P (update s g p).1) → P self → P (run_updates self turns).
Proof.
  intros Hstep. unfold run_updates. revert self.
  induction turns as [|[g p] turns IH]; intros self Hself; simpl; [done|].
  apply IH. by apply Hstep.
Qed.

(** X12.  The candidate list and the guess pool never regrow: after any
    sequence of [update] calls each is a sub-list, in the original order,
    of what it was. *)
Theorem update_never_regrows self (turns : list (word * Z)) :
  candidates (run_updates self turns) `sublist_of` candidates self
  ∧ guess_pool (run_updates self turns) `sublist_of` guess_pool self.
Proof.
  apply (run_updates_inv
    (λ s, candidates s `sublist_of` candidates self
          ∧ guess_pool s `sublist_of` guess_pool self)); [|done].
  intros s g p [Hc Hp].
  destruct (update_lists s g p) as [[-> ->] | [[-> ->] | [-> ->]]];
    split; try done;
    (etrans; [apply sublist_filter|done]).
Qed.

(** One [update] keeps a well-formed solver well formed. *)
Lemma update_solver_ok self (g : word) (p : Z) :
  solver_ok self → solver_ok (update self g p).1.
Proof.
  intros (Hc & Hp & Hsub & Hreg). unfold solver_ok, strategy_registered.
  destruct (update_config self g p) as (-> & _ & -> & -> & _).
  assert (Hfilter : ∀ l, Forall (wf_word (word_length self)) l →
    Forall (wf_word (word_length self)) (with_pattern g (word_length self) p l)).
  { intros l Hl. apply Forall_forall. intros w Hw.
    rewrite Forall_forall in Hl. apply Hl.
    by apply with_pattern_subseteq in Hw. }
  destruct (update_lists self g p) as [[-> ->] | [[-> ->] | [-> ->]]];
    repeat split; auto.
  - intros w Hw. apply Hsub. by apply with_pattern_subseteq in Hw.
  - intros w Hw. unfold with_pattern in *.
    apply list_elem_of_filter in Hw as [Hw1 Hw2].
    apply list_elem_of_filter. split; [done|by apply Hsub].
Qed.

(** One [update] with the pattern of the guess against a word keeps
    that word in either list. *)
Lemma update_keeps_word self (secret g : word) (p : Z) :
  compute_pattern g secret (word_length self) = Ok p →
  (secret ∈ candidates self → secret ∈ candidates (update self g p).1)
  ∧ (secret ∈ guess_pool self → secret ∈ guess_pool (update self g p).1).
Proof.
  intros Hgp. split; intros Hin.
  - destruct (update_lists self g p) as [[-> _] | [[-> _] | [-> _]]];
      [done|by apply list_elem_of_filter..].
  - destruct (update_lists self g p) as [[_ ->] | [[_ ->] | [_ ->]]];
      [done..|by apply list_elem_of_filter].
Qed.

(** X13.  Well-formed lists, a guess pool containing the candidates and
    a registered strategy are kept by every [update], whatever guess and
    pattern it is given. *)
Theorem update_keeps_solver_ok self (turns : list (word * Z)) :
  solver_ok self → solver_ok (run_updates self turns).
Proof. apply run_updates_inv. intros s g p. apply update_solver_ok. Qed.

(** X14.  Under honest feedback the secret stays: if the secret is a
    candidate and every turn reports the pattern of its guess against
    the secret, the secret is a candidate after the turns, and stays in
    the guess pool if it was there. *)
Theorem honest_feedback_keeps_secret self (secret : word)
    (turns : list (word * Z)) :
  secret ∈ candidates self → secret ∈ guess_pool self →
  honest secret (word_length self) turns →
  secret ∈ candidates (run_updates self turns)
  ∧ secret ∈ guess_pool (run_updates self turns).
Proof.
  unfold honest, run_updates. revert self.
  induction turns as [|[g p] turns IH]; intros self Hc Hp Hturns; simpl;
    [done|].
  apply Forall_cons in Hturns as [Hgp Hturns]. simpl in Hgp.
  destruct (update_config self g p) as (Hlen & _).
  destruct (update_keeps_word self secret g p Hgp) as [Hcands Hpool].
  apply IH; [by apply Hcands|by apply Hpool|by rewrite Hlen].
Qed.

Lemma run_updates_config self (turns : list (word * Z)) :
  word_length (run_updates self turns) = word_length self
  ∧ max_turns (run_updates self turns) = max_turns self
  ∧ strategy_name (run_updates self turns) = strategy_name self
  ∧ _strategy_fn (run_updates self turns) = _strategy_fn self
  ∧ _initial_solutions (run_updates self turns) = _initial_solutions self
  ∧ _initial_guesses (run_updates self turns) = _initial_guesses self
  ∧ _solutions_hash (run_updates self turns) = _solutions_hash self
  ∧ history (run_updates self turns) = history self ++ turns.
Proof.
  unfold run_updates. revert self.
  induction turns as [|[g p] turns IH]; intros self; simpl.
  - by rewrite app_nil_r.
  - destruct (IH (update self g p).1)
      as (-> & -> & -> & -> & -> & -> & -> & ->).
    destruct (update_config self g p)
      as (-> & -> & -> & -> & -> & -> & -> & ->).
    by rewrite <- app_assoc.
Qed.

(** X15.  [reset] after any sequence of [update] calls gives the solver
    that [reset] gives at once: the initial solutions and guesses, an
    empty history, the same configuration. *)
Theorem reset_after_updates self (turns : list (word * Z)) :
  reset (run_updates self turns) = reset self
  ∧ candidates (reset (run_updates self turns)) = _initial_solutions self
  ∧ guess_pool (reset (run_updates self turns)) = _initial_guesses self
  ∧ history (reset (run_updates self turns)) = [].
Proof.
  destruct (run_updates_config self turns)
    as (Hl & Hm & Hn & Hf & Hs & Hg & Hh & _).
  assert (Hhard := run_updates_hard_mode self turns).
  unfold reset, set_history, set_guess_pool, set_candidates. simpl.
  by rewrite Hl, Hm, Hn, Hf, Hs, Hg, Hh, Hhard.
Qed.

(** X16.  The history is an append-only log: after a sequence of
    [update] calls it is the old history followed by the (guess, pattern)
    pairs in call order, also for calls that raise. *)
Theorem history_is_log self (turns : list (word * Z)) :
  history (run_updates self turns) = history self ++ turns.
Proof. apply run_updates_config. Qed.
End solver_runs.

Lemma update_keeps_solver_ok_witness :
  solver_ok (run_updates (demo_solver "entropy" score_entropy true)
               [(trace, 155); (zzzzz, 7)]).
Proof.
  apply (update_keeps_solver_ok (demo_solver "entropy" score_entropy true)).
  repeat split; simpl; solve_wf.
Defined.

Lemma honest_feedback_keeps_secret_witness :
  crate ∈ candidates (run_updates (demo_solver "entropy" score_entropy true)
                        [(crane, 236); (slate, 26)])
  ∧ crate ∈ guess_pool (run_updates (demo_solver "entropy" score_entropy true)
                          [(crane, 236); (slate, 26)]).
Proof.
  apply (honest_feedback_keeps_secret
           (demo_solver "entropy" score_entropy true) crate).
  - right. left.
  - right. left.
  - repeat constructor.
Defined.

(** * Guess selection and the first-guess cache *)

Section best_guess_extra.
Context {F : Type} `{PyFloat F}.
Implicit Types (self : Solver F) (cache : Cache).

Lemma first_turn_true self (turn : Z) :
  first_call self turn →
  (turn =? 1)
  && (Z.of_nat (length (candidates self))
      =? Z.of_nat (length (_initial_solutions self))) = true.
Proof.
  intros [-> Hlen]. rewrite Hlen. simpl. apply Z.eqb_refl.
Qed.

Lemma first_turn_false self (turn : Z) :
  ¬ first_call self turn →
  (turn =? 1)
  && (Z.of_nat (length (candidates self))
      =? Z.of_nat (length (_initial_solutions self))) = false.
Proof.
  intros Hno. apply not_true_is_false. intros Htrue. apply Hno.
  apply andb_prop in Htrue as [H1%Z.eqb_eq H2%Z.eqb_eq]. split; [done|lia].
Qed.

(** On a well-formed solver with candidates left [best_guess] returns
    a word: of the guess pool, or the memoized first guess. *)
Lemma best_guess_member self cache (turn : Z) :
  solver_ok self → candidates self ≠ [] →
  ∃ w, (best_guess cache self turn).1 = Ok w
     ∧ (w ∈ guess_pool self ∨ memoized_first_guess cache self turn = Some w).
Proof.
  intros (Hc & Hp & Hsub & Hreg) Hne.
  destruct (candidates self) as [|a [|b [|c rest]]] eqn:Hcands; [done|..].
  - exists a. split; [|left; apply Hsub; left].
    unfold best_guess. by rewrite Hcands.
  - exists a. split; [|left; apply Hsub; left].
    unfold best_guess. by rewrite Hcands.
  - rewrite <- Hcands in *.
    assert (Hn : (2 < length (candidates self))%nat)
      by (rewrite Hcands; simpl; lia).
    destruct (memoized_first_guess cache self turn) as [w|] eqn:Hmemo.
    { exists w. split; [by apply best_guess_memoized|by right]. }
    rewrite best_guess_scores by done.
    assert (Hpool : _select_guess_pool self turn ≠ []
                    ∧ Forall (wf_word (word_length self))
                             (_select_guess_pool self turn)
                    ∧ _select_guess_pool self turn ⊆ guess_pool self).
    { destruct (_select_guess_pool_cases self turn) as [-> | ->]; [done|].
      split; [|done]. intros Hnil. rewrite Hcands in Hsub.
      assert (Ha : a ∈ guess_pool self) by (apply Hsub; left).
      rewrite Hnil in Ha. by apply elem_of_nil in Ha. }
    destruct Hpool as (Hpne & Hpwf & Hpsub).
    destruct (String.eqb _ _).
    + destruct (score_frequency_batch_total (_select_guess_pool self turn)
                  (candidates self) (word_length self)) as (w & -> & Hw);
        [done..|]. eauto.
    + destruct (_score_pool_total self (_select_guess_pool self turn) turn)
        as (w & -> & Hw); [done..| |eauto].
      by eapply get_strategy_total.
Qed.

(** X17.  When it is not served from the cache, [best_guess] on a
    well-formed solver with candidates left returns a word of the guess
    pool. *)
Theorem best_guess_in_guess_pool self cache (turn : Z) :
  solver_ok self → candidates self ≠ [] →
  memoized_first_guess cache self turn = None →
  ∃ w, (best_guess cache self turn).1 = Ok w ∧ w ∈ guess_pool self.
Proof.
  intros Hok Hne Hmemo.
  destruct (best_guess_member self cache turn Hok Hne) as (w & Hw & [Hin|Hm]);
    [by eauto|congruence].
Qed.

(** The cache after a first-turn call that returned holds the word
    returned. *)
Lemma best_guess_memoizes self cache cache' (turn : Z) (w : word) :
  (2 < length (candidates self))%nat → first_call self turn →
  best_guess cache self turn = (Ok w, cache') →
  cache' !! cache_key self = Some w.
Proof.
  intros Hn Hfirst. unfold best_guess, cache_key.
  destruct (Z.eqb_spec (Z.of_nat (length (candidates self))) 0); [lia|].
  destruct (Z.eqb_spec (Z.of_nat (length (candidates self))) 1); [lia|].
  destruct (Z.eqb_spec (Z.of_nat (length (candidates self))) 2); [lia|].
  cbv zeta. rewrite first_turn_true by done.
  destruct (cache !! _) as [w0|] eqn:Hhit.
  - by intros [= <- <-].
  - destruct (if String.eqb _ _ then _ else _) as [b|]; [|done].
    intros [= <- <-]. apply lookup_insert_eq.
Qed.

(** X18.  The first guess is memoized process-wide: once a first-turn
    call on the full candidates has returned a word, every first-turn
    call of any solver with the same strategy name, word length and
    solutions hash, on more than two full candidates, returns that word
    without scoring and leaves the cache as it is. *)
Theorem first_guess_is_shared self self2 cache cache' (w : word) :
  (2 < length (candidates self))%nat → first_call self 1 →
  best_guess cache self 1 = (Ok w, cache') →
  (2 < length (candidates self2))%nat → first_call self2 1 →
  cache_key self2 = cache_key self →
  best_guess cache' self2 1 = (Ok w, cache').
Proof.
  intros Hn Hfirst Hrun Hn2 Hfirst2 Hkey.
  pose proof (best_guess_memoizes self cache cache' 1 w Hn Hfirst Hrun)
    as Hhit.
  rewrite <- Hkey in Hhit. unfold cache_key in Hhit. unfold best_guess.
  destruct (Z.eqb_spec (Z.of_nat (length (candidates self2))) 0); [lia|].
  destruct (Z.eqb_spec (Z.of_nat (length (candidates self2))) 1); [lia|].
  destruct (Z.eqb_spec (Z.of_nat (length (candidates self2))) 2); [lia|].
  cbv zeta. rewrite first_turn_true by done. by rewrite Hhit.
Qed.

(** X19.  [best_guess] never replaces or removes a memoized guess: the
    cache it leaves contains the cache it was given, and is that cache
    unless the call is a first-turn call on the full candidates. *)
Theorem best_guess_cache_grows self cache (turn : Z) :
  cache ⊆ (best_guess cache self turn).2
  ∧ (first_call self turn ∨ (best_guess cache self turn).2 = cache).
Proof.
  unfold best_guess.
  destruct (Z.of_nat (length (candidates self)) =? 0); [by split; [|right]|].
  destruct (Z.of_nat (length (candidates self)) =? 1); [by split; [|right]|].
  destruct (Z.of_nat (length (candidates self)) =? 2); [by split; [|right]|].
  cbv zeta.
  destruct (decide (first_call self turn)) as [Hfirst|Hfirst].
  - split; [|by left]. rewrite first_turn_true by done.
    destruct (cache !! _) as [w0|] eqn:Hhit; [done|].
    destruct (if String.eqb _ _ then _ else _) as [b|]; [|done].
    simpl. by apply insert_subseteq.
  - rewrite first_turn_false by done.
    destruct (if String.eqb _ _ then _ else _) as [b|]; by split; [|right].
Qed.
End best_guess_extra.

Lemma best_guess_in_guess_pool_witness :
  ∃ w, (best_guess ∅ (demo_solver "minimax" score_minimax false) 2).1 = Ok w
     ∧ w ∈ guess_pool (demo_solver "minimax" score_minimax false).
Proof.
  apply best_guess_in_guess_pool; [|done|reflexivity].
  repeat split; simpl; solve_wf.
Defined.

Lemma first_guess_is_shared_witness :
  best_guess {[ ("frequency"%string, 5, 0) := zzzzz ]}
             (demo_solver "frequency" score_frequency true) 1
  = (Ok zzzzz, {[ ("frequency"%string, 5, 0) := zzzzz ]}).
Proof.
  apply (first_guess_is_shared
           (demo_solver "frequency" score_frequency false)
           (demo_solver "frequency" score_frequency true)
           {[ ("frequency"%string, 5, 0) := zzzzz ]});
    try (simpl; lia); try (split; reflexivity); reflexivity.
Defined.

(** * The scorers *)

Lemma tally_fold_lookup (guess : word) (L : Z) (S : list word) (p : Z) :
  all_scored guess L S →
  dict_get (fold_left (λ d s, tally d (pattern_of guess L s)) S []) p
  = match with_pattern guess L p S with
    | [] => None
    | l => Some (Z.of_nat (length l))
    end.
Proof.
  intros Hall. unfold with_pattern. rewrite tally_fold_get by done. simpl.
  by destruct (filter _ S).
Qed.

Lemma py_max_spec (xs : list Z) (m : Z) :
  py_max xs = Ok m → m ∈ xs ∧ Forall (λ v, v ≤ m) xs.
Proof.
  destruct xs as [|x xs]; [done|]. simpl. intros [= <-].
  assert (Hgen : ∀ a, fold_left Z.max xs a ∈ a :: xs
    ∧ a ≤ fold_left Z.max xs a
    ∧ Forall (λ v, v ≤ fold_left Z.max xs a) xs).
  { induction xs as [|y ys IH]; intros a; simpl.
    - split; [left|split; [lia|constructor]].
    - destruct (IH (Z.max a y)) as (Hin & Hle & Hall). split; [|split].
      + apply elem_of_cons in Hin as [Heq|Hin].
        * rewrite Heq. destruct (Z.max_spec a y) as [[_ ->]|[_ ->]];
            [right; left|left].
        * right. by right.
      + lia.
      + constructor; [lia|done]. }
  destruct (Hgen x) as (Hin & Hle & Hall). split; [done|by constructor].
Qed.

Section strategies_extra.
Context {F : Type} `{PyFloat F}.

(** X20.  On well-formed input with candidates, [score_minimax] returns
    minus the size of the largest bucket: an integer score between
    [-|S|] and [-1]. *)
Theorem score_minimax_value (g : word) (S : list word) (L turn max_turns : Z) :
  wf_word L g → Forall (wf_word L) S → S ≠ [] →
  ∃ m, score_minimax g S L turn max_turns = Ok (f_of_Z (- m))
     ∧ 1 ≤ m ≤ Z.of_nat (length S)
     ∧ (∃ p, m = Z.of_nat (length (with_pattern g L p S)))
     ∧ ∀ p, Z.of_nat (length (with_pattern g L p S)) ≤ m.
Proof.
  intros Hg HS Hne. unfold score_minimax.
  assert (Hall : all_scored g L S) by by apply all_scored_wf.
  destruct S as [|s0 S0]; [done|]. set (S := s0 :: S0) in *.
  rewrite bucket_sizes_fold by done. cbn [mbind outcome_bind].
  set (b := fold_left (λ d s, tally d (pattern_of g L s)) S []).
  assert (Hnd : NoDup b.*1) by (apply tally_fold_keys_NoDup; constructor).
  assert (Hbne : b ≠ []) by (apply tally_fold_nonempty; by right).
  destruct (py_max (dict_values b)) as [m|] eqn:Hmax.
  2:{ unfold dict_values in Hmax. by destruct b. }
  apply py_max_spec in Hmax as [Hin Hle].
  apply list_elem_of_fmap in Hin as ([k v] & -> & Hkv). simpl.
  pose proof (dict_elem_get _ _ _ Hnd Hkv) as Hget.
  unfold b in Hget. rewrite tally_fold_lookup in Hget by done.
  exists v. split; [done|].
  assert (Hv : v = Z.of_nat (length (with_pattern g L k S))
               ∧ with_pattern g L k S ≠ []).
  { destruct (with_pattern g L k S); [done|]. by injection Hget as <-. }
  destruct Hv as [Hv Hvne].
  assert (Hfilter : ∀ p, (length (with_pattern g L p S) ≤ length S)%nat)
    by (intros p; apply length_filter).
  split; [|split; [eauto|]].
  - specialize (Hfilter k). destruct (with_pattern g L k S); [done|].
    simpl in *. lia.
  - intros p. destruct (with_pattern g L p S) as [|x l] eqn:Hp.
    + destruct (with_pattern g L k S); [done|]. simpl in *. lia.
    + assert (Hget' : dict_get b p = Some (Z.of_nat (length (x :: l))))
        by (unfold b; rewrite tally_fold_lookup by done; by rewrite Hp).
      apply dict_get_Some_elem in Hget'.
      rewrite Forall_forall in Hle. apply Hle.
      apply list_elem_of_fmap. by eexists (_, _).
Qed.

(** X21.  [Solver.__init__] accepts exactly the five registered strategy
    names: for these it returns a solver holding the given lists, an
    empty history and the registered function; for any other name it
    raises [KeyError]. *)
Theorem Solver_init_strategy (py_hash : list word → Z)
    (solutions guesses : list word) (strategy : string)
    (L max_turns : Z) (hard : bool) :
  (strategy ∈ list_strategies (F := F)
   ∧ ∃ self, Solver_init py_hash solutions guesses strategy L max_turns hard
             = Ok self
       ∧ candidates self = solutions ∧ guess_pool self = guesses
       ∧ history self = [] ∧ hard_mode self = hard
       ∧ word_length self = L ∧ strategy_registered self)
  ∨ ((strategy ∉ list_strategies (F := F))
     ∧ ∃ msg, Solver_init py_hash solutions guesses strategy L max_turns hard
              = Raise (KeyError msg)).
Proof.
  unfold Solver_init, strategy_registered.
  destruct (get_strategy strategy) as [fn|e] eqn:Hfn; simpl.
  - left. split; [|eauto 10].
    unfold get_strategy, STRATEGIES, list_strategies in *.
    cbn [registry_get fmap list_fmap fst] in *.
    repeat match type of Hfn with
    | context [String.eqb ?k strategy] =>
        destruct (String.eqb_spec k strategy) as [<-|?];
          [set_solver|]
    end. done.
  - right. unfold get_strategy in Hfn.
    destruct (registry_get STRATEGIES strategy) eqn:Hreg; [done|].
    injection Hfn as <-. split; [|eauto].
    unfold STRATEGIES, list_strategies in *.
    cbn [registry_get fmap list_fmap fst] in *.
    intros Hin.
    repeat (apply elem_of_cons in Hin as [->|Hin];
            [by rewrite String.eqb_refl in Hreg|]).
    by apply elem_of_nil in Hin.
Qed.
End strategies_extra.

Lemma score_minimax_value_witness :
  ∃ m, score_minimax (F := xreal) crane [crate; slate; trace] 5 1 6
       = Ok (f_of_Z (- m))
     ∧ 1 ≤ m ≤ Z.of_nat (length [crate; slate; trace])
     ∧ (∃ p, m = Z.of_nat (length (with_pattern crane 5 p [crate; slate; trace])))
     ∧ ∀ p, Z.of_nat (length (with_pattern crane 5 p [crate; slate; trace])) ≤ m.
Proof. apply score_minimax_value; [solve_wf..|done]. Defined.

Lemma sum_squares_bounds (cs : list Z) :
  Forall (λ c, 0 < c) cs →
  py_sum cs ≤ py_sum ((λ c, c * c) <$> cs) ≤ py_sum cs * py_sum cs.
Proof.
  induction 1 as [|c cs Hc Hcs IH]; [done|].
  rewrite fmap_cons, !py_sum_cons.
  pose proof (py_sum_nonneg cs Hcs). nia.
Qed.

Lemma sum_squares_max (cs : list Z) :
  Forall (λ c, 0 < c) cs →
  py_sum ((λ c, c * c) <$> cs) = py_sum cs * py_sum cs
  ↔ Forall (λ c, c = py_sum cs) cs.
Proof.
  intros Hcs. split.
  - destruct Hcs as [|c cs Hc Hcs]; [constructor|].
    rewrite fmap_cons, !py_sum_cons. intros Heq.
    pose proof (py_sum_nonneg cs Hcs).
    pose proof (sum_squares_bounds cs Hcs).
    assert (py_sum cs = 0) by nia.
    rewrite (py_sum_zero cs) by done. repeat constructor.
    unfold py_sum. simpl. lia.
  - destruct Hcs as [|c cs Hc Hcs]; [done|].
    rewrite Forall_cons, fmap_cons, !py_sum_cons. intros [Heq Hall].
    assert (py_sum cs = 0) by lia.
    rewrite (py_sum_zero cs) by done. unfold py_sum. simpl. lia.
Qed.

(** X22.  In every float interface with the comparison laws and the
    laws of the negated quotient, IEEE doubles among them: for a
    well-formed guess and at least two and fewer than [2 ** 26]
    well-formed candidates, [score_expected_size] is not above [-1] and
    not below [-|S|], and it is [-|S|] exactly when every candidate shows
    the same pattern against the guess. *)
Theorem score_expected_size_bounds {F : Type} `{PyFloat F} `{!FloatOrder F}
    `{!FloatQuotient F} (g : word) (S : list word) (L turn max_turns : Z) :
  wf_word L g → Forall (wf_word L) S → (1 < length S)%nat →
  Z.of_nat (length S) < 2 ^ 26 →
  ∃ v : F,
    score_expected_size g S L turn max_turns = Ok v
    ∧ f_gt v (f_of_Z (- 1)) = false
    ∧ f_gt (f_of_Z (- Z.of_nat (length S))) v = false
    ∧ (v = f_of_Z (- Z.of_nat (length S)) ↔ same_pattern g L S).
Proof.
  intros Hg HS Hn Hbound. unfold score_expected_size.
  assert (Hall : all_scored g L S) by by apply all_scored_wf.
  destruct (Z.leb_spec (Z.of_nat (length S)) 1) as [|_]; [lia|].
  rewrite bucket_sizes_fold by done. cbn [mbind outcome_bind].
  pose proof (tally_counts_uniform g L S Hall) as Huniform.
  set (b := fold_left (λ d s, tally d (pattern_of g L s)) S []) in *.
  assert (Hpos : Forall (λ c, 0 < c) (dict_values b)).
  { unfold dict_values. apply Forall_fmap.
    apply (tally_fold_pos g L S []). constructor. }
  assert (Hsum : py_sum (dict_values b) = Z.of_nat (length S)).
  { unfold b. by rewrite tally_fold_sum. }
  pose proof (sum_squares_bounds _ Hpos) as Hsq.
  pose proof (sum_squares_max _ Hpos) as Hmax.
  rewrite Hsum in Hsq, Hmax.
  rewrite int_truediv_nonzero by lia. cbn [mbind outcome_bind].
  set (q := py_sum ((λ c, c * c) <$> dict_values b)) in *.
  set (n := Z.of_nat (length S)) in *.
  assert (Hsquare : n * n < 2 ^ 53).
  { assert (n * n < 2 ^ 26 * 2 ^ 26) by nia.
    assert (2 ^ 26 * 2 ^ 26 < 2 ^ 53) by (vm_compute; reflexivity). lia. }
  assert (H26 : 2 ^ 26 < 2 ^ 53) by (vm_compute; reflexivity).
  eexists. split; [reflexivity|]. split; [|split].
  - rewrite <- (f_quot_same n) by lia. apply f_quot_mono; lia.
  - rewrite <- (f_quot_square n) by lia. apply f_quot_mono; lia.
  - rewrite <- Huniform, <- Hmax. split.
    + intros Heq. destruct (decide (q = n * n)) as [|Hne]; [done|].
      exfalso. pose proof (f_quot_below q n) as Hbelow.
      rewrite Heq, f_gt_irrefl in Hbelow. 
      assert (false = true) by (apply Hbelow; lia). done.
    + intros ->. apply f_quot_square. lia.
Qed.

Lemma score_expected_size_bounds_witness :
  ∃ v : xreal,
    score_expected_size crane [crate; slate; trace] 5 1 6 = Ok v
    ∧ f_gt v (f_of_Z (- 1)) = false
    ∧ f_gt (f_of_Z (- Z.of_nat (length [crate; slate; trace]))) v = false
    ∧ (v = f_of_Z (- Z.of_nat (length [crate; slate; trace]))
       ↔ same_pattern crane 5 [crate; slate; trace]).
Proof.
  apply (score_expected_size_bounds (F := xreal));
    [solve_wf..|simpl; lia|vm_compute; reflexivity].
Defined.
(** * The selection loop picks a best-scoring word *)

Section selection.
Context {F : Type} `{PyFloat F} `{!FloatOrder F}.

Lemma pick_best_scored (sc : word → outcome F) (cand : word → bool)
    (g : word) (v : F) (bs : F) (bg : word) (bc : bool) :
  sc g = Ok v →
  pick_best sc cand g (bs, bg, bc)
  = if f_gt v bs || (f_eqb v bs && cand g && negb bc)
    then Ok (v, g, cand g) else Ok (bs, bg, bc).
Proof. intros Hsc. unfold pick_best. by rewrite Hsc. Qed.

(** The word [g] becomes the best so far. *)
Lemma best_so_far_take (s : word → F) (cand : word → bool)
    (seen : list word) (g : word) :
  (∀ g', g' ∈ seen → f_gt (s g') (s g) = false) →
  (∀ g', g' ∈ seen → f_eqb (s g') (s g) = true → cand g' = true →
         cand g = true) →
  best_so_far s cand (seen ++ [g]) (s g, g, cand g).
Proof.
  intros Hmax Htie. right. simpl.
  split; [apply elem_of_app; right; left|]. repeat split; try done.
  - intros g' [Hg'| ->%list_elem_of_singleton]%elem_of_app;
      [by apply Hmax|apply f_gt_irrefl].
  - intros g' [Hg'| ->%list_elem_of_singleton]%elem_of_app Heq Hc;
      [by apply (Htie g')|done].
Qed.

(** The best so far stays as it is past the word [g]. *)
Lemma best_so_far_keep (s : word → F) (cand : word → bool)
    (seen : list word) (g bg : word) (bc : bool) :
  best_so_far s cand seen (s bg, bg, bc) → bg ∈ seen →
  f_gt (s g) (s bg) = false →
  (f_eqb (s g) (s bg) = true → cand g = true → bc = true) →
  best_so_far s cand (seen ++ [g]) (s bg, bg, bc).
Proof.
  intros [(-> & _)|(Hbg & _ & Hbc & Hmax & Htie)] Hin Hgt Heq;
    [by apply elem_of_nil in Hin|].
  simpl in *. right. simpl.
  split; [apply elem_of_app; by left|]. repeat split; try done.
  - intros g' [Hg'| ->%list_elem_of_singleton]%elem_of_app;
      [by apply Hmax|done].
  - intros g' [Hg'| ->%list_elem_of_singleton]%elem_of_app;
      [by apply Htie|done].
Qed.

Lemma pick_best_loop (sc : word → outcome F) (cand : word → bool)
    (s : word → F) (rest seen : list word) (st : F * word * bool) :
  (∀ g, g ∈ rest → sc g = Ok (s g) ∧ f_gt (s g) f_neg_inf = true) →
  best_so_far s cand seen st →
  ∃ st', for_each rest (pick_best sc cand) st = Ok st'
       ∧ best_so_far s cand (seen ++ rest) st'.
Proof.
  revert seen st. induction rest as [|g rest IH]; intros seen st Hsc Hinv.
  - exists st. by rewrite app_nil_r.
  - cbn [for_each]. destruct st as [[bs bg] bc].
    destruct (Hsc g) as [Hg Hfin]; [left|].
    rewrite (pick_best_scored sc cand g (s g)) by done.
    replace (seen ++ g :: rest) with ((seen ++ [g]) ++ rest)
      by by rewrite <- app_assoc.
    assert (Hrest : ∀ g', g' ∈ rest →
              sc g' = Ok (s g') ∧ f_gt (s g') f_neg_inf = true)
      by (intros g' Hg'; apply Hsc; by right).
    destruct Hinv as [(-> & Hbs & Hbc)|(Hbg & Hbs & Hbc & Hmax & Htie)];
      simpl in Hbs, Hbc; subst bs.
    + rewrite Hfin. cbn [orb]. apply IH; [done|].
      apply (best_so_far_take s cand []); intros g' Hg';
        by apply elem_of_nil in Hg'.
    + simpl in Hbg, Hmax, Htie.
      destruct (f_gt (s g) (s bg)) eqn:Hgt; cbn [orb].
      * apply IH; [done|]. apply best_so_far_take.
        -- intros g' Hg'. destruct (f_gt (s g') (s g)) eqn:Hgt'; [|done].
           rewrite <- (Hmax g' Hg'). symmetry. by eapply f_gt_trans.
        -- intros g' Hg' Heq _. exfalso.
           pose proof (f_gt_eqb_l _ _ _ Heq Hgt) as Habove.
           rewrite (Hmax g' Hg') in Habove. done.
      * destruct (f_eqb (s g) (s bg) && cand g && negb bc) eqn:Hswap.
        -- apply andb_prop in Hswap as [[Heq Hcg]%andb_prop Hbcf].
           rewrite Hcg. apply IH; [done|].
           rewrite <- Hcg. apply best_so_far_take; [|done].
           intros g' Hg'. destruct (f_gt (s g') (s g)) eqn:Hgt'; [|done].
           rewrite <- (Hmax g' Hg'). symmetry. by eapply f_gt_eqb_r.
        -- apply IH; [done|]. apply best_so_far_keep; [|done..|].
           ++ right. by repeat split.
           ++ intros Heq Hcg. rewrite Heq, Hcg in Hswap. simpl in Hswap.
              by destruct bc.
Qed.

(** A whole selection loop over a non-empty pool. *)
Lemma pick_best_pool (sc : word → outcome F) (cand : word → bool)
    (s : word → F) (pool : list word) (w0 : word) :
  pool ≠ [] →
  (∀ g, g ∈ pool → sc g = Ok (s g) ∧ f_gt (s g) f_neg_inf = true) →
  ∃ bs w bc,
    for_each pool (pick_best sc cand) (f_neg_inf, w0, false) = Ok (bs, w, bc)
    ∧ w ∈ pool
    ∧ (∀ g, g ∈ pool → f_gt (s g) (s w) = false)
    ∧ (∀ g, g ∈ pool → f_eqb (s g) (s w) = true → cand g = true →
            cand w = true).
Proof.
  intros Hne Hsc.
  destruct (pick_best_loop sc cand s pool [] (f_neg_inf, w0, false))
    as ([[bs w] bc] & Hrun & Hinv); [done|by left|].
  exists bs, w, bc. split; [done|]. simpl in Hinv.
  destruct Hinv as [(-> & _)|(Hw & _ & Hbc & Hmax & Htie)]; [done|].
  simpl in *. repeat split; try done.
  intros g Hg Hv Hc. rewrite <- Hbc. by eapply Htie.
Qed.

Lemma candidate_set_member (candidates : list word) (g : word) :
  bool_decide (g ∈ (list_to_set candidates : gset word))
  = bool_decide (g ∈ candidates).
Proof. apply bool_decide_ext. apply elem_of_list_to_set. Qed.

(** X23.  In every float interface with the comparison laws, IEEE
    doubles among them: when every word of a non-empty pool gets a score
    above [-inf], [_score_pool] returns a word of the pool that no word
    of the pool outscores, and a candidate whenever a candidate of the
    pool has a score equal to that of the word returned. *)
Theorem score_pool_argmax (self : Solver F) (pool : list word) (turn : Z)
    (s : word → F) :
  pool ≠ [] →
  (∀ g, g ∈ pool →
        _score_guess self g turn = Ok (s g) ∧ f_gt (s g) f_neg_inf = true) →
  ∃ w, _score_pool self pool turn = Ok w ∧ w ∈ pool
     ∧ (∀ g, g ∈ pool → f_gt (s g) (s w) = false)
     ∧ (∀ g, g ∈ pool → f_eqb (s g) (s w) = true →
          g ∈ candidates self → w ∈ candidates self).
Proof.
  intros Hne Hsc. unfold _score_pool.
  destruct (getitem_first pool Hne) as (w0 & -> & _).
  cbv zeta. cbn [mbind outcome_bind].
  rewrite (for_each_ext _
    (pick_best (λ g, _score_guess self g turn)
       (λ g, bool_decide (g ∈ (list_to_set (candidates self) : gset word))))).
  2:{ intros g [[bs bg] bc]. unfold pick_best.
      by destruct (_score_guess self g turn). }
  destruct (pick_best_pool (λ g, _score_guess self g turn)
    (λ g, bool_decide (g ∈ (list_to_set (candidates self) : gset word)))
    s pool w0 Hne Hsc) as (bs & w & bc & -> & Hw & Hmax & Htie).
  exists w. cbn [mbind outcome_bind]. repeat split; try done.
  intros g Hg Hv Hc. specialize (Htie g Hg Hv).
  rewrite !candidate_set_member, !bool_decide_eq_true in Htie.
  by apply Htie.
Qed.

(** X24.  In every float interface with the comparison laws, IEEE
    doubles among them: on well-formed input on which [score_frequency]
    gives every word of the pool a score above [-inf],
    [score_frequency_batch] returns a word of the pool that no word of
    the pool outscores under [score_frequency], and a candidate whenever
    a candidate of the pool has a score equal to that of the word
    returned. *)
Theorem score_frequency_batch_argmax (pool candidates : list word)
    (L turn max_turns : Z) :
  pool ≠ [] → candidates ≠ [] →
  Forall (wf_word L) pool → Forall (wf_word L) candidates →
  (∀ g x, g ∈ pool →
          score_frequency g candidates L turn max_turns = Ok x →
          f_gt x f_neg_inf = true) →
  ∃ (w : word) (s : word → F),
    score_frequency_batch pool candidates L = Ok w ∧ w ∈ pool
    ∧ (∀ g, g ∈ pool →
         score_frequency g candidates L turn max_turns = Ok (s g))
    ∧ (∀ g, g ∈ pool → f_gt (s g) (s w) = false)
    ∧ (∀ g, g ∈ pool → f_eqb (s g) (s w) = true →
            g ∈ candidates → w ∈ candidates).
Proof.
  intros Hne Hcne Hpool Hcands Hfin.
  unfold score_frequency_batch. unfold score_frequency in *.
  destruct (Z.eqb_spec (Z.of_nat (length candidates)) 0) as [Hz|Hn].
  { destruct candidates; [done|simpl in Hz; lia]. }
  destruct (letter_stats_total candidates L)
    as (pf & pc & Hstats & Hpf); [done|].
  rewrite Hstats in *.
  cbv zeta. cbn [mbind outcome_bind] in *.
  destruct (getitem_first pool Hne) as (w0 & -> & _).
  cbn [mbind outcome_bind].
  set (n := Z.of_nat (length candidates)) in *.
  set (sc := λ g : word,
    x ← letter_score g L n pf pc;
    Ok (if bool_decide (g ∈ (list_to_set candidates : gset word))
        then f_add x (f_lit (1 # 10)) else x)).
  assert (Hfreq : ∀ g,
    (score ← letter_score g L n pf pc;
     if bool_decide (g ∈ candidates) then Ok (f_add score (f_lit (1 # 10)))
     else Ok score) = sc g).
  { intros g. unfold sc.
    destruct (letter_score g L n pf pc) as [x|]; simpl; [|done].
    rewrite candidate_set_member.
    by destruct (bool_decide (g ∈ candidates)). }
  assert (Hsc : ∀ g, g ∈ pool →
            sc g = Ok (score_of (sc g))
            ∧ f_gt (score_of (sc g)) f_neg_inf = true).
  { intros g Hg.
    assert (Hok : ∃ x, sc g = Ok x).
    { unfold sc.
      destruct (letter_score_total g L n pf pc) as [x ->]; [|done..|].
      { rewrite Forall_forall in Hpool. by apply Hpool. }
      simpl. by eexists. }
    destruct Hok as [x Hx]. rewrite Hx. simpl. split; [done|].
    apply (Hfin g x Hg). by rewrite Hfreq. }
  rewrite (for_each_ext _ (pick_best sc
    (λ g, bool_decide (g ∈ (list_to_set candidates : gset word))))).
  2:{ intros g [[bs bg] bc]. unfold pick_best, sc.
      by destruct (letter_score g L n pf pc). }
  destruct (pick_best_pool sc
    (λ g, bool_decide (g ∈ (list_to_set candidates : gset word)))
    (λ g, score_of (sc g)) pool w0 Hne Hsc)
    as (bs & w & bc & -> & Hw & Hmax & Htie).
  exists w, (λ g, score_of (sc g)).
  cbn [mbind outcome_bind]. repeat split; try done.
  - intros g Hg. rewrite Hfreq. by apply Hsc.
  - intros g Hg Hv Hc. specialize (Htie g Hg Hv).
    rewrite !candidate_set_member, !bool_decide_eq_true in Htie.
    by apply Htie.
Qed.
End selection.

(** In the exact instance the frequency score of a well-formed word is
    a real number. *)
Lemma letter_score_fin (guess : word) (L n : Z)
    (pos_freq : list (gmap Z Z)) (presence_count : gmap Z Z) :
  wf_word L guess → length pos_freq = Z.to_nat L → n ≠ 0 →
  ∃ r, letter_score (F := xreal) guess L n pos_freq presence_count
       = Ok (Fin r).
Proof.
  intros Hg Hpf Hn. unfold letter_score.
  assert (Hdiv : ∀ x : xreal, float_div_int x n = Ok (f_div x (f_of_Z n))).
  { intros x. unfold float_div_int. by destruct (Z.eqb_spec n 0). }
  cbv zeta.
  match goal with
  | |- ∃ x, (for_each _ ?body ?st0 ≫= _) = _ =>
      destruct (for_each_inv (λ st : xreal * gset Z, ∃ r, st.1 = Fin r)
                  (λ i, 0 ≤ i < L) body (range L) st0)
        as ([score seen] & Hrun & [r Hr])
  end; [apply range_bounds| |by eexists|].
  - intros i [score seen] Hi [r Hr]. simpl in Hr. subst score.
    destruct (getitem_letter L guess i) as (c & -> & _); [done..|]. simpl.
    destruct (getitem_in_range pos_freq i) as (d & -> & _); [lia|]. simpl.
    rewrite !Hdiv. simpl.
    destruct (bool_decide (c ∈ seen)); eexists; (split; [done|]);
      simpl; by eexists.
  - rewrite Hrun. simpl in *. subst score. simpl. by eexists.
Qed.

Lemma score_frequency_fin (guess : word) (candidates : list word)
    (L turn max_turns : Z) (x : xreal) :
  wf_word L guess → Forall (wf_word L) candidates →
  score_frequency guess candidates L turn max_turns = Ok x →
  f_gt x f_neg_inf = true.
Proof.
  intros Hg Hcands. unfold score_frequency.
  destruct (Z.eqb_spec (Z.of_nat (length candidates)) 0) as [|Hn];
    [by intros [= <-]|].
  destruct (letter_stats_total candidates L)
    as (pf & pc & -> & Hpf); [done|].
  cbn [mbind outcome_bind].
  destruct (letter_score_fin guess L (Z.of_nat (length candidates)) pf pc)
    as [r ->]; [done..|].
  cbn [mbind outcome_bind]. by destruct (bool_decide _); intros [= <-].
Qed.

Lemma score_frequency_batch_argmax_witness :
  ∃ (w : word) (s : word → xreal),
    score_frequency_batch [crane; crate; slate; trace]
      [crane; crate; slate] 5 = Ok w
    ∧ w ∈ [crane; crate; slate; trace]
    ∧ (∀ g, g ∈ [crane; crate; slate; trace] →
         score_frequency g [crane; crate; slate] 5 1 6 = Ok (s g))
    ∧ (∀ g, g ∈ [crane; crate; slate; trace] → f_gt (s g) (s w) = false)
    ∧ (∀ g, g ∈ [crane; crate; slate; trace] → f_eqb (s g) (s w) = true →
         g ∈ [crane; crate; slate] → w ∈ [crane; crate; slate]).
Proof.
  apply (score_frequency_batch_argmax (F := xreal));
    [done|done|solve_wf|solve_wf|].
  intros g x Hg. apply score_frequency_fin; [|solve_wf].
  repeat (apply elem_of_cons in Hg as [->|Hg]; [solve_wf|]).
  by apply elem_of_nil in Hg.
Defined.

Lemma score_pool_argmax_witness :
  let self := demo_solver "minimax" score_minimax false in
  let s := λ g, score_of (_score_guess self g 1) in
  ∃ w, _score_pool self [crane; crate; slate; trace] 1 = Ok w
     ∧ w ∈ [crane; crate; slate; trace]
     ∧ (∀ g, g ∈ [crane; crate; slate; trace] → f_gt (s g) (s w) = false)
     ∧ (∀ g, g ∈ [crane; crate; slate; trace] → f_eqb (s g) (s w) = true →
          g ∈ candidates self → w ∈ candidates self).
Proof.
  apply (score_pool_argmax (demo_solver "minimax" score_minimax false)
           [crane; crate; slate; trace] 1
           (λ g, score_of (_score_guess
                             (demo_solver "minimax" score_minimax false)
                             g 1))); [done|].
  intros g Hg.
  repeat (apply elem_of_cons in Hg as [->|Hg]; [split; reflexivity|]).
  by apply elem_of_nil in Hg.
Defined.
(** * The game engine *)

Lemma for_each_keep_app {S A : Type} (xs ys : list A)
    (body : A → S → S * outcome unit) (s : S) :
  for_each_keep (xs ++ ys) body s
  = match for_each_keep xs body s with
    | (s', Ok _) => for_each_keep ys body s'
    | (s', Raise e) => (s', Raise e)
    end.
Proof.
  revert s. induction xs as [|x xs IH]; intros s; simpl; [done|].
  destruct (body x s) as [s' [[]|e]]; [apply IH|done].
Qed.

Lemma enumerate_snoc {A : Type} (l : list A) (x : A) :
  enumerate (l ++ [x]) = enumerate l ++ [(Z.of_nat (length l), x)].
Proof.
  unfold enumerate. rewrite imap_app. simpl. by rewrite Nat.add_0_r.
Qed.

Lemma _update_hard_mode_constraints_loops self (w : word) (pattern : Z) :
  WordleEngine._update_hard_mode_constraints self w pattern
  = match for_each_keep
            (enumerate (pattern_to_tiles pattern (WordleEngine.word_length self)))
            (constraint_step w) (self, []) with
    | ((self', _), Raise e) => (self', Raise e)
    | ((self', letter_counts), Ok _) =>
        (fold_left require_step letter_counts self', Ok ())
    end.
Proof.
  unfold WordleEngine._update_hard_mode_constraints.
  match goal with
  | |- (let '(_, _) := for_each_keep _ ?body _ in _) = _ =>
      change body with (constraint_step w)
  end.
  by destruct (for_each_keep _ _ _) as [[self' lc] [[]|e]].
Qed.

Lemma hinted_snoc (tiles : list Z) (t : Z) (w : word) (c : Z) :
  hinted (tiles ++ [t]) w c
  = hinted tiles w c
    + (if decide ((t = 2 ∨ t = 1) ∧ w !! length tiles = Some c) then 1 else 0).
Proof.
  unfold hinted. rewrite imap_app, filter_app, length_app. simpl.
  rewrite Nat.add_0_r, filter_cons, filter_nil. simpl.
  destruct (decide _); simpl; lia.
Qed.

Lemma tally_get (d : list (Z * Z)) (c0 c : Z) :
  default 0 (dict_get (tally d c0) c)
  = default 0 (dict_get d c) + (if decide (c0 = c) then 1 else 0).
Proof.
  unfold tally. rewrite dict_get_set.
  destruct (decide (c0 = c)) as [->|]; simpl; lia.
Qed.

(** The first loop never raises on a word that covers the tiles; it
    changes [_known_green] only, writing the letter of the word at each
    green position, and counts the hints of each letter. *)
Lemma constraint_loop (w : word) (tiles : list Z) self (lc : list (Z * Z)) :
  (length tiles ≤ length w)%nat →
  ∃ kg' lc',
    for_each_keep (enumerate tiles) (constraint_step w) (self, lc)
    = ((WordleEngine.set__known_green self kg', lc'), Ok ())
    ∧ (∀ k, dict_get kg' k
            = if bool_decide (0 ≤ k ∧ tiles !! Z.to_nat k = Some 2)
              then w !! Z.to_nat k
              else dict_get (WordleEngine._known_green self) k)
    ∧ ∀ c, default 0 (dict_get lc' c)
           = default 0 (dict_get lc c) + hinted tiles w c.
Proof.
  induction tiles as [|t tiles IH] using rev_ind; intros Hlen.
  - exists (WordleEngine._known_green self), lc.
    split; [by destruct self|]. split.
    + intros k. rewrite bool_decide_eq_false_2; [done|]. by intros [_ ?].
    + intros c. unfold hinted. simpl. lia.
  - rewrite length_app in Hlen. simpl in Hlen.
    destruct IH as (kg & lc1 & Hloop & Hkg & Hlc); [lia|].
    rewrite enumerate_snoc, for_each_keep_app, Hloop.
    destruct (lookup_lt_is_Some_2 w (length tiles)) as [c0 Hc]; [lia|].
    cbn [for_each_keep constraint_step]. rewrite (getitem_nat _ _ _ Hc).
    assert (Hlast : ∀ k, 0 ≤ k →
      (tiles ++ [t]) !! Z.to_nat k
      = if decide (Z.of_nat (length tiles) = k) then Some t
        else tiles !! Z.to_nat k).
    { intros k Hk. destruct (decide (Z.of_nat (length tiles) = k)) as [<-|Hne].
      - rewrite Nat2Z.id. apply list_lookup_middle. done.
      - destruct (decide (Z.to_nat k < length tiles)%nat).
        + by rewrite lookup_app_l.
        + rewrite !lookup_ge_None_2; [done|lia|].
          rewrite length_app. simpl. lia. }
    assert (Hold : ∀ k, Z.of_nat (length tiles) ≠ k →
      bool_decide (0 ≤ k ∧ (tiles ++ [t]) !! Z.to_nat k = Some 2)
      = bool_decide (0 ≤ k ∧ tiles !! Z.to_nat k = Some 2)).
    { intros k Hne. apply bool_decide_ext.
      split; intros [Hk Ht]; (split; [done|]).
      - rewrite Hlast in Ht by done. by rewrite decide_False in Ht.
      - rewrite Hlast by done. by rewrite decide_False. }
    assert (Hcount : ∀ c, t = 2 ∨ t = 1 →
      default 0 (dict_get (tally lc1 c0) c)
      = default 0 (dict_get lc c) + hinted (tiles ++ [t]) w c).
    { intros c Ht. rewrite tally_get, Hlc, hinted_snoc.
      destruct (decide (c0 = c)) as [->|Hne];
        destruct (decide _) as [[_ Hw]|Hno]; try lia; exfalso.
      - by apply Hno.
      - apply Hne. exact (Some_inj _ _ (eq_trans (eq_sym Hc) Hw)). }
    assert (Hnocount : ∀ c, t ≠ 2 → t ≠ 1 →
      default 0 (dict_get lc1 c)
      = default 0 (dict_get lc c) + hinted (tiles ++ [t]) w c).
    { intros c H2 H1. rewrite Hlc, hinted_snoc.
      rewrite decide_False; [lia|]. intros [[?|?] _]; done. }
    destruct (Z.eqb_spec t 2) as [->|Ht2].
    + eexists _, _. split; [reflexivity|]. split; [|by auto].
      intros k. rewrite dict_get_set, Hkg.
      destruct (decide (Z.of_nat (length tiles) = k)) as [<-|Hne].
      * rewrite bool_decide_eq_true_2, Nat2Z.id; [done|].
        split; [lia|]. rewrite Hlast by lia. by rewrite decide_True.
      * by rewrite Hold.
    + assert (Hkg' : ∀ k, dict_get kg k
             = if bool_decide (0 ≤ k ∧ (tiles ++ [t]) !! Z.to_nat k = Some 2)
               then w !! Z.to_nat k
               else dict_get (WordleEngine._known_green self) k).
      { intros k. rewrite Hkg.
        destruct (decide (Z.of_nat (length tiles) = k)) as [<-|Hne];
          [|by rewrite Hold].
        rewrite !bool_decide_eq_false_2; [done|..]; intros [_ Ht].
        - rewrite Hlast in Ht by lia. rewrite decide_True in Ht by done.
          congruence.
        - rewrite Nat2Z.id in Ht. by rewrite lookup_ge_None_2 in Ht. }
      destruct (Z.eqb_spec t 1) as [->|Ht1]; eexists _, _;
        (split; [reflexivity|]); (split; [done|]); by auto.
Qed.

(** The second loop changes [_required_letters] only: no required
    count goes down, and each letter counted is required at least as
    often as it was counted. *)
Lemma require_loop (lc : list (Z * Z)) self :
  ∃ rl', fold_left require_step lc self
         = WordleEngine.set__required_letters self rl'
    ∧ (∀ c, required self c ≤ default 0 (dict_get rl' c))
    ∧ (∀ c v, (c, v) ∈ lc → v ≤ default 0 (dict_get rl' c)).
Proof.
  revert self. induction lc as [|[letter count] lc IH]; intros self.
  - exists (WordleEngine._required_letters self).
    split; [by destruct self|]. split; [done|].
    intros c v Hin. by apply elem_of_nil in Hin.
  - cbn [fold_left].
    destruct (IH (require_step self (letter, count)))
      as (rl' & -> & Hmono & Hcounted).
    exists rl'. split; [done|].
    assert (Hstep : ∀ c, required (require_step self (letter, count)) c
      = if decide (letter = c) then Z.max (required self letter) count
        else required self c).
    { intros c. unfold required, require_step. simpl.
      rewrite dict_get_set. by destruct (decide (letter = c)) as [->|]. }
    split.
    + intros c. etrans; [|apply Hmono]. rewrite Hstep.
      destruct (decide (letter = c)) as [->|]; lia.
    + intros c v [[= -> ->]|Hin]%elem_of_cons; [|by apply Hcounted].
      etrans; [|apply Hmono]. rewrite Hstep, decide_True by done. lia.
Qed.

Lemma pattern_to_tiles_length (p L : Z) :
  length (pattern_to_tiles p L) = Z.to_nat L.
Proof. by rewrite pattern_to_tiles_digits, length_rev, digits_lsb_length. Qed.

(** [_update_hard_mode_constraints] returns when the word has
    [word_length] bytes, and assigns the two constraint tables only. *)
Lemma _update_hard_mode_constraints_Ok self (w : word) (pattern : Z) :
  Z.of_nat (length w) = WordleEngine.word_length self →
  ∃ kg' rl',
    WordleEngine._update_hard_mode_constraints self w pattern
    = (WordleEngine.set__required_letters
         (WordleEngine.set__known_green self kg') rl', Ok ())
    ∧ (∀ k, dict_get kg' k
            = if bool_decide
                   (0 ≤ k
                    ∧ pattern_to_tiles pattern (WordleEngine.word_length self)
                        !! Z.to_nat k = Some 2)
              then w !! Z.to_nat k
              else dict_get (WordleEngine._known_green self) k)
    ∧ (∀ c, required self c ≤ default 0 (dict_get rl' c))
    ∧ ((∀ c, 0 ≤ required self c) →
       ∀ c, hinted (pattern_to_tiles pattern (WordleEngine.word_length self))
                   w c
            ≤ default 0 (dict_get rl' c)).
Proof.
  intros Hlen. rewrite _update_hard_mode_constraints_loops.
  destruct (constraint_loop w
              (pattern_to_tiles pattern (WordleEngine.word_length self))
              self []) as (kg' & lc' & -> & Hkg & Hlc).
  { rewrite pattern_to_tiles_length. lia. }
  destruct (require_loop lc' (WordleEngine.set__known_green self kg'))
    as (rl' & -> & Hmono & Hcounted).
  exists kg', rl'. split; [done|]. split; [done|]. split; [done|].
  intros Hpos c.
  assert (hinted (pattern_to_tiles pattern (WordleEngine.word_length self)) w c
          = default 0 (dict_get lc' c)) as ->
    by (rewrite Hlc; simpl; lia).
  destruct (dict_get lc' c) as [v|] eqn:Hget; simpl.
  - apply Hcounted. by apply dict_get_Some_elem.
  - etrans; [apply (Hpos c)|apply Hmono].
Qed.

(** With both words [word_length] long, the win pattern is the pattern
    of the secret against itself and of no other word. *)
Lemma compute_pattern_win (guess secret : word) (L p : Z) :
  Z.of_nat (length guess) = L → Z.of_nat (length secret) = L →
  compute_pattern guess secret L = Ok p →
  p = all_green_pattern L ↔ guess = secret.
Proof.
  intros Hg Hs Hp.
  destruct (compute_pattern_tiles guess secret L p)
    as (result & -> & Hlen & Htiles & Hgreen); [done..|].
  unfold all_green_pattern. rewrite <- Hlen. split.
  - intros Hmax. apply tiles_to_pattern_max in Hmax; [|done].
    apply list_eq. intros j.
    destruct (decide (j < length result)%nat) as [Hj|Hj].
    + assert (Hr : result !! j = Some 2).
      { rewrite Hmax. apply lookup_replicate_2. lia. }
      apply Hgreen in Hr as (c & Hgc & Hsc).
      exact (eq_trans Hgc (eq_sym Hsc)).
    + transitivity (@None Z); [|symmetry]; apply lookup_ge_None_2; lia.
  - intros Heq.
    rewrite <- tiles_to_pattern_all_green. f_equal.
    apply list_eq. intros j.
    destruct (decide (j < length result)%nat) as [Hj|Hj].
    + rewrite lookup_replicate_2 by done.
      destruct (lookup_lt_is_Some_2 guess j) as [c Hc]; [lia|].
      apply Hgreen. exists c. split; [done|]. by rewrite <- Heq.
    + rewrite (lookup_ge_None_2 result) by lia.
      rewrite lookup_ge_None_2; [done|rewrite length_replicate; lia].
Qed.

Lemma occurrences_cons (b : Z) (w : list Z) (c : Z) :
  occurrences (b :: w) c = (if decide (b = c) then 1 else 0) + occurrences w c.
Proof.
  unfold occurrences. rewrite filter_cons.
  destruct (decide (b = c)); simpl; lia.
Qed.

(** The letter table [_validate_hard_mode] builds counts the occurrences
    of each letter of the word. *)
Lemma word_counts_occurrences (w : word) (d : list (Z * Z)) (c : Z) :
  default 0 (dict_get (fold_left tally w d) c)
  = default 0 (dict_get d c) + occurrences w c.
Proof.
  revert d. induction w as [|b w IH]; intros d.
  - unfold occurrences. simpl. lia.
  - cbn [fold_left]. rewrite IH, tally_get, occurrences_cons. lia.
Qed.

Section engine_facts.
Variable py_repr : word → string.
Variable py_str : Z → string.
Variable py_chr : Z → string.
Implicit Types (self : WordleEngine.t) (w : word) (r : GuessResult.t).

Local Abbreviation guess := (WordleEngine.guess py_repr py_str py_chr).
Local Abbreviation _validate_hard_mode :=
  (WordleEngine._validate_hard_mode py_str py_chr).

(** A call that raises leaves the engine as it was. *)
Lemma guess_Raise self w self' (e : exn) :
  guess self w = (self', Raise e) → self' = self.
Proof.
  unfold WordleEngine.guess.
  destruct (GameState.finished _); [by intros [= <-]|].
  destruct (bool_decide_reflect
              (Z.of_nat (length w) ≠ WordleEngine.word_length self))
    as [|Hlen]; [by intros [= <-]|].
  apply dec_stable in Hlen.
  destruct (match WordleEngine.valid_guesses self with
            | Some valid => bool_decide (w ∉ valid)
            | None => false
            end); [by intros [= <-]|].
  destruct (if _ && _ then _ else _); [|by intros [= <-]].
  destruct (compute_pattern _ _ _) as [p|]; [|by intros [= <-]].
  cbv zeta.
  destruct (p =? _); [|destruct (_ <=? _)]; cbn [WordleEngine.hard_mode
    WordleEngine.set__state]; (destruct (WordleEngine.hard_mode self) eqn:Hhard;
    [|done]);
    match goal with
    | |- context [WordleEngine._update_hard_mode_constraints ?s w p] =>
        destruct (_update_hard_mode_constraints_Ok s w p) as (kg & rl & -> & _);
          [done|done]
    end.
Qed.

(** What an accepted call has checked, returns and assigns. *)
Lemma guess_Ok self w self' r :
  guess self w = (self', Ok r) →
  GameState.finished (WordleEngine._state self) = false
  ∧ Z.of_nat (length w) = WordleEngine.word_length self
  ∧ (∀ valid, WordleEngine.valid_guesses self = Some valid → w ∈ valid)
  ∧ (WordleEngine.hard_mode self = true → game_log self ≠ [] →
     _validate_hard_mode self w = Ok ())
  ∧ compute_pattern w (WordleEngine.secret self) (WordleEngine.word_length self)
    = Ok (GuessResult.pattern r)
  ∧ GuessResult.guess r = w
  ∧ GuessResult.is_correct r
    = (GuessResult.pattern r =? WordleEngine._win_pattern self)
  ∧ GuessResult.turn r = GameState.turns_used (WordleEngine._state self) + 1
  ∧ same_game self self'
  ∧ game_log self' = game_log self ++ [r]
  ∧ GameState.won (WordleEngine._state self')
    = GameState.won (WordleEngine._state self) || GuessResult.is_correct r
  ∧ GameState.finished (WordleEngine._state self')
    = GuessResult.is_correct r
      || (WordleEngine.max_turns self <=? GuessResult.turn r)
  ∧ if WordleEngine.hard_mode self then
      (∀ k, dict_get (WordleEngine._known_green self') k
            = if bool_decide
                   (0 ≤ k
                    ∧ pattern_to_tiles (GuessResult.pattern r)
                                       (WordleEngine.word_length self)
                        !! Z.to_nat k = Some 2)
              then w !! Z.to_nat k
              else dict_get (WordleEngine._known_green self) k)
      ∧ (∀ c, required self c ≤ required self' c)
      ∧ ((∀ c, 0 ≤ required self c) →
         ∀ c, hinted (pattern_to_tiles (GuessResult.pattern r)
                                       (WordleEngine.word_length self)) w c
              ≤ required self' c)
    else WordleEngine._known_green self' = WordleEngine._known_green self
         ∧ WordleEngine._required_letters self'
           = WordleEngine._required_letters self.
Proof.
  unfold WordleEngine.guess, game_log.
  destruct (GameState.finished _) eqn:Hfin; [done|].
  destruct (bool_decide_reflect
              (Z.of_nat (length w) ≠ WordleEngine.word_length self))
    as [|Hlen]; [done|].
  apply dec_stable in Hlen.
  destruct (match WordleEngine.valid_guesses self with
            | Some valid => bool_decide (w ∉ valid)
            | None => false
            end) eqn:Hvalid; [done|].
  destruct (if _ && _ then _ else _) as [[]|] eqn:Hhm; [|done].
  destruct (compute_pattern _ _ _) as [p|] eqn:Hp; [|done].
  cbv zeta. intros Hguess.
  assert (Hchecks :
    (∀ valid, WordleEngine.valid_guesses self = Some valid → w ∈ valid)
    ∧ (WordleEngine.hard_mode self = true →
       GameState.guesses (WordleEngine._state self) ≠ [] →
       _validate_hard_mode self w = Ok ())).
  { split.
    - intros valid Hv. rewrite Hv in Hvalid.
      apply bool_decide_eq_false in Hvalid. by apply dec_stable in Hvalid.
    - intros Hhard Hne. rewrite Hhard in Hhm.
      by rewrite bool_decide_eq_false_2 in Hhm. }
  destruct Hchecks as [Hv Hval].
  destruct (p =? _) eqn:Hwin; [|destruct (_ <=? _) eqn:Hmax];
    cbn [WordleEngine.hard_mode WordleEngine.set__state] in Hguess;
    (destruct (WordleEngine.hard_mode self) eqn:Hhard;
     [match type of Hguess with
      | context [WordleEngine._update_hard_mode_constraints ?s w p] =>
          destruct (_update_hard_mode_constraints_Ok s w p)
            as (kg & rl & Hupd & Hkg & Hmono & Hcount); [done|];
          rewrite Hupd in Hguess
      end|]);
    injection Hguess as <- <-; cbn;
    rewrite ?Hwin, ?Hmax, ?Hfin, ?orb_true_r, ?orb_false_r;
    (do 8 (split; [done|])); (split; [by repeat split|]);
    do 3 (split; [done|]); by repeat split.
Qed.

(** A call that passes the checks is accepted. *)
Lemma guess_accepts self w (p : Z) :
  GameState.finished (WordleEngine._state self) = false →
  Z.of_nat (length w) = WordleEngine.word_length self →
  (∀ valid, WordleEngine.valid_guesses self = Some valid → w ∈ valid) →
  (WordleEngine.hard_mode self = true → game_log self ≠ [] →
   _validate_hard_mode self w = Ok ()) →
  compute_pattern w (WordleEngine.secret self) (WordleEngine.word_length self)
  = Ok p →
  ∃ self' r, guess self w = (self', Ok r).
Proof.
  intros Hfin Hlen Hvalid Hhm Hp.
  assert (Hvb : match WordleEngine.valid_guesses self with
                | Some valid => bool_decide (w ∉ valid)
                | None => false
                end = false).
  { destruct (WordleEngine.valid_guesses self) as [valid|]; [|done].
    apply bool_decide_eq_false_2. intros Hno. by apply Hno, Hvalid. }
  assert (Hhb : (if WordleEngine.hard_mode self
                    && negb (bool_decide
                               (GameState.guesses (WordleEngine._state self)
                                = []))
                 then _validate_hard_mode self w else Ok ()) = Ok ()).
  { destruct (WordleEngine.hard_mode self); [|done].
    destruct (bool_decide_reflect
                (GameState.guesses (WordleEngine._state self) = []));
      [done|]. by apply Hhm. }
  unfold WordleEngine.guess. rewrite Hfin.
  rewrite bool_decide_eq_false_2 by (by intros ?).
  rewrite Hvb, Hhb, Hp. cbv zeta.
  destruct (p =? _); [|destruct (_ <=? _)];
    cbn [WordleEngine.hard_mode WordleEngine.set__state];
    (destruct (WordleEngine.hard_mode self);
     [match goal with
      | |- context [WordleEngine._update_hard_mode_constraints ?s w p] =>
          destruct (_update_hard_mode_constraints_Ok s w p)
            as (kg & rl & -> & _); [done|]
      end|]);
    by eexists _, _.
Qed.

Lemma run_guesses_inv (P : WordleEngine.t → Prop) self (ws : list word) :
  (∀ s w, P s → P (guess s w).1) → P self →
  P (run_guesses py_repr py_str py_chr self ws).
Proof.
  intros Hstep. unfold run_guesses. revert self.
  induction ws as [|w ws IH]; intros self Hself; simpl; [done|].
  apply IH. by apply Hstep.
Qed.

Lemma __init___Ok (secret : word) (L max_turns : Z) (hard : bool)
    (valid : option (list word)) self :
  WordleEngine.__init__ py_repr py_str secret L max_turns hard valid = Ok self →
  Z.of_nat (length secret) = L
  ∧ WordleEngine.secret self = secret
  ∧ WordleEngine.word_length self = L
  ∧ WordleEngine.max_turns self = max_turns
  ∧ WordleEngine.hard_mode self = hard
  ∧ WordleEngine._win_pattern self = all_green_pattern L
  ∧ game_log self = []
  ∧ GameState.finished (WordleEngine._state self) = false
  ∧ GameState.won (WordleEngine._state self) = false
  ∧ WordleEngine._known_green self = []
  ∧ WordleEngine._required_letters self = [].
Proof.
  unfold WordleEngine.__init__.
  destruct (bool_decide_reflect (Z.of_nat (length secret) ≠ L)) as [|Hlen];
    [done|].
  apply dec_stable in Hlen. by intros [= <-].
Qed.

Lemma __init___engine_ok (secret : word) (L max_turns : Z) (hard : bool)
    (valid : option (list word)) self :
  WordleEngine.__init__ py_repr py_str secret L max_turns hard valid = Ok self →
  engine_ok self.
Proof.
  intros Hinit. apply __init___Ok in Hinit
    as (Hlen & Hsec & HL & Hmt & Hhard & Hwin & Hlog & Hfin & Hwon & _).
  unfold engine_ok. rewrite Hlog, Hsec, HL, Hwin, Hfin, Hwon.
  unfold GameState.turns_used. unfold game_log in Hlog. rewrite Hlog.
  simpl. repeat split; try done; try lia.
  - by intros (r & ? & _).
  - by intros [|[]].
Qed.

Lemma guess_engine_ok self w : engine_ok self → engine_ok (guess self w).1.
Proof.
  intros Hok. destruct (guess self w) as [self' [r|e]] eqn:Hguess; simpl.
  2:{ by rewrite (guess_Raise _ _ _ _ Hguess). }
  apply guess_Ok in Hguess
    as (Hfin & Hlen & Hvalid & _ & Hp & Hg & Hcorrect & Hturn & Hsame & Hlog
        & Hwon & Hfin' & _).
  destruct Hsame as (Hsec & HL & Hmt & _ & Hvg & Hwin & _).
  destruct Hok as (Hslen & Hwinp & Hlogged & Hlast & Hwon0 & Hfin0 & Hcap).
  assert (Hnotwon : GameState.won (WordleEngine._state self) = false).
  { apply not_true_is_false. intros Hw.
    assert (GameState.finished (WordleEngine._state self) = true)
      by (apply Hfin0; by left). congruence. }
  assert (Hroom : game_log self = []
                  ∨ GameState.turns_used (WordleEngine._state self)
                    < WordleEngine.max_turns self).
  { destruct (game_log self) eqn:Hl; [by left|right].
    destruct (Z.ltb_spec (GameState.turns_used (WordleEngine._state self))
                         (WordleEngine.max_turns self)); [done|].
    assert (GameState.finished (WordleEngine._state self) = true)
      by (apply Hfin0; right; split; [done|lia]). congruence. }
  assert (Hused : GameState.turns_used (WordleEngine._state self)
                  = Z.of_nat (length (game_log self))) by done.
  assert (Hused' : GameState.turns_used (WordleEngine._state self')
                   = Z.of_nat (length (game_log self)) + 1).
  { unfold GameState.turns_used. unfold game_log in Hlog. rewrite Hlog.
    rewrite length_app. unfold game_log. simpl. lia. }
  unfold engine_ok. rewrite Hsec, HL, Hmt, Hwin, Hlog, Hwon, Hfin', Hnotwon.
  rewrite Hused'. simpl.
  split; [done|]. split; [done|]. split; [|split; [|split; [|split]]].
  - intros k r0 Hk. unfold logged. rewrite Hsec, HL, Hvg, Hwin.
    apply lookup_snoc_Some in Hk as [[Hlt Hk]|[-> <-]].
    + by apply Hlogged.
    + rewrite Hg. rewrite Hturn, Hused. done.
  - intros k r0 Hk Hc. rewrite length_app. simpl.
    apply lookup_snoc_Some in Hk as [[Hlt Hk]|[-> <-]]; [|lia].
    exfalso. pose proof (Hlast k r0 Hk Hc) as HS.
    assert (GameState.won (WordleEngine._state self) = true); [|congruence].
    apply Hwon0. exists r0. split; [|done].
    rewrite last_lookup, <- HS. done.
  - rewrite last_snoc. split; [by eauto|]. by intros (r0 & [= <-] & ?).
  - rewrite Hturn, Hused. split.
    + intros [Hc|Hm%Z.leb_le]%orb_true_iff; [by left|right].
      split; [by destruct (game_log self)|lia].
    + intros [Hc|[_ Hm]]; apply orb_true_iff; [by left|right].
      apply Z.leb_le. lia.
  - destruct Hroom as [Hnil|Hlt]; [rewrite Hnil; simpl; lia|lia].
Qed.

Lemma guess_same_game self w : same_game self (guess self w).1.
Proof.
  destruct (guess self w) as [self' [r|e]] eqn:Hguess; simpl.
  - by apply guess_Ok in Hguess as (_ & _ & _ & _ & _ & _ & _ & _ & Hsame & _).
  - by rewrite (guess_Raise _ _ _ _ Hguess).
Qed.

Lemma run_guesses_same_game self (ws : list word) :
  same_game self (run_guesses py_repr py_str py_chr self ws).
Proof.
  apply (run_guesses_inv (same_game self)); [|done].
  intros s w Hs. pose proof (guess_same_game s w) as Hstep.
  unfold same_game in *.
  destruct Hs as (? & ? & ? & ? & ? & ? & ? & ? & ? & ?).
  destruct Hstep as (? & ? & ? & ? & ? & ? & ? & ? & ? & ?).
  repeat split; congruence.
Qed.

(** X25.  [guess] is all or nothing.  A call that raises, for whatever
    reason, leaves the engine exactly as it was: nothing is logged and no
    hard-mode constraint is recorded.  On a finished game every call
    raises [ValueError].  A call that returns has appended its result,
    and nothing else, to the log and assigned none of the game's
    settings. *)
Theorem guess_all_or_nothing self w :
  (∀ e, (guess self w).2 = Raise e → (guess self w).1 = self)
  ∧ (GameState.finished (WordleEngine._state self) = true →
     guess self w = (self, Raise (ValueError "Game is already finished.")))
  ∧ (∀ r, (guess self w).2 = Ok r →
          GameState.finished (WordleEngine._state self) = false
          ∧ game_log (guess self w).1 = game_log self ++ [r]
          ∧ same_game self (guess self w).1).
Proof.
  split; [|split].
  - intros e He. destruct (guess self w) as [self' res] eqn:Hguess.
    simpl in *. subst res. by apply guess_Raise in Hguess.
  - intros Hfin. unfold WordleEngine.guess. by rewrite Hfin.
  - intros r Hr. destruct (guess self w) as [self' res] eqn:Hguess.
    simpl in *. subst res.
    by apply guess_Ok in Hguess
      as (? & _ & _ & _ & _ & _ & _ & _ & ? & ? & _).
Qed.

(** X26.  The log of a game is sound.  After any sequence of [guess]
    calls on a freshly built engine, the entry at position [k] carries
    turn number [k + 1], a guess of [word_length] bytes taken from the
    valid guesses, when a list of them was given, and the pattern of
    that guess against the secret; it is marked correct exactly when the
    guess is the secret. *)
Theorem game_log_sound (secret : word) (L max_turns : Z) (hard : bool)
    (valid : option (list word)) (e0 : WordleEngine.t) (ws : list word)
    (k : nat) r :
  WordleEngine.__init__ py_repr py_str secret L max_turns hard valid = Ok e0 →
  game_log (run_guesses py_repr py_str py_chr e0 ws) !! k = Some r →
  GuessResult.turn r = Z.of_nat k + 1
  ∧ Z.of_nat (length (GuessResult.guess r)) = L
  ∧ compute_pattern (GuessResult.guess r) secret L
    = Ok (GuessResult.pattern r)
  ∧ (GuessResult.is_correct r = true ↔ GuessResult.guess r = secret)
  ∧ (∀ v vs, valid = Some (v :: vs) → GuessResult.guess r ∈ v :: vs).
Proof.
  intros Hinit Hk.
  pose proof (__init___engine_ok _ _ _ _ _ _ Hinit) as Hok.
  apply (run_guesses_inv engine_ok _ ws) in Hok; [|by apply guess_engine_ok].
  destruct (run_guesses_same_game e0 ws) as (Hsec & HL & _ & _ & Hvg & _).
  destruct Hok as (Hslen & Hwin & Hlogged & _).
  destruct (Hlogged k r Hk) as (Hturn & Hlen & Hvalid & Hp & Hcorrect).
  rewrite Hsec, HL, Hvg in *.
  assert (Hvg0 : WordleEngine.valid_guesses e0
                 = match valid with
                   | Some (v :: vs) => Some (list_to_set (v :: vs))
                   | _ => None
                   end).
  { revert Hinit. unfold WordleEngine.__init__.
    destruct (bool_decide _); [done|]. by intros [= <-]. }
  apply __init___Ok in Hinit as (_ & Hsec0 & HL0 & _).
  rewrite Hsec0, HL0 in *.
  split; [done|]. split; [done|]. split; [done|]. split.
  - rewrite Hcorrect, Hwin, Z.eqb_eq. by apply compute_pattern_win.
  - intros v vs ->. apply (elem_of_list_to_set (C := gset word)).
    by apply Hvalid.
Qed.

(** X27.  The flags of a game follow its log.  After any sequence of
    [guess] calls on a freshly built engine: the game is won exactly when
    the last logged guess is the secret; it is finished exactly when it
    is won or at least one guess was taken and [max_turns] are used up;
    the log never holds more than [max_turns] guesses, or one when
    [max_turns] is below one; and the secret is never logged but as the
    last guess. *)
Theorem game_flags_follow_log (secret : word) (L max_turns : Z) (hard : bool)
    (valid : option (list word)) (e0 : WordleEngine.t) (ws : list word) :
  WordleEngine.__init__ py_repr py_str secret L max_turns hard valid = Ok e0 →
  let st := WordleEngine.state (run_guesses py_repr py_str py_chr e0 ws) in
  (GameState.won st = true
   ↔ ∃ r, last (GameState.guesses st) = Some r ∧ GuessResult.guess r = secret)
  ∧ (GameState.finished st = true
     ↔ GameState.won st = true
       ∨ (GameState.guesses st ≠ [] ∧ max_turns ≤ GameState.turns_used st))
  ∧ GameState.turns_used st ≤ Z.max 1 max_turns
  ∧ (∀ k r, GameState.guesses st !! k = Some r →
            GuessResult.guess r = secret →
            S k = length (GameState.guesses st)).
Proof.
  intros Hinit st.
  pose proof (__init___engine_ok _ _ _ _ _ _ Hinit) as Hok.
  apply (run_guesses_inv engine_ok _ ws) in Hok; [|by apply guess_engine_ok].
  destruct (run_guesses_same_game e0 ws) as (Hsec & HL & Hmt & _).
  destruct Hok as (Hslen & Hwin & Hlogged & Hlast & Hwon & Hfin & Hcap).
  apply __init___Ok in Hinit as (_ & Hsec0 & HL0 & Hmt0 & _).
  rewrite Hsec, HL, Hmt in *. rewrite Hsec0, HL0, Hmt0 in *.
  assert (Hsecret : ∀ k r, GameState.guesses st !! k = Some r →
            GuessResult.is_correct r = true ↔ GuessResult.guess r = secret).
  { intros k r Hk. destruct (Hlogged k r Hk) as (_ & Hlen & _ & Hp & ->).
    rewrite HL in Hlen. rewrite Hsec, HL in Hp.
    rewrite Hwin, Z.eqb_eq. by apply compute_pattern_win. }
  split; [|split; [done|split; [done|]]].
  - etrans; [exact Hwon|].
    split; intros (r & Hr & Hc); exists r; (split; [done|]);
      rewrite last_lookup in Hr; by eapply Hsecret.
  - intros k r Hk Hr. apply (Hlast k r Hk). by eapply Hsecret.
Qed.

(** A guess that passes the hard-mode check has every recorded green
    letter in its place. *)
Lemma _validate_hard_mode_greens self w (pos letter : Z) :
  _validate_hard_mode self w = Ok () →
  (pos, letter) ∈ WordleEngine._known_green self →
  getitem w pos = Ok letter.
Proof.
  unfold WordleEngine._validate_hard_mode.
  destruct (for_each (WordleEngine._known_green self) _ ()) as [[]|] eqn:Hloop;
    [|done].
  intros _ Hin.
  destruct (for_each_ok_all _ _ _ _ _ Hloop Hin) as (s1 & s2 & Hbody).
  simpl in Hbody. destruct (getitem w pos) as [c|]; simpl in Hbody; [|done].
  destruct (bool_decide_reflect (c ≠ letter)) as [|Heq]; [done|].
  apply dec_stable in Heq. by rewrite Heq.
Qed.

Lemma getitem_nat_Ok {A : Type} (l : list A) (k : nat) (x : A) :
  getitem l (Z.of_nat k) = Ok x → l !! k = Some x.
Proof.
  unfold getitem, py_index.
  destruct ((0 <=? Z.of_nat k) && (Z.of_nat k <? Z.of_nat (length l)))
    eqn:Hin; simpl.
  - rewrite Nat2Z.id. by destruct (l !! k); intros [= <-].
  - destruct ((- Z.of_nat (length l) <=? Z.of_nat k) && (Z.of_nat k <? 0))
      eqn:Hneg; [|done].
    apply andb_prop in Hneg as [_ Hneg%Z.ltb_lt]. lia.
Qed.

(** Hard mode keeps its green constraints through an accepted or a
    rejected guess. *)
Lemma guess_greens_ok self w :
  engine_ok self → WordleEngine.hard_mode self = true →
  greens_ok self → greens_ok (guess self w).1.
Proof.
  intros Hok Hhard [Hknown Hkept].
  destruct (guess self w) as [self' [r|e]] eqn:Hguess; simpl.
  2:{ by rewrite (guess_Raise _ _ _ _ Hguess). }
  apply guess_Ok in Hguess
    as (_ & Hlen & _ & Hcheck & Hp & Hg & _ & _ & Hsame & Hlog & _ & _ & Hkg).
  rewrite Hhard in Hkg. destruct Hkg as (Hkg & _). specialize (Hcheck Hhard).
  destruct Hsame as (Hsec & _).
  destruct Hok as (Hslen & _).
  assert (Hgreen : ∀ j : nat,
    pattern_to_tiles (GuessResult.pattern r) (WordleEngine.word_length self)
      !! j = Some 2
    ↔ ∃ c, w !! j = Some c ∧ WordleEngine.secret self !! j = Some c).
  { intros j.
    destruct (compute_pattern_tiles w (WordleEngine.secret self)
                (WordleEngine.word_length self) (GuessResult.pattern r))
      as (result & Hres & Hrlen & Htiles & Hgreen); [done..|].
    rewrite Hres, <- Hrlen, pattern_to_tiles_digits, Nat2Z.id.
    rewrite digits_lsb_tiles_to_pattern, rev_involutive by done.
    apply Hgreen. }
  assert (Hnew : ∀ (j : nat) c, w !! j = Some c →
            WordleEngine.secret self !! j = Some c →
            dict_get (WordleEngine._known_green self') (Z.of_nat j) = Some c).
  { intros j c Hw Hs. rewrite Hkg, Nat2Z.id.
    rewrite bool_decide_eq_true_2; [done|].
    split; [lia|]. apply Hgreen. eauto. }
  assert (Hold : ∀ (i j : nat) r0 c, game_log self !! i = Some r0 →
            GuessResult.guess r0 !! j = Some c →
            WordleEngine.secret self !! j = Some c →
            w !! j = Some c).
  { intros i j r0 c Hi Hr0 Hs.
    apply getitem_nat_Ok. apply (_validate_hard_mode_greens self).
    - apply Hcheck. intros Hnil. by rewrite Hnil in Hi.
    - apply dict_get_Some_elem. by eapply Hknown. }
  unfold greens_ok. rewrite Hsec, Hlog. split.
  - intros i j r0 c Hi Hr0 Hs.
    apply lookup_snoc_Some in Hi as [[_ Hi]|[_ <-]].
    + apply Hnew; [|done]. by apply (Hold i j r0 c).
    + rewrite Hg in Hr0. by apply Hnew.
  - intros i i' j r0 r' c Hlt Hi Hi' Hr0 Hs.
    apply lookup_snoc_Some in Hi' as [[Hlt' Hi']|[-> <-]].
    + rewrite lookup_app_l in Hi by lia. by apply (Hkept i i' j r0 r' c).
    + rewrite lookup_app_l in Hi by done. rewrite Hg.
      by apply (Hold i j r0 c).
Qed.

(** A guess that passes the hard-mode check has every letter as often
    as it is required. *)
Lemma _validate_hard_mode_counts self w (c : Z) :
  _validate_hard_mode self w = Ok () → required self c ≤ occurrences w c.
Proof.
  unfold WordleEngine._validate_hard_mode.
  destruct (for_each (WordleEngine._known_green self) _ ()) as [[]|]; [|done].
  cbn [mbind outcome_bind]. intros Hloop. unfold required.
  destruct (dict_get (WordleEngine._required_letters self) c) as [m|] eqn:Hm;
    simpl; [|unfold occurrences; lia].
  apply dict_get_Some_elem in Hm.
  destruct (for_each_ok_all _ _ _ _ _ Hloop Hm) as (s1 & s2 & Hbody).
  simpl in Hbody.
  match type of Hbody with
  | context [dict_get (fold_left ?f w []) c] =>
      change f with tally in Hbody
  end.
  pose proof (word_counts_occurrences w [] c) as Hocc. simpl in Hocc.
  destruct (Z.ltb_spec (default 0 (dict_get (fold_left tally w []) c)) m);
    [done|lia].
Qed.

(** Hard mode keeps its count constraints through an accepted or a
    rejected guess. *)
Lemma guess_counts_ok self w :
  WordleEngine.hard_mode self = true →
  counts_ok self → counts_ok (guess self w).1.
Proof.
  intros Hhard (Hpos & Hreq & Hkept).
  destruct (guess self w) as [self' [r|e]] eqn:Hguess; simpl.
  2:{ by rewrite (guess_Raise _ _ _ _ Hguess). }
  apply guess_Ok in Hguess
    as (_ & Hlen & _ & Hcheck & Hp & Hg & _ & _ & Hsame & Hlog & _ & _ & Hkg).
  rewrite Hhard in Hkg. destruct Hkg as (_ & Hmono & Hcount).
  specialize (Hcheck Hhard). specialize (Hcount Hpos).
  destruct Hsame as (_ & HL & _).
  unfold counts_ok. rewrite HL, Hlog. split; [|split].
  - intros c. etrans; [apply Hpos|apply Hmono].
  - intros i r0 c Hi.
    apply lookup_snoc_Some in Hi as [[_ Hi]|[_ <-]].
    + etrans; [by eapply Hreq|apply Hmono].
    + rewrite Hg. apply Hcount.
  - intros i i' r0 r' c Hlt Hi Hi'.
    apply lookup_snoc_Some in Hi' as [[Hlt' Hi']|[-> <-]].
    + rewrite lookup_app_l in Hi by lia. by apply (Hkept i i' r0 r' c).
    + rewrite lookup_app_l in Hi by done. rewrite Hg.
      etrans; [by apply (Hreq i r0 c)|].
      apply _validate_hard_mode_counts, Hcheck.
      intros Hnil. by rewrite Hnil in Hi.
Qed.

(** X28.  Hard mode keeps what was found.  After any sequence of [guess]
    calls on a freshly built hard-mode engine, take a logged guess and
    one logged after it.  A letter that the first has in its right place
    is at that place in the second, and a letter that got green or
    yellow tiles in the first occurs at least as many times in the
    second: the engine has rejected every guess that dropped a hint. *)
Theorem hard_mode_keeps_hints (secret : word) (L max_turns : Z)
    (valid : option (list word)) (e0 : WordleEngine.t) (ws : list word)
    (i i' : nat) r r' :
  WordleEngine.__init__ py_repr py_str secret L max_turns true valid = Ok e0 →
  (i < i')%nat →
  game_log (run_guesses py_repr py_str py_chr e0 ws) !! i = Some r →
  game_log (run_guesses py_repr py_str py_chr e0 ws) !! i' = Some r' →
  (∀ (j : nat) c, GuessResult.guess r !! j = Some c → secret !! j = Some c →
                  GuessResult.guess r' !! j = Some c)
  ∧ (∀ c, hinted (pattern_to_tiles (GuessResult.pattern r) L)
                 (GuessResult.guess r) c
          ≤ occurrences (GuessResult.guess r') c).
Proof.
  intros Hinit Hlt Hi Hi'.
  pose proof (__init___engine_ok _ _ _ _ _ _ Hinit) as Hok.
  apply __init___Ok in Hinit
    as (_ & Hsec0 & HL0 & _ & Hhard & _ & Hlog0 & _ & _ & _ & Hrl0).
  assert (Hall : engine_ok (run_guesses py_repr py_str py_chr e0 ws)
                 ∧ WordleEngine.hard_mode
                     (run_guesses py_repr py_str py_chr e0 ws) = true
                 ∧ greens_ok (run_guesses py_repr py_str py_chr e0 ws)
                 ∧ counts_ok (run_guesses py_repr py_str py_chr e0 ws)).
  { apply (run_guesses_inv
             (λ s, engine_ok s ∧ WordleEngine.hard_mode s = true
                   ∧ greens_ok s ∧ counts_ok s)).
    - intros s w (Hoks & Hhards & Hgreens & Hcounts).
      split; [by apply guess_engine_ok|].
      split; [|split; [by apply guess_greens_ok|by apply guess_counts_ok]].
      destruct (guess_same_game s w) as (_ & _ & _ & -> & _). done.
    - split; [done|]. split; [done|]. unfold greens_ok, counts_ok, required.
      rewrite Hlog0, Hrl0.
      repeat split; intros; try done; by rewrite lookup_nil in *. }
  destruct Hall as (_ & _ & (_ & Hgreens) & (_ & _ & Hcounts)).
  destruct (run_guesses_same_game e0 ws) as (Hsec & HL & _).
  rewrite Hsec, Hsec0 in Hgreens. rewrite HL, HL0 in Hcounts.
  split.
  - intros j c Hr Hs. by apply (Hgreens i i' j r r' c).
  - intros c. by apply (Hcounts i i' r r' c).
Qed.
End engine_facts.

Lemma hard_mode_keeps_hints_witness :
  (∀ (j : nat) c, crate !! j = Some c → crane !! j = Some c →
                  crane !! j = Some c)
  ∧ (∀ c, hinted (pattern_to_tiles 236 5) crate c ≤ occurrences crane c).
Proof.
  apply (hard_mode_keeps_hints no_text no_text no_text crane 5 6 None
           (demo_engine true) [crate; trace; crane] 0 1
           {| GuessResult.guess := crate; GuessResult.pattern := 236;
              GuessResult.is_correct := false; GuessResult.turn := 1 |}
           {| GuessResult.guess := crane; GuessResult.pattern := 242;
              GuessResult.is_correct := true; GuessResult.turn := 2 |});
    [vm_compute; reflexivity|lia|vm_compute; reflexivity..].
Defined.

Lemma game_log_sound_witness :
  GuessResult.turn
    {| GuessResult.guess := crane; GuessResult.pattern := 242;
       GuessResult.is_correct := true; GuessResult.turn := 2 |}
  = Z.of_nat 1 + 1
  ∧ Z.of_nat (length crane) = 5
  ∧ compute_pattern crane crane 5 = Ok 242
  ∧ (true = true ↔ crane = crane)
  ∧ (∀ v vs, @None (list word) = Some (v :: vs) → crane ∈ v :: vs).
Proof.
  apply (game_log_sound no_text no_text no_text crane 5 6 false None
           (demo_engine false) [slate; crane] 1
           {| GuessResult.guess := crane; GuessResult.pattern := 242;
              GuessResult.is_correct := true; GuessResult.turn := 2 |});
    vm_compute; reflexivity.
Defined.

Lemma game_flags_follow_log_witness :
  let st := WordleEngine.state
              (run_guesses no_text no_text no_text (demo_engine true)
                           [slate; crane; trace]) in
  (GameState.won st = true
   ↔ ∃ r, last (GameState.guesses st) = Some r ∧ GuessResult.guess r = crane)
  ∧ (GameState.finished st = true
     ↔ GameState.won st = true
       ∨ (GameState.guesses st ≠ [] ∧ 6 ≤ GameState.turns_used st))
  ∧ GameState.turns_used st ≤ Z.max 1 6
  ∧ (∀ k r, GameState.guesses st !! k = Some r →
            GuessResult.guess r = crane →
            S k = length (GameState.guesses st)).
Proof.
  apply (game_flags_follow_log no_text no_text no_text crane 5 6 true None
           (demo_engine true) [slate; crane; trace]).
  vm_compute. reflexivity.
Defined.

(** ** Playing a game *)

Section play_game_facts.
Context {F : Type} `{PyFloat F}.
Variable py_repr : word → string.
Variable py_str : Z → string.
Variable py_chr : Z → string.
Implicit Types (self : WordleEngine.t) (solver : Solver F) (cache : Cache).

Local Abbreviation guess := (WordleEngine.guess py_repr py_str py_chr).
Local Abbreviation play_loop := (WordleEngine.play_loop py_repr py_str py_chr).
Local Abbreviation play_game := (WordleEngine.play_game py_repr py_str py_chr).

(** Every accepted guess uses up one of the guesses left. *)
Lemma guess_progress self (w : word) self' (r : GuessResult.t) :
  guess self w = (self', Ok r) →
  (guesses_left self' < guesses_left self)%nat
  ∧ length (game_log self') = S (length (game_log self)).
Proof.
  intros Hguess. apply guess_Ok in Hguess
    as (Hfin & _ & _ & _ & _ & _ & _ & Hturn & Hsame & Hlog & _ & Hfin' & _).
  destruct Hsame as (_ & _ & Hmt & _).
  split; [|rewrite Hlog, length_app; simpl; lia].
  unfold guesses_left. rewrite Hfin, Hfin', Hmt.
  assert (Hused : GameState.turns_used (WordleEngine._state self')
                  = GameState.turns_used (WordleEngine._state self) + 1).
  { unfold GameState.turns_used. unfold game_log in Hlog. rewrite Hlog.
    rewrite length_app. simpl. lia. }
  rewrite Hused, Hturn.
  destruct (GuessResult.is_correct r); simpl; [lia|].
  destruct (Z.leb_spec (WordleEngine.max_turns self)
              (GameState.turns_used (WordleEngine._state self) + 1)); lia.
Qed.

Lemma play_loop_terminates (fuel : nat) cache self solver :
  (guesses_left self < fuel)%nat →
  ∃ self' solver' cache' (res : outcome unit),
    play_loop fuel cache self solver = Some (self', solver', cache', res)
    ∧ (res = Ok () → GameState.finished (WordleEngine._state self') = true)
    ∧ (length (game_log self')
       ≤ length (game_log self) + guesses_left self)%nat.
Proof.
  revert cache self solver.
  induction fuel as [|fuel IH]; intros cache self solver Hfuel; [lia|].
  cbn [WordleEngine.play_loop].
  destruct (GameState.finished (WordleEngine._state self)) eqn:Hfin.
  { eexists _, _, _, _. split; [done|]. split; [done|lia]. }
  destruct (best_guess cache solver _) as [[w|e] cache1].
  2:{ eexists _, _, _, _. split; [done|]. split; [done|lia]. }
  destruct (guess self w) as [self1 [r|e]] eqn:Hguess.
  2:{ apply guess_Raise in Hguess as ->.
      eexists _, _, _, _. split; [done|]. split; [done|lia]. }
  apply guess_progress in Hguess as [Hless Hlog].
  destruct (update solver w (GuessResult.pattern r)) as [solver1 [[]|e]].
  2:{ eexists _, _, _, _. split; [done|]. split; [done|lia]. }
  destruct (IH cache1 self1 solver1) as (self' & solver' & cache' & res
                                         & -> & Hres & Hlen); [lia|].
  eexists _, _, _, _. split; [done|]. split; [done|lia].
Qed.

(** X29.  [play_game] terminates, whatever the solver and the state of
    the engine: its loop ends within as many iterations as there are
    guesses left, by an exception or with a finished game, and the state
    it returns is the engine's own.  It logs no more guesses than were
    left. *)
Theorem play_game_terminates (fuel : nat) cache self solver :
  (guesses_left self < fuel)%nat →
  ∃ self' solver' cache' (res : outcome GameState.t),
    play_game fuel cache self solver = Some (self', solver', cache', res)
    ∧ (∀ st, res = Ok st →
             st = WordleEngine.state self' ∧ GameState.finished st = true)
    ∧ (length (game_log self')
       ≤ length (game_log self) + guesses_left self)%nat.
Proof.
  intros Hfuel. unfold WordleEngine.play_game.
  destruct (play_loop_terminates fuel cache self (reset solver) Hfuel)
    as (self' & solver' & cache' & res & -> & Hres & Hlen).
  destruct res as [[]|e]; eexists _, _, _, _; (split; [done|]);
    (split; [|done]).
  - intros st [= <-]. split; [done|]. by apply Hres.
  - by intros st.
Qed.

(** One round of a fair game is played without an exception and leaves
    a fair game. *)
Lemma fair_round cache self solver :
  fair_game cache self solver →
  GameState.finished (WordleEngine._state self) = false →
  ∃ (w : word) cache1 self1 (r : GuessResult.t) solver1,
    best_guess cache solver
               (GameState.turns_used (WordleEngine._state self) + 1)
    = (Ok w, cache1)
    ∧ guess self w = (self1, Ok r)
    ∧ update solver w (GuessResult.pattern r) = (solver1, Ok ())
    ∧ fair_game cache1 self1 solver1
    ∧ same_game self self1
    ∧ _initial_guesses solver1 = _initial_guesses solver.
Proof.
  intros (Hok & Hsoft & HL & Hsolver & Hsecret & Hpool & Hvalid & Hmemo & Hlog)
         Hfin.
  set (turn := GameState.turns_used (WordleEngine._state self) + 1) in *.
  assert (Hne : candidates solver ≠ []).
  { intros Hnil. rewrite Hnil in Hsecret. by apply elem_of_nil in Hsecret. }
  destruct (best_guess_member solver cache turn Hsolver Hne)
    as (w & Hbest & Hw).
  assert (Hwpool : w ∈ guess_pool solver) by (destruct Hw; auto).
  destruct (best_guess cache solver turn) as [res cache1]. simpl in Hbest.
  subst res.
  pose proof Hsolver as (Hcwf & Hpwf & Hsub & Hreg).
  rewrite HL in Hcwf, Hpwf.
  assert (Hwwf : wf_word (WordleEngine.word_length self) w).
  { rewrite Forall_forall in Hpwf. by apply Hpwf. }
  assert (Hswf : wf_word (WordleEngine.word_length self)
                         (WordleEngine.secret self)).
  { rewrite Forall_forall in Hcwf. by apply Hcwf. }
  destruct (compute_pattern_total _ _ _ Hwwf Hswf) as [p Hp].
  destruct (guess_accepts py_repr py_str py_chr self w p)
    as (self1 & r & Hguess); [done|by destruct Hwwf| |by rewrite Hsoft|done|].
  { intros valid Hv. by apply (Hvalid valid Hv), Hpool. }
  pose proof (guess_engine_ok py_repr py_str py_chr self w Hok) as Hok1.
  rewrite Hguess in Hok1. simpl in Hok1.
  pose proof (guess_progress _ _ _ _ Hguess) as [_ Hlen1].
  pose proof (guess_Ok _ _ _ _ _ _ _ Hguess)
    as (_ & _ & _ & _ & Hpr & Hg & _ & _ & Hsame & Hlog1 & _).
  assert (Hupd : (update solver w (GuessResult.pattern r)).2 = Ok ()).
  { apply update_total; by rewrite ?HL. }
  pose proof (update_solver_ok solver w (GuessResult.pattern r) Hsolver)
    as Hsolver1.
  pose proof (update_config solver w (GuessResult.pattern r))
    as (HL1 & _ & _ & _ & _ & Hig & _).
  pose proof (update_keeps_word solver (WordleEngine.secret self) w
                (GuessResult.pattern r)) as [Hsecret1 _];
    [by rewrite HL|].
  assert (Hpool1 : guess_pool (update solver w (GuessResult.pattern r)).1
                   ⊆ guess_pool solver).
  { destruct (update_lists solver w (GuessResult.pattern r))
      as [[_ ->] | [[_ ->] | [_ ->]]]; [done..|].
    intros x Hx. by apply with_pattern_subseteq in Hx. }
  destruct (update solver w (GuessResult.pattern r)) as [solver1 res]
    eqn:Hupdate.
  simpl in *. subst res.
  exists w, cache1, self1, r, solver1.
  do 3 (split; [done|]). split; [|done].
  destruct Hsame as (Hsec & HLe & _ & Hhard & Hvg & _).
  unfold fair_game. rewrite Hsec, HLe, Hhard, Hvg, Hig, Hlog1.
  split; [done|]. split; [done|]. split; [congruence|].
  split; [done|]. split; [by apply Hsecret1|].
  split; [by etrans|]. split; [done|]. split.
  - intros w'. unfold memoized_first_guess.
    replace (GameState.turns_used (WordleEngine._state self1) + 1 =? 1)
      with false; [done|].
    symmetry. apply Z.eqb_neq. unfold GameState.turns_used.
    unfold game_log in Hlen1. lia.
  - apply Forall_app. split; [done|]. apply Forall_singleton.
    rewrite Hg. by apply Hpool.
Qed.

Lemma fair_play_loop (fuel : nat) cache self solver :
  fair_game cache self solver → (guesses_left self < fuel)%nat →
  ∃ self' solver' cache',
    play_loop fuel cache self solver = Some (self', solver', cache', Ok ())
    ∧ fair_game cache' self' solver'
    ∧ GameState.finished (WordleEngine._state self') = true
    ∧ WordleEngine.secret self' = WordleEngine.secret self
    ∧ _initial_guesses solver' = _initial_guesses solver.
Proof.
  revert cache self solver.
  induction fuel as [|fuel IH]; intros cache self solver Hfair Hfuel; [lia|].
  cbn [WordleEngine.play_loop].
  destruct (GameState.finished (WordleEngine._state self)) eqn:Hfin.
  { by eexists _, _, _. }
  destruct (fair_round cache self solver Hfair Hfin)
    as (w & cache1 & self1 & r & solver1 & Hbest & Hguess & Hupdate & Hfair1
        & Hsame & Hig).
  rewrite Hbest, Hguess, Hupdate.
  apply guess_progress in Hguess as [Hless _].
  destruct (IH cache1 self1 solver1 Hfair1)
    as (self' & solver' & cache' & -> & Hfair' & Hfin' & Hsec' & Hig');
    [lia|].
  destruct Hsame as (Hsec & _).
  eexists _, _, _. split; [done|]. split; [done|]. split; [done|].
  split; congruence.
Qed.

(** X30.  A game between a solver and a fresh soft-mode engine is
    played to its end without an exception, when the solver's word lists
    are well formed for the engine's word length, its guesses contain its
    solutions and are among the engine's valid guesses, the secret is one
    of its solutions, and a first guess memoized for it is one of its
    guesses.  The game returned is finished; it is won exactly when its
    last guess is the secret; every guess logged is one of the solver's
    guesses; and the secret is still among the solver's candidates. *)
Theorem play_game_runs (fuel : nat) cache solver (secret : word)
    (max_turns : Z) (valid : option (list word)) self :
  WordleEngine.__init__ py_repr py_str secret (word_length solver) max_turns
                        false valid = Ok self →
  Forall (wf_word (word_length solver)) (_initial_solutions solver) →
  Forall (wf_word (word_length solver)) (_initial_guesses solver) →
  _initial_solutions solver ⊆ _initial_guesses solver →
  strategy_registered solver →
  secret ∈ _initial_solutions solver →
  (∀ v vs, valid = Some (v :: vs) → _initial_guesses solver ⊆ v :: vs) →
  (∀ w, cache !! cache_key solver = Some w → w ∈ _initial_guesses solver) →
  (Z.to_nat (Z.max 1 max_turns) < fuel)%nat →
  ∃ self' solver' cache' st,
    play_game fuel cache self solver = Some (self', solver', cache', Ok st)
    ∧ st = WordleEngine.state self'
    ∧ GameState.finished st = true
    ∧ (GameState.won st = true
       ↔ ∃ r, last (GameState.guesses st) = Some r
              ∧ GuessResult.guess r = secret)
    ∧ Forall (λ r, GuessResult.guess r ∈ _initial_guesses solver)
             (GameState.guesses st)
    ∧ secret ∈ candidates solver'.
Proof.
  intros Hinit Hswf Hgwf Hsub Hreg Hsecret Hvalid Hcache Hfuel.
  pose proof (__init___engine_ok _ _ _ _ _ _ _ _ Hinit) as Hok.
  assert (Hvg : WordleEngine.valid_guesses self
                = match valid with
                  | Some (v :: vs) => Some (list_to_set (v :: vs))
                  | _ => None
                  end).
  { revert Hinit. unfold WordleEngine.__init__.
    destruct (bool_decide _); [done|]. by intros [= <-]. }
  apply __init___Ok in Hinit
    as (Hlen & Hsec & HL & Hmt & Hhard & Hwin & Hlog & Hfin & _).
  assert (Hfair : fair_game cache self (reset solver)).
  { unfold fair_game, solver_ok, strategy_registered. simpl.
    rewrite Hsec, HL, Hlog.
    do 2 (split; [done|]). split; [done|]. split; [done|].
    split; [done|]. split; [done|]. split; [|split; [|done]].
    - intros vset Hv w Hw. rewrite Hvg in Hv.
      destruct valid as [[|v vs]|]; try done.
      assert (vset = list_to_set (v :: vs)) as -> by congruence.
      apply (elem_of_list_to_set (C := gset word)).
      by apply (Hvalid v vs).
    - intros w. unfold memoized_first_guess. simpl.
      destruct (_ && _); [|done]. apply Hcache. }
  assert (Hleft : (guesses_left self < fuel)%nat).
  { unfold guesses_left. rewrite Hfin, Hmt. unfold GameState.turns_used.
    unfold game_log in Hlog. rewrite Hlog. simpl length. lia. }
  destruct (fair_play_loop fuel cache self (reset solver) Hfair Hleft)
    as (self' & solver' & cache' & Hloop & Hfair' & Hfin' & Hsec' & Hig).
  unfold WordleEngine.play_game. rewrite Hloop.
  exists self', solver', cache', (WordleEngine._state self').
  destruct Hfair' as (Hok' & _ & HL' & _ & Hsecret' & _ & _ & _ & Hlog').
  rewrite Hsec', Hsec in Hsecret'. simpl in Hig. rewrite Hig in Hlog'.
  do 3 (split; [done|]). split; [|done].
  destruct Hok' as (Hslen & Hwin' & Hlogged & _ & Hwon & _).
  etrans; [exact Hwon|].
  assert (Hcorrect : ∀ k r, game_log self' !! k = Some r →
            GuessResult.is_correct r = true ↔ GuessResult.guess r = secret).
  { intros k r Hk. destruct (Hlogged k r Hk) as (_ & Hrlen & _ & Hp & ->).
    rewrite Hsec', Hsec in Hp, Hslen.
    rewrite Hwin', Z.eqb_eq. by apply compute_pattern_win. }
  split; intros (r & Hr & Hc); exists r; (split; [done|]);
    rewrite last_lookup in Hr; by eapply Hcorrect.
Qed.
End play_game_facts.

Lemma play_game_terminates_witness :
  ∃ self' solver' cache' (res : outcome GameState.t),
    WordleEngine.play_game no_text no_text no_text 7 ∅ (demo_engine true)
      (demo_solver "minimax" score_minimax false)
    = Some (self', solver', cache', res)
    ∧ (∀ st, res = Ok st →
             st = WordleEngine.state self' ∧ GameState.finished st = true)
    ∧ (length (game_log self')
       ≤ length (game_log (demo_engine true))
         + guesses_left (demo_engine true))%nat.
Proof.
  apply (play_game_terminates no_text no_text no_text 7 ∅ (demo_engine true)
           (demo_solver "minimax" score_minimax false)).
  vm_compute. lia.
Defined.

Lemma play_game_runs_witness :
  ∃ self' solver' cache' st,
    WordleEngine.play_game no_text no_text no_text 7 ∅ (demo_engine false)
      (demo_solver "minimax" score_minimax false)
    = Some (self', solver', cache', Ok st)
    ∧ st = WordleEngine.state self'
    ∧ GameState.finished st = true
    ∧ (GameState.won st = true
       ↔ ∃ r, last (GameState.guesses st) = Some r
              ∧ GuessResult.guess r = crane)
    ∧ Forall (λ r, GuessResult.guess r
                   ∈ _initial_guesses
                       (demo_solver "minimax" score_minimax false))
             (GameState.guesses st)
    ∧ crane ∈ candidates solver'.
Proof.
  apply (play_game_runs no_text no_text no_text 7 ∅
           (demo_solver "minimax" score_minimax false) crane 6 None
           (demo_engine false)).
  - vm_compute. reflexivity.
  - simpl. solve_wf.
  - simpl. solve_wf.
  - simpl. solve_wf.
  - reflexivity.
  - left.
  - intros v vs Hv. discriminate Hv.
  - intros w Hw. rewrite lookup_empty in Hw. discriminate Hw.
  - vm_compute. lia.
Defined.
